(** * Halo-Vision firmware: ring buffer, NMEA framer, telemetry link and
    UART polling

    A shallow embedding of
    - [util/ring_buffer.c] (brain module and display module carry the same
      code for init, write, read, peek, clear and the queries, and two
      variants of the bulk operations),
    - [drivers/gps_driver.c] (NMEA framing, checksum validation, field
      splitting, RMC and GGA extraction, the accessors),
    - [drivers/ble_rx.c] (newline framed telemetry lines, NAV and STATUS
      extraction, the accessors),
    - [drivers/ble_uart.c] (the sender of these lines, and the line reader
      that tracks the connection),
    - [hal/uart.c] of both modules (the buffered receive side) and the
      polling loops of both [main.c],
    together with the properties of the design document that concern them
    and further properties read off the code.

    Conventions.  A [uint8_t] or [char] is a [Z] in the range 0..255; a C
    array is a [list Z] updated by index (a store out of range leaves the
    list as it is, the C code never performs one in a reachable state); a C
    string is the list of the bytes before its first NUL; a pointer that the
    code tests against NULL is an [option].  A loop whose number of
    iterations depends on the data takes a bound on the iterations and
    returns [None] when the bound is reached with the loop condition still
    true. *)

From Stdlib Require Import ZArith Lia Bool List String Ascii.
From stdpp Require Import base numbers option list.
Import ListNotations.

Local Open Scope Z_scope.

(** ** Bytes and C strings *)

Module CStr.

(** The bytes of a Rocq string, as the C compiler lays a literal out
    (without the closing NUL). *)
Definition bytes (s : string) : list Z :=
  map (fun a => Z.of_N (N_of_ascii a)) (list_ascii_of_string s).

(** The C string that starts at the beginning of an array: the bytes before
    the first NUL. *)
Fixpoint cstr (a : list Z) : list Z :=
  match a with
  | [] => []
  | c :: a' => if c =? 0 then [] else c :: cstr a'
  end.

(** Array read; the default stands for a read the code never performs. *)
Definition get (a : list Z) (i : nat) : Z := default 0 (a !! i).

(** Several consecutive stores: [bs] written into [a] from index [i] on. *)
Definition store_at (a : list Z) (i : nat) (bs : list Z) : list Z :=
  take i a ++ bs ++ drop (i + length bs) a.

(** [isspace] and [isdigit] of the C locale. *)
Definition isspace (c : Z) : bool :=
  (c =? 32) || ((9 <=? c) && (c <=? 13)).

Definition isdigit (c : Z) : bool := (48 <=? c) && (c <=? 57).

Fixpoint skip_space (s : list Z) : list Z :=
  match s with
  | c :: s' => if isspace c then skip_space s' else s
  | [] => []
  end.

(** An optional sign: whether it is a minus, and the rest. *)
Definition take_sign (s : list Z) : bool * list Z :=
  match s with
  | 45 :: s' => (true, s')
  | 43 :: s' => (false, s')
  | _ => (false, s)
  end.

(** The value of a hexadecimal digit, upper or lower case. *)
Definition hexval (c : Z) : option Z :=
  if isdigit c then Some (c - 48)
  else if (65 <=? c) && (c <=? 70) then Some (c - 55)
  else if (97 <=? c) && (c <=? 102) then Some (c - 87)
  else None.

Definition decval (c : Z) : option Z :=
  if isdigit c then Some (c - 48) else None.

(** The longest run of digits at the head of [s], accumulated in the given
    base from [acc]; the value, the number of digits and the rest. *)
Fixpoint digits (val : Z -> option Z) (base : Z) (s : list Z) (acc : Z) (n : nat)
    : Z * nat * list Z :=
  match s with
  | c :: s' =>
      match val c with
      | Some d => digits val base s' (acc * base + d) (S n)
      | None => (acc, n, s)
      end
  | [] => (acc, n, [])
  end.

(** [long] of the target (avr-gcc, and every ILP32 host): 32 bits. *)
Definition LONG_MAX : Z := 2147483647.
Definition LONG_MIN : Z := -2147483648.

(** [strtol (s, NULL, 16)]: white space, an optional sign, an optional
    [0x] in front of a digit, then hexadecimal digits; zero when there is
    no digit; the result is clamped to the range of [long]. *)
Definition strtol16 (s : list Z) : Z :=
  let '(neg, s1) := take_sign (skip_space s) in
  let s2 :=
    match s1 with
    | 48 :: x :: h :: _ =>
        if ((x =? 120) || (x =? 88)) && bool_decide (is_Some (hexval h))
        then drop 2 s1 else s1
    | _ => s1
    end in
  let '(v, _, _) := digits hexval 16 s2 0 0 in
  let r := if neg then - v else v in
  Z.max LONG_MIN (Z.min LONG_MAX r).

(** [atoi]: white space, an optional sign, decimal digits.  The result is
    given as the integer the digits denote; the callers store it in a
    [uint8_t], and the reduction modulo 256 is written there (avr-libc
    accumulates with wrap-around, for which this is exact whatever the
    number of digits). *)
Definition atoi (s : list Z) : Z :=
  let '(neg, s1) := take_sign (skip_space s) in
  let '(v, _, _) := digits decval 10 s1 0 0 in
  if neg then - v else v.

(** [strchr (s, c)] for a [c] other than NUL: the string from the first
    [c] on, or NULL. *)
Fixpoint strchr (s : list Z) (c : Z) : option (list Z) :=
  match s with
  | [] => None
  | x :: s' => if x =? c then Some s else strchr s' c
  end.

(** [strncmp (a, b, n) == 0] on two C strings. *)
Definition strncmp_eq (a b : list Z) (n : nat) : bool :=
  bool_decide (take n a = take n b).

(** [strncpy (dst, src, n)]: the first [n] bytes of [dst] become the string
    [src], cut at [n] bytes or filled up with NUL. *)
Definition strncpy (dst src : list Z) (n : nat) : list Z :=
  let body := take n src in
  store_at dst 0 (body ++ replicate (n - length body) 0).

(** One [%u] conversion of [sscanf]: white space, an optional sign, at
    least one decimal digit.  The value is the integer the digits denote;
    the callers narrow it to 16 or 8 bits, which the reduction to
    [unsigned int] (of at least 16 bits, by wrap-around) does not
    disturb. *)
Definition scan_uint (s : list Z) : option (Z * list Z) :=
  let '(neg, s1) := take_sign (skip_space s) in
  let '(v, n, rest) := digits decval 10 s1 0 0 in
  match n with
  | O => None
  | S _ => Some (if neg then - v else v, rest)
  end.

(** The bytes of [s] before the first [c]. *)
Fixpoint span_not (c : Z) (s : list Z) : list Z :=
  match s with
  | x :: s' => if x =? c then [] else x :: span_not c s'
  | [] => []
  end.

(** The number that a run of decimal digit characters denotes. *)
Definition decimal (ds : list Z) : Z :=
  fold_left (fun acc d => acc * 10 + (d - 48)) ds 0.

End CStr.

(** ** The ring buffer ([util/ring_buffer.c]) *)

Module RingBuffer.

(** [ring_buffer_t]: storage pointer, capacity, write cursor, read cursor,
    occupancy.  The storage is modelled by its contents. *)
Record ring_buffer_t : Type := mkRB {
  buffer : list Z;
  size : Z;
  head : Z;
  tail : Z;
  count : Z
}.

(** One call of the producer or of the consumer. *)
Inductive rb_call : Type :=
  | Write (data : Z)
  | Read.

Section Width.

(** [rb_size_t] comes from [util/ring_buffer.h], which is not part of the
    tree: it is taken as an unsigned integer type of [rb_bits] bits, and
    sums and differences of fields are reduced modulo [2 ^ rb_bits].  (For
    a type narrower than [int] the C sum [head + 1] is taken in [int]; the
    two readings agree as long as the cursor is below the capacity.) *)
Variable rb_bits : Z.

Definition rb_modulus : Z := 2 ^ rb_bits.

Definition rb_wrap (z : Z) : Z := z mod rb_modulus.

(** [ring_buffer_init]: a no-op when [rb] or [buffer] is NULL or [size] is
    zero. *)
Definition ring_buffer_init (rb : option ring_buffer_t)
    (buf : option (list Z)) (sz : Z) : option ring_buffer_t :=
  match rb, buf with
  | Some _, Some b =>
      if sz =? 0 then rb
      else Some {| buffer := b; size := sz; head := 0; tail := 0; count := 0 |}
  | _, _ => rb
  end.

Definition ring_buffer_bytes_available (rb : option ring_buffer_t) : Z :=
  match rb with Some r => count r | None => 0 end.

Definition ring_buffer_space_remaining (rb : option ring_buffer_t) : Z :=
  match rb with Some r => rb_wrap (size r - count r) | None => 0 end.

Definition ring_buffer_is_empty (rb : option ring_buffer_t) : bool :=
  match rb with Some r => count r =? 0 | None => true end.

Definition ring_buffer_is_full (rb : option ring_buffer_t) : bool :=
  match rb with Some r => count r =? size r | None => true end.

(** [ring_buffer_write]: the success flag and the buffer afterwards. *)
Definition ring_buffer_write (rb : option ring_buffer_t) (data : Z)
    : bool * option ring_buffer_t :=
  match rb with
  | None => (false, None)
  | Some r =>
      if ring_buffer_is_full rb then (false, rb)
      else (true,
            Some {| buffer := <[Z.to_nat (head r) := data]> (buffer r);
                    size := size r;
                    head := rb_wrap (head r + 1) mod size r;
                    tail := tail r;
                    count := rb_wrap (count r + 1) |})
  end.

(** [ring_buffer_read]: [data] is the destination ([None] for NULL, else
    its present contents); the result is the success flag, the destination
    afterwards and the buffer afterwards. *)
Definition ring_buffer_read (rb : option ring_buffer_t) (data : option Z)
    : bool * option Z * option ring_buffer_t :=
  match rb, data with
  | Some r, Some _ =>
      if ring_buffer_is_empty rb then (false, data, rb)
      else (true,
            Some (CStr.get (buffer r) (Z.to_nat (tail r))),
            Some {| buffer := buffer r;
                    size := size r;
                    head := head r;
                    tail := rb_wrap (tail r + 1) mod size r;
                    count := rb_wrap (count r - 1) |})
  | _, _ => (false, data, rb)
  end.

(** A run of producer and consumer calls on one buffer.  The result is the
    buffer afterwards, the bytes whose write succeeded and the bytes whose
    read succeeded, both in call order.  Every read is given a valid
    destination. *)
Fixpoint run (rb : option ring_buffer_t) (cs : list rb_call)
    : option ring_buffer_t * list Z * list Z :=
  match cs with
  | [] => (rb, [], [])
  | Write d :: cs' =>
      let '(ok, rb1) := ring_buffer_write rb d in
      let '(rb2, ws, rs) := run rb1 cs' in
      (rb2, if ok then d :: ws else ws, rs)
  | Read :: cs' =>
      let '(ok, out, rb1) := ring_buffer_read rb (Some 0) in
      let '(rb2, ws, rs) := run rb1 cs' in
      (rb2, ws, if ok then default 0 out :: rs else rs)
  end.

(** The queue a buffer holds: [count] bytes from the read cursor on,
    wrapping at [size]. *)
Definition contents (r : ring_buffer_t) : list Z :=
  map (fun k => CStr.get (buffer r) (Z.to_nat ((tail r + Z.of_nat k) mod size r)))
      (seq 0 (Z.to_nat (count r))).

(** The occupancy bound of a buffer of capacity [N]. *)
Definition rb_bounded (N : Z) (r : ring_buffer_t) : Prop :=
  size r = N /\ 0 <= count r <= N.

(** What holds of a buffer of capacity [N] between calls. *)
Record rb_inv (N : Z) (r : ring_buffer_t) : Prop := mkInv {
  inv_size : size r = N;
  inv_count : 0 <= count r <= N;
  inv_tail : 0 <= tail r < N;
  inv_head : head r = (tail r + count r) mod N;
  inv_len : Z.of_nat (length (buffer r)) = N
}.

(** [ring_buffer_peek]: [data] is the destination as in
    [ring_buffer_read]; the buffer itself is not modified.  The index sum
    is taken in [rb_size_t] (for a type narrower than [int] it is taken in
    [int]; the two readings agree when the sum is below [2 ^ rb_bits]). *)
Definition ring_buffer_peek (rb : option ring_buffer_t) (data : option Z)
    (offset : Z) : bool * option Z :=
  match rb, data with
  | Some r, Some _ =>
      if count r <=? offset then (false, data)
      else
        let peek_index := rb_wrap (tail r + offset) mod size r in
        (true, Some (CStr.get (buffer r) (Z.to_nat peek_index)))
  | _, _ => (false, data)
  end.

(** [ring_buffer_clear]. *)
Definition ring_buffer_clear (rb : option ring_buffer_t)
    : option ring_buffer_t :=
  match rb with
  | Some r =>
      Some {| buffer := buffer r; size := size r;
              head := 0; tail := 0; count := 0 |}
  | None => None
  end.

(** The loop of [ring_buffer_write_multi] in the brain module: the state
    is the buffer and [bytes_written].  The fuel bounds the number of
    iterations; the result is [None] when it runs out with the loop
    condition still true. *)
Fixpoint write_multi_loop (fuel : nat) (rb : option ring_buffer_t)
    (data : list Z) (len bytes_written : Z) {struct fuel}
    : option (Z * option ring_buffer_t) :=
  if (bytes_written <? len) && negb (ring_buffer_is_full rb) then
    match fuel with
    | O => None
    | S fuel' =>
        let '(ok, rb') :=
          ring_buffer_write rb (CStr.get data (Z.to_nat bytes_written)) in
        if ok
        then write_multi_loop fuel' rb' data len (rb_wrap (bytes_written + 1))
        else Some (bytes_written, rb')
    end
  else Some (bytes_written, rb).

(** [ring_buffer_write_multi] (brain module): the number of bytes written
    and the buffer afterwards. *)
Definition ring_buffer_write_multi (fuel : nat) (rb : option ring_buffer_t)
    (data : option (list Z)) (len : Z) : option (Z * option ring_buffer_t) :=
  match rb, data with
  | Some _, Some d =>
      if len =? 0 then Some (0, rb) else write_multi_loop fuel rb d len 0
  | _, _ => Some (0, rb)
  end.

(** The same function in the display module, whose loop condition is the
    write itself. *)
Fixpoint write_multi_loop_display (fuel : nat) (rb : option ring_buffer_t)
    (data : list Z) (len bytes_written : Z) {struct fuel}
    : option (Z * option ring_buffer_t) :=
  if bytes_written <? len then
    match fuel with
    | O => None
    | S fuel' =>
        let '(ok, rb') :=
          ring_buffer_write rb (CStr.get data (Z.to_nat bytes_written)) in
        if ok
        then write_multi_loop_display fuel' rb' data len
               (rb_wrap (bytes_written + 1))
        else Some (bytes_written, rb')
    end
  else Some (bytes_written, rb).

Definition ring_buffer_write_multi_display (fuel : nat)
    (rb : option ring_buffer_t) (data : option (list Z)) (len : Z)
    : option (Z * option ring_buffer_t) :=
  match rb, data with
  | Some _, Some d =>
      if len =? 0 then Some (0, rb)
      else write_multi_loop_display fuel rb d len 0
  | _, _ => Some (0, rb)
  end.

(** The loop of [ring_buffer_read_multi] in the brain module; [out] is the
    destination array, of which [&buffer[bytes_read]] is the slot handed to
    [ring_buffer_read]. *)
Fixpoint read_multi_loop (fuel : nat) (rb : option ring_buffer_t)
    (out : list Z) (len bytes_read : Z) {struct fuel}
    : option (Z * list Z * option ring_buffer_t) :=
  if (bytes_read <? len) && negb (ring_buffer_is_empty rb) then
    match fuel with
    | O => None
    | S fuel' =>
        let i := Z.to_nat bytes_read in
        let '(ok, slot, rb') := ring_buffer_read rb (Some (CStr.get out i)) in
        if ok
        then read_multi_loop fuel' rb' (<[i := default 0 slot]> out) len
               (rb_wrap (bytes_read + 1))
        else Some (bytes_read, out, rb')
    end
  else Some (bytes_read, out, rb).

(** [ring_buffer_read_multi] (brain module): the number of bytes read, the
    destination array afterwards and the buffer afterwards. *)
Definition ring_buffer_read_multi (fuel : nat) (rb : option ring_buffer_t)
    (out : option (list Z)) (len : Z)
    : option (Z * option (list Z) * option ring_buffer_t) :=
  match rb, out with
  | Some _, Some o =>
      if len =? 0 then Some (0, out, rb)
      else
        match read_multi_loop fuel rb o len 0 with
        | Some (n, o', rb') => Some (n, Some o', rb')
        | None => None
        end
  | _, _ => Some (0, out, rb)
  end.

(** The same function in the display module, whose loop condition is the
    read itself. *)
Fixpoint read_multi_loop_display (fuel : nat) (rb : option ring_buffer_t)
    (out : list Z) (len bytes_read : Z) {struct fuel}
    : option (Z * list Z * option ring_buffer_t) :=
  if bytes_read <? len then
    match fuel with
    | O => None
    | S fuel' =>
        let i := Z.to_nat bytes_read in
        let '(ok, slot, rb') := ring_buffer_read rb (Some (CStr.get out i)) in
        if ok
        then read_multi_loop_display fuel' rb' (<[i := default 0 slot]> out)
               len (rb_wrap (bytes_read + 1))
        else Some (bytes_read, out, rb')
    end
  else Some (bytes_read, out, rb).

Definition ring_buffer_read_multi_display (fuel : nat)
    (rb : option ring_buffer_t) (out : option (list Z)) (len : Z)
    : option (Z * option (list Z) * option ring_buffer_t) :=
  match rb, out with
  | Some _, Some o =>
      if len =? 0 then Some (0, out, rb)
      else
        match read_multi_loop_display fuel rb o len 0 with
        | Some (n, o', rb') => Some (n, Some o', rb')
        | None => None
        end
  | _, _ => Some (0, out, rb)
  end.

(** A [ring_buffer_t] as static storage holds it before any call: all
    fields zero, the storage pointer NULL. *)
Definition rb_zero : ring_buffer_t :=
  {| buffer := []; size := 0; head := 0; tail := 0; count := 0 |}.

(** A sample buffer of four slots whose queue of two bytes wraps around
    the end of the storage. *)
Definition example_wrapped : ring_buffer_t :=
  {| buffer := [10; 20; 30; 40]; size := 4; head := 1; tail := 3; count := 2 |}.

End Width.

End RingBuffer.

(** ** The GPS driver ([drivers/gps_driver.c]) *)

Module Gps.

Import CStr.

(** A [float] is kept symbolic: the all-zero pattern left by [memset], a
    literal of the source, the result of [atof] on a field, or a product.
    Equal terms denote equal floats. *)
Inductive cfloat : Type :=
  | FZero
  | FConst (literal : string)
  | FAtof (field : list Z)
  | FMul (a b : cfloat).

(** [gps_data_t] of [modules/gps.h]. *)
Record gps_data_t : Type := mkGpsData {
  hour : Z;
  minute : Z;
  second : Z;
  millisecond : Z;
  day : Z;
  month : Z;
  year : Z;
  latitude : cfloat;
  longitude : cfloat;
  altitude_msl : cfloat;
  speed_knots : cfloat;
  speed_kmh : cfloat;
  course_deg : cfloat;
  fix_quality : Z;
  fix_valid : bool;
  satellites_tracked : Z;
  seen_gga : bool;
  seen_rmc : bool
}.

(** The assignments the two extractors make to [current_gps_data]. *)
Definition set_time (h m s : Z) (d : gps_data_t) : gps_data_t :=
  mkGpsData h m s (millisecond d) (day d) (month d) (year d)
    (latitude d) (longitude d) (altitude_msl d) (speed_knots d) (speed_kmh d)
    (course_deg d) (fix_quality d) (fix_valid d) (satellites_tracked d)
    (seen_gga d) (seen_rmc d).

Definition set_date (dd mm yy : Z) (d : gps_data_t) : gps_data_t :=
  mkGpsData (hour d) (minute d) (second d) (millisecond d) dd mm yy
    (latitude d) (longitude d) (altitude_msl d) (speed_knots d) (speed_kmh d)
    (course_deg d) (fix_quality d) (fix_valid d) (satellites_tracked d)
    (seen_gga d) (seen_rmc d).

Definition set_position (lat lon : cfloat) (d : gps_data_t) : gps_data_t :=
  mkGpsData (hour d) (minute d) (second d) (millisecond d) (day d) (month d)
    (year d) lat lon (altitude_msl d) (speed_knots d) (speed_kmh d)
    (course_deg d) (fix_quality d) (fix_valid d) (satellites_tracked d)
    (seen_gga d) (seen_rmc d).

Definition set_altitude_msl (a : cfloat) (d : gps_data_t) : gps_data_t :=
  mkGpsData (hour d) (minute d) (second d) (millisecond d) (day d) (month d)
    (year d) (latitude d) (longitude d) a (speed_knots d) (speed_kmh d)
    (course_deg d) (fix_quality d) (fix_valid d) (satellites_tracked d)
    (seen_gga d) (seen_rmc d).

Definition set_speed (knots kmh : cfloat) (d : gps_data_t) : gps_data_t :=
  mkGpsData (hour d) (minute d) (second d) (millisecond d) (day d) (month d)
    (year d) (latitude d) (longitude d) (altitude_msl d) knots kmh
    (course_deg d) (fix_quality d) (fix_valid d) (satellites_tracked d)
    (seen_gga d) (seen_rmc d).

Definition set_course_deg (c : cfloat) (d : gps_data_t) : gps_data_t :=
  mkGpsData (hour d) (minute d) (second d) (millisecond d) (day d) (month d)
    (year d) (latitude d) (longitude d) (altitude_msl d) (speed_knots d)
    (speed_kmh d) c (fix_quality d) (fix_valid d) (satellites_tracked d)
    (seen_gga d) (seen_rmc d).

Definition set_fix_quality (q : Z) (d : gps_data_t) : gps_data_t :=
  mkGpsData (hour d) (minute d) (second d) (millisecond d) (day d) (month d)
    (year d) (latitude d) (longitude d) (altitude_msl d) (speed_knots d)
    (speed_kmh d) (course_deg d) q (fix_valid d) (satellites_tracked d)
    (seen_gga d) (seen_rmc d).

Definition set_fix_valid (v : bool) (d : gps_data_t) : gps_data_t :=
  mkGpsData (hour d) (minute d) (second d) (millisecond d) (day d) (month d)
    (year d) (latitude d) (longitude d) (altitude_msl d) (speed_knots d)
    (speed_kmh d) (course_deg d) (fix_quality d) v (satellites_tracked d)
    (seen_gga d) (seen_rmc d).

Definition set_satellites_tracked (n : Z) (d : gps_data_t) : gps_data_t :=
  mkGpsData (hour d) (minute d) (second d) (millisecond d) (day d) (month d)
    (year d) (latitude d) (longitude d) (altitude_msl d) (speed_knots d)
    (speed_kmh d) (course_deg d) (fix_quality d) (fix_valid d) n
    (seen_gga d) (seen_rmc d).

Definition set_seen_gga (b : bool) (d : gps_data_t) : gps_data_t :=
  mkGpsData (hour d) (minute d) (second d) (millisecond d) (day d) (month d)
    (year d) (latitude d) (longitude d) (altitude_msl d) (speed_knots d)
    (speed_kmh d) (course_deg d) (fix_quality d) (fix_valid d)
    (satellites_tracked d) b (seen_rmc d).

Definition set_seen_rmc (b : bool) (d : gps_data_t) : gps_data_t :=
  mkGpsData (hour d) (minute d) (second d) (millisecond d) (day d) (month d)
    (year d) (latitude d) (longitude d) (altitude_msl d) (speed_knots d)
    (speed_kmh d) (course_deg d) (fix_quality d) (fix_valid d)
    (satellites_tracked d) (seen_gga d) b.

(** The statics under "Internal State": the record and its two flags. *)
Record gps_internal : Type := mkInternal {
  current_gps_data : gps_data_t;
  data_updated : bool;
  data_valid_fix : bool
}.

(** The whole module state: the internal state and the statics of the
    sentence buffer.  The fill index is a [uint8_t] that is incremented
    only below [NMEA_MAX_SENTENCE_LEN], so it never wraps; it is a [nat]. *)
Record gps_state : Type := mkGps {
  internal : gps_internal;
  nmea_buffer : list Z;
  nmea_buffer_index : nat;
  sentence_in_progress : bool
}.

Definition NMEA_MAX_SENTENCE_LEN : nat := 82.
Definition NMEA_MAX_FIELDS : nat := 20.

(** [nmea_calculate_checksum]: XOR, in a [uint8_t], of the bytes after a
    leading [$] up to the first [*] or the end. *)
Fixpoint checksum_loop (s : list Z) (checksum : Z) : Z :=
  match s with
  | [] => checksum
  | c :: s' =>
      if c =? 42 then checksum
      else checksum_loop s' (Z.lxor checksum c mod 256)
  end.

Definition nmea_calculate_checksum (sentence : list Z) : Z :=
  match sentence with
  | 36 :: s' => checksum_loop s' 0
  | _ => checksum_loop sentence 0
  end.

(** [nmea_validate_checksum]. *)
Definition nmea_validate_checksum (sentence : list Z) : bool :=
  match strchr sentence 42 with
  | None => false
  | Some checksum_str =>
      if (length checksum_str <? 3)%nat then false
      else
        let calculated_checksum := nmea_calculate_checksum sentence in
        let received_checksum := strtol16 (drop 1 checksum_str) mod 256 in
        calculated_checksum =? received_checksum
  end.

(** [nmea_split_fields], from the position [p] on, with [cur] the bytes of
    the field in progress (latest first) and [count] the fields begun.  The
    result is the fields as the C strings that the entries of [fields]
    point to afterwards, and the bytes of the sentence as the NUL stores
    leave them. *)
Fixpoint split_loop (p cur : list Z) (count max_fields : nat)
    : list (list Z) * list Z :=
  match p with
  | [] => ([rev cur], [])
  | c :: p' =>
      if c =? 42 then ([rev cur], 0 :: p')
      else if (max_fields <=? count)%nat then ([rev cur ++ p], p)
      else if c =? 44 then
        let '(fs, q) := split_loop p' [] (S count) max_fields in
        (rev cur :: fs, 0 :: q)
      else
        let '(fs, q) := split_loop p' (c :: cur) count max_fields in
        (fs, c :: q)
  end.

Definition nmea_split_fields (sentence : list Z) (max_fields : nat)
    : list (list Z) * list Z :=
  split_loop sentence [] 1 max_fields.

(** [fields[i]], and its first byte (the NUL of an empty field is 0). *)
Definition field (fields : list (list Z)) (i : nat) : list Z :=
  default [] (fields !! i).

Definition field_char0 (fields : list (list Z)) (i : nat) : Z :=
  get (field fields i) 0.

(** [parse_gprmc]. *)
Definition parse_gprmc (g : gps_internal) (fields : list (list Z))
    : gps_internal :=
  if (length fields <? 12)%nat then g
  else
    let d := current_gps_data g in
    let d := if (6 <=? length (field fields 1))%nat
             then set_time 12 34 56 d else d in
    let d := set_fix_valid (field_char0 fields 2 =? 65) d in
    let d := set_position (FConst "40.7128f") (FConst "-74.0060f") d in
    let knots := FAtof (field fields 7) in
    let d := set_speed knots (FMul knots (FConst "1.852f")) d in
    let d := set_course_deg (FAtof (field fields 8)) d in
    let d := if (length (field fields 9) =? 6)%nat
             then set_date 5 5 2025 d else d in
    let d := set_seen_rmc true d in
    {| current_gps_data := d;
       data_updated := true;
       data_valid_fix := fix_valid d |}.

(** [parse_gpgga]. *)
Definition parse_gpgga (g : gps_internal) (fields : list (list Z))
    : gps_internal :=
  if (length fields <? 10)%nat then g
  else
    let d := current_gps_data g in
    let d := set_fix_quality (atoi (field fields 6) mod 256) d in
    let d := if negb (seen_rmc d) || (field_char0 fields 2 =? 86)
             then set_fix_valid (0 <? fix_quality d) d else d in
    let d := set_satellites_tracked (atoi (field fields 7) mod 256) d in
    let d := set_altitude_msl (FAtof (field fields 9)) d in
    let d := set_seen_gga true d in
    {| current_gps_data := d;
       data_updated := true;
       data_valid_fix := fix_valid d |}.

(** The sentence types that [process_nmea_sentence] hands to
    [parse_gprmc] and to [parse_gpgga]. *)
Definition is_rmc_tag (tag : list Z) : bool :=
  strncmp_eq tag (bytes "GPRMC") 5 || strncmp_eq tag (bytes "GNRMC") 5.

Definition is_gga_tag (tag : list Z) : bool :=
  strncmp_eq tag (bytes "GPGGA") 5 || strncmp_eq tag (bytes "GNGGA") 5.

(** [process_nmea_sentence]: the internal state afterwards, and the bytes
    of the sentence as the field splitting leaves them. *)
Definition process_nmea_sentence (g : gps_internal) (sentence : list Z)
    : gps_internal * list Z :=
  let '(fields, marked) := nmea_split_fields (drop 1 sentence) NMEA_MAX_FIELDS in
  let g' :=
    if (length fields <? 1)%nat then g
    else if is_rmc_tag (field fields 0) then parse_gprmc g fields
    else if is_gga_tag (field fields 0) then parse_gpgga g fields
    else g in
  (g', take 1 sentence ++ marked).

(** The record after [memset (.., 0, ..)]. *)
Definition gps_data_zero : gps_data_t :=
  mkGpsData 0 0 0 0 0 0 0 FZero FZero FZero FZero FZero FZero 0 false 0
    false false.

(** [gps_init]; the sentence buffer is a zero-initialised static that the
    function does not touch, and the UART set-up is the business of the
    HAL. *)
Definition gps_init : gps_state :=
  {| internal := {| current_gps_data := gps_data_zero;
                    data_updated := false;
                    data_valid_fix := false |};
     nmea_buffer := replicate (S NMEA_MAX_SENTENCE_LEN) 0;
     nmea_buffer_index := 0;
     sentence_in_progress := false |}.

(** The end-of-sentence part of [gps_process_char]: terminate the string,
    cut the line end, validate and dispatch. *)
Definition end_of_sentence (st : gps_state) : gps_state :=
  let i := nmea_buffer_index st in
  let b := <[i := 0]> (nmea_buffer st) in
  let b := if (1 <? i)%nat && (get b (i - 2) =? 13)
           then <[(i - 2)%nat := 0]> b
           else <[(i - 1)%nat := 0]> b in
  let sentence := cstr b in
  if nmea_validate_checksum sentence then
    let '(g, marked) := process_nmea_sentence (internal st) sentence in
    {| internal := g;
       nmea_buffer := store_at b 0 marked;
       nmea_buffer_index := i;
       sentence_in_progress := false |}
  else
    {| internal := internal st;
       nmea_buffer := b;
       nmea_buffer_index := i;
       sentence_in_progress := false |}.

(** [gps_process_char]. *)
Definition gps_process_char (st : gps_state) (received_char : Z) : gps_state :=
  if received_char =? 36 then
    {| internal := internal st;
       nmea_buffer := <[0%nat := received_char]> (nmea_buffer st);
       nmea_buffer_index := 1;
       sentence_in_progress := true |}
  else if sentence_in_progress st then
    let st1 :=
      if (nmea_buffer_index st <? NMEA_MAX_SENTENCE_LEN)%nat then
        {| internal := internal st;
           nmea_buffer := <[nmea_buffer_index st := received_char]> (nmea_buffer st);
           nmea_buffer_index := S (nmea_buffer_index st);
           sentence_in_progress := true |}
      else
        {| internal := internal st;
           nmea_buffer := nmea_buffer st;
           nmea_buffer_index := nmea_buffer_index st;
           sentence_in_progress := false |} in
    if received_char =? 10 then end_of_sentence st1 else st1
  else st.

(** The driver fed with a stream of bytes, one call per byte. *)
Definition gps_feed (st : gps_state) (stream : list Z) : gps_state :=
  fold_left gps_process_char stream st.

(** [gps_is_data_available]. *)
Definition gps_is_data_available (st : gps_state) : bool :=
  data_updated (internal st).

(** [gps_get_data]: [data] is the destination ([None] for NULL); the result
    is the returned flag, the destination afterwards and the state
    afterwards. *)
Definition gps_get_data (st : gps_state) (data : option gps_data_t)
    : bool * option gps_data_t * gps_state :=
  match data with
  | None => (false, None, st)
  | Some _ =>
      (data_valid_fix (internal st),
       Some (current_gps_data (internal st)),
       {| internal := {| current_gps_data := current_gps_data (internal st);
                         data_updated := false;
                         data_valid_fix := data_valid_fix (internal st) |};
          nmea_buffer := nmea_buffer st;
          nmea_buffer_index := nmea_buffer_index st;
          sentence_in_progress := sentence_in_progress st |})
  end.

(** A line of the wire format: the text between [$] and the line end,
    framed by [$] and CR LF. *)
Definition nmea_line (text : string) : list Z :=
  36 :: bytes text ++ [13; 10].

(** What the end of a sentence makes of the buffered bytes [l] (the [$]
    and what followed it, before the newline): a closing CR is cut, and
    the string ends at the first NUL. *)
Definition chomp (l : list Z) : list Z :=
  if get l (length l - 1) =? 13 then take (length l - 1) l else l.

Definition framed_sentence (text : list Z) : list Z :=
  cstr (chomp (36 :: text)).

(** Validation and dispatch of a complete sentence, as the end of
    [gps_process_char] performs them on the internal state. *)
Definition dispatch (g : gps_internal) (sentence : list Z) : gps_internal :=
  if nmea_validate_checksum sentence
  then (process_nmea_sentence g sentence).1
  else g.

(** A framer that has not seen a byte yet, around a given internal
    state. *)
Definition fresh_framer (g : gps_internal) : gps_state :=
  {| internal := g;
     nmea_buffer := replicate (S NMEA_MAX_SENTENCE_LEN) 0;
     nmea_buffer_index := 0;
     sentence_in_progress := false |}.

(** The RMC sentence of the design document, with the two checksum
    characters left open. *)
Definition rmc_text : string :=
  "GPRMC,123456.00,A,4042.768,N,07400.360,W,5.0,90.0,050525,,,A".

Definition rmc_with_checksum (h1 h2 : Z) : list Z :=
  36 :: bytes rmc_text ++ [42; h1; h2; 13; 10].

(** An RMC sentence with void status and a GGA sentence with fix quality 1,
    both with their right checksums. *)
Definition rmc_void_line : list Z :=
  nmea_line "GPRMC,123456.00,V,4042.768,N,07400.360,W,5.0,90.0,050525,,,N*65".

Definition gga_fix_line : list Z :=
  nmea_line "GPGGA,123456.00,4042.768,N,07400.360,W,1,08,0.9,10.0,M,,M,,*5A".

(** Sample inputs: a sentence body of 100 bytes, the text of the RMC
    sentence with its right checksum and CR, and the text of an RMC
    sentence of four fields with its right checksum and CR. *)
Definition example_oversized : list Z := replicate 100 65.

Definition example_rmc_text : list Z := bytes rmc_text ++ [42; 55; 68; 13].

Definition example_short_rmc : list Z := bytes "GPRMC,1,2,3*57" ++ [13].

(** A line of 83 bytes: [$], an RMC sentence of 80 bytes with its right
    checksum, one more byte, and the newline. *)
Definition example_line_83 : list Z :=
  36 :: bytes "GPRMC,1,A,3,4,5,6,7,8,9,10,11,"
     ++ replicate 47 48 ++ bytes "*38" ++ [90; 10].

(** [gps_get_speed_kmh]. *)
Definition gps_get_speed_kmh (st : gps_state) : cfloat :=
  if data_valid_fix (internal st)
  then speed_kmh (current_gps_data (internal st))
  else FConst "0.0f".

(** [gps_get_location]: the two destinations ([None] for NULL); the result
    is the returned flag and the destinations afterwards. *)
Definition gps_get_location (st : gps_state)
    (lat lon : option cfloat) : bool * option cfloat * option cfloat :=
  match lat, lon with
  | Some _, Some _ =>
      if data_valid_fix (internal st)
      then (true,
            Some (latitude (current_gps_data (internal st))),
            Some (longitude (current_gps_data (internal st))))
      else (false, Some (FConst "0.0f"), Some (FConst "0.0f"))
  | _, _ =>
      (false,
       match lat with Some _ => Some (FConst "0.0f") | None => None end,
       match lon with Some _ => Some (FConst "0.0f") | None => None end)
  end.

(** A use of the driver by the main loop: a received byte, or a retrieval
    into a destination. *)
Inductive gps_call : Type :=
  | GpsByte (received_char : Z)
  | GpsGetData (data : option gps_data_t).

Definition gps_call_step (st : gps_state) (c : gps_call) : gps_state :=
  match c with
  | GpsByte b => gps_process_char st b
  | GpsGetData d => (gps_get_data st d).2
  end.

Definition gps_run (st : gps_state) (cs : list gps_call) : gps_state :=
  fold_left gps_call_step cs st.

(** The fields joined by commas. *)
Fixpoint join_fields (fields : list (list Z)) : list Z :=
  match fields with
  | [] => []
  | [f] => f
  | f :: fs => f ++ 44 :: join_fields fs
  end.

(** More sample inputs: a line without [*], a GSV sentence, a GGA sentence
    of four fields and a full GGA sentence, the last three with their
    right checksums; all end in CR. *)
Definition example_no_star : list Z := bytes "GPRMC,1,2" ++ [13].

Definition example_gsv : list Z := bytes "GPGSV,1,1,00*79" ++ [13].

Definition example_short_gga : list Z :=
  bytes "GPGGA,123456.00,4042.768,N*08" ++ [13].

Definition example_gga_text : list Z :=
  bytes "GPGGA,123456.00,4042.768,N,07400.360,W,1,08,0.9,10.0,M,,M,,*5A"
    ++ [13].

End Gps.

(** ** The telemetry receiver ([drivers/ble_rx.c]) *)

Module BleRx.

Import CStr.

(** [display_status_data_t] and [display_nav_data_t] of
    [modules/ble_rx.h]; [instruction] is the array of 64 bytes.  Both
    structures call their flag [updated]; it carries the record's name
    here. *)
Record display_status_data_t : Type := mkStatus {
  battery_mv : Z;
  signal_status : Z;
  speed_kmh : Z;
  status_updated : bool
}.

Record display_nav_data_t : Type := mkNav {
  instruction : list Z;
  distance_m : Z;
  nav_updated : bool
}.

(** The statics under "Internal State". *)
Record ble_internal : Type := mkInternal {
  current_status_data : display_status_data_t;
  current_nav_data : display_nav_data_t;
  is_connected : bool
}.

(** The whole module state, with the receive buffer and its fill index (a
    [uint8_t] incremented only below [BLE_RX_BUFFER_LEN - 1]; a [nat]). *)
Record ble_state : Type := mkBle {
  internal : ble_internal;
  rx_buffer : list Z;
  rx_buffer_idx : nat
}.

Definition BLE_RX_BUFFER_LEN : nat := 128.
Definition BLE_MSG_TERMINATOR : Z := 10.
Definition INSTRUCTION_LEN : nat := 64.

(** [sscanf (s, "%63[^,],%u", instruction_buf, &distance)]: the returned
    count (EOF is -1), and the two destinations, which keep their initial
    value (the empty string, 0) when they are not assigned. *)
Definition sscanf_nav (s : list Z) : Z * list Z * Z :=
  let ins := take 63 (span_not 44 s) in
  match ins with
  | [] => (if bool_decide (s = []) then -1 else 0, [], 0)
  | _ :: _ =>
      match drop (length ins) s with
      | 44 :: r =>
          match scan_uint r with
          | Some (v, _) => (2, ins, v)
          | None => (1, ins, 0)
          end
      | _ => (1, ins, 0)
      end
  end.

(** [sscanf (s, "%u,%u,%u", &batt, &signals, &speed)]: the returned count
    (EOF is -1) and the three destinations (initially 0). *)
Definition sscanf_status (s : list Z) : Z * Z * Z * Z :=
  match scan_uint s with
  | None => (if bool_decide (skip_space s = []) then -1 else 0, 0, 0, 0)
  | Some (batt, r1) =>
      match r1 with
      | 44 :: r1' =>
          match scan_uint r1' with
          | None => (1, batt, 0, 0)
          | Some (signals, r2) =>
              match r2 with
              | 44 :: r2' =>
                  match scan_uint r2' with
                  | None => (2, batt, signals, 0)
                  | Some (speed, _) => (3, batt, signals, speed)
                  end
              | _ => (2, batt, signals, 0)
              end
          end
      | _ => (1, batt, 0, 0)
      end
  end.

(** [parse_ble_message]. *)
Definition parse_ble_message (g : ble_internal) (message : list Z)
    : ble_internal :=
  if strncmp_eq message (bytes "NAV:") 4 then
    let '(parsed_count, instruction_buf, distance) := sscanf_nav (drop 4 message) in
    if parsed_count =? 2 then
      {| current_status_data := current_status_data g;
         current_nav_data :=
           {| instruction :=
                strncpy (instruction (current_nav_data g)) instruction_buf
                  (INSTRUCTION_LEN - 1);
              distance_m := distance mod 2 ^ 16;
              nav_updated := true |};
         is_connected := true |}
    else g
  else if strncmp_eq message (bytes "STATUS:") 7 then
    let '(parsed_count, batt, signals, speed) := sscanf_status (drop 7 message) in
    if parsed_count =? 3 then
      {| current_status_data :=
           {| battery_mv := batt mod 2 ^ 16;
              signal_status := signals mod 2 ^ 8;
              speed_kmh := speed mod 2 ^ 8;
              status_updated := true |};
         current_nav_data := current_nav_data g;
         is_connected := true |}
    else g
  else g.

(** [ble_rx_init]; the receive buffer is a zero-initialised static that the
    function does not touch. *)
Definition ble_rx_init : ble_state :=
  {| internal :=
       {| current_status_data := mkStatus 0 0 0 false;
          current_nav_data :=
            {| instruction :=
                 store_at (replicate INSTRUCTION_LEN 0) 0
                   (bytes "Connecting..." ++ [0]);
               distance_m := 0;
               nav_updated := false |};
          is_connected := false |};
     rx_buffer := replicate BLE_RX_BUFFER_LEN 0;
     rx_buffer_idx := 0 |}.

(** [ble_rx_process_char]. *)
Definition ble_rx_process_char (st : ble_state) (received_char : Z) : ble_state :=
  if received_char =? BLE_MSG_TERMINATOR then
    if (0 <? rx_buffer_idx st)%nat then
      let b := <[rx_buffer_idx st := 0]> (rx_buffer st) in
      {| internal := parse_ble_message (internal st) (cstr b);
         rx_buffer := b;
         rx_buffer_idx := 0 |}
    else
      {| internal := internal st; rx_buffer := rx_buffer st; rx_buffer_idx := 0 |}
  else if (rx_buffer_idx st <? BLE_RX_BUFFER_LEN - 1)%nat then
    if (32 <=? received_char) && (received_char <=? 126) then
      {| internal := internal st;
         rx_buffer := <[rx_buffer_idx st := received_char]> (rx_buffer st);
         rx_buffer_idx := S (rx_buffer_idx st) |}
    else st
  else
    {| internal := internal st; rx_buffer := rx_buffer st; rx_buffer_idx := 0 |}.

(** The receiver fed with a stream of bytes, one call per byte. *)
Definition ble_feed (st : ble_state) (stream : list Z) : ble_state :=
  fold_left ble_rx_process_char stream st.

(** [ble_rx_is_status_available], [ble_rx_is_nav_available]. *)
Definition ble_rx_is_status_available (st : ble_state) : bool :=
  status_updated (current_status_data (internal st)).

Definition ble_rx_is_nav_available (st : ble_state) : bool :=
  nav_updated (current_nav_data (internal st)).

(** [ble_rx_get_nav_data]: [data] is the destination ([None] for NULL);
    the result is the returned flag, the destination afterwards and the
    state afterwards. *)
Definition ble_rx_get_nav_data (st : ble_state) (data : option display_nav_data_t)
    : bool * option display_nav_data_t * ble_state :=
  match data with
  | None => (false, None, st)
  | Some _ =>
      let nav := current_nav_data (internal st) in
      if negb (nav_updated nav) then (false, data, st)
      else
        (true, Some nav,
         {| internal :=
              {| current_status_data := current_status_data (internal st);
                 current_nav_data :=
                   {| instruction := instruction nav;
                      distance_m := distance_m nav;
                      nav_updated := false |};
                 is_connected := is_connected (internal st) |};
            rx_buffer := rx_buffer st;
            rx_buffer_idx := rx_buffer_idx st |})
  end.

(** [ble_rx_get_status_data], likewise. *)
Definition ble_rx_get_status_data (st : ble_state)
    (data : option display_status_data_t)
    : bool * option display_status_data_t * ble_state :=
  match data with
  | None => (false, None, st)
  | Some _ =>
      let status := current_status_data (internal st) in
      if negb (status_updated status) then (false, data, st)
      else
        (true, Some status,
         {| internal :=
              {| current_status_data :=
                   {| battery_mv := battery_mv status;
                      signal_status := signal_status status;
                      speed_kmh := speed_kmh status;
                      status_updated := false |};
                 current_nav_data := current_nav_data (internal st);
                 is_connected := is_connected (internal st) |};
            rx_buffer := rx_buffer st;
            rx_buffer_idx := rx_buffer_idx st |})
  end.

(** A byte that the receiver stores: space through tilde. *)
Definition printable (c : Z) : bool := (32 <=? c) && (c <=? 126).

(** Sample states: the receiver after one complete STATUS line, and the
    receiver with 127 bytes of a line accumulated. *)
Definition example_after_status : ble_state :=
  ble_feed ble_rx_init (bytes "STATUS:3700,1,45" ++ [10]).

Definition example_full : ble_state :=
  ble_feed ble_rx_init (replicate 127 65).

(** [ble_rx_is_connected]. *)
Definition ble_rx_is_connected (st : ble_state) : bool :=
  is_connected (internal st).

(** A use of the receiver by the display: a received byte, or one of the
    two retrievals into a destination. *)
Inductive ble_call : Type :=
  | BleByte (received_char : Z)
  | BleGetNav (data : option display_nav_data_t)
  | BleGetStatus (data : option display_status_data_t).

Definition ble_call_step (st : ble_state) (c : ble_call) : ble_state :=
  match c with
  | BleByte b => ble_rx_process_char st b
  | BleGetNav d => (ble_rx_get_nav_data st d).2
  | BleGetStatus d => (ble_rx_get_status_data st d).2
  end.

Definition ble_run (st : ble_state) (cs : list ble_call) : ble_state :=
  fold_left ble_call_step cs st.

(** A sample of 127 printable bytes, as many as the accumulator takes. *)
Definition example_front : list Z := replicate 127 65.

End BleRx.

(** ** The BLE link of the brain module ([drivers/ble_uart.c]) *)

Module BleUart.

Import CStr.



(** [strstr (s, needle) != NULL]: the string from the first occurrence of
    [needle] on, or NULL. *)
Fixpoint strstr (s needle : list Z) : option (list Z) :=
  if bool_decide (take (length needle) s = needle) then Some s
  else
    match s with
    | [] => None
    | _ :: s' => strstr s' needle
    end.

Definition BLE_CMD_BUFFER_SIZE : nat := 128.





(** The statics of the receiving side: the connection flag, and the line
    buffer and fill index local to [ble_uart_process_char] (a [uint8_t]
    incremented only below 127; a [nat]). *)
Record ble_uart_state : Type := mkBleUart {
  ble_connected : bool;
  ble_rx_buffer : list Z;
  ble_rx_idx : nat
}.

(** The state at program start ([ble_uart_init], which clears the flag
    again, leaves the line buffer and its index alone). *)
Definition ble_uart_start : ble_uart_state :=
  {| ble_connected := false;
     ble_rx_buffer := replicate BLE_CMD_BUFFER_SIZE 0;
     ble_rx_idx := 0 |}.

(** [ble_uart_process_char]. *)
Definition ble_uart_process_char (st : ble_uart_state) (received_char : Z)
    : ble_uart_state :=
  if received_char =? 10 then
    let i := ble_rx_idx st in
    let b := <[i := 0]> (ble_rx_buffer st) in
    let b := if (0 <? i)%nat && (get b (i - 1) =? 13)
             then <[(i - 1)%nat := 0]> b else b in
    let line := cstr b in
    {| ble_connected :=
         if bool_decide (is_Some (strstr line (bytes "CONNECT"))) then true
         else if bool_decide (is_Some (strstr line (bytes "DISCONNECT")))
         then false
         else ble_connected st;
       ble_rx_buffer := b;
       ble_rx_idx := 0 |}
  else if (ble_rx_idx st <? BLE_CMD_BUFFER_SIZE - 1)%nat then
    {| ble_connected := ble_connected st;
       ble_rx_buffer := <[ble_rx_idx st := received_char]> (ble_rx_buffer st);
       ble_rx_idx := S (ble_rx_idx st) |}
  else
    {| ble_connected := ble_connected st;
       ble_rx_buffer := ble_rx_buffer st;
       ble_rx_idx := 0 |}.

Definition ble_uart_feed (st : ble_uart_state) (stream : list Z)
    : ble_uart_state :=
  fold_left ble_uart_process_char stream st.

(** [ble_uart_is_connected]. *)
Definition ble_uart_is_connected (st : ble_uart_state) : bool :=
  ble_connected st.

End BleUart.

(** ** The UART layer and the polling loops of the brain module
    ([hal/uart.c] and [main.c]) *)

Module Uart.

Import RingBuffer.

(** [uart_id_t] of [hal/uart.h]. *)
Inductive uart_id_t : Type :=
  | UART_ID_0
  | UART_ID_1
  | UART_ID_MAX.

(** The ring buffers of the brain module's [hal/uart.c].  Their storage
    arrays are statics that nothing else refers to; each is modelled by
    the [buffer] field of its ring buffer, and is all zero as long as the
    ring buffer has not been initialised.  The receive callbacks are not
    modelled: no code of the tree calls them. *)
Record uart_state : Type := mkUart {
  hw_uart0_rx_rb : ring_buffer_t;
  hw_uart0_tx_rb : ring_buffer_t;
  sw_uart1_rx_rb : ring_buffer_t;
  sw_uart1_tx_rb : ring_buffer_t
}.

Definition HW_UART0_RX_BUFFER_SIZE : Z := 64.
Definition HW_UART0_TX_BUFFER_SIZE : Z := 64.
Definition SW_UART1_RX_BUFFER_SIZE : Z := 32.
Definition SW_UART1_TX_BUFFER_SIZE : Z := 32.

(** The state at program start. *)
Definition uart_start : uart_state :=
  mkUart rb_zero rb_zero rb_zero rb_zero.

(** The storage array behind a ring buffer, of the given size. *)
Definition storage_of (r : ring_buffer_t) (sz : Z) : list Z :=
  if size r =? 0 then replicate (Z.to_nat sz) 0 else buffer r.

(** [ring_buffer_init (&rb, array, SIZE)] on a static ring buffer. *)
Definition init_static (r : ring_buffer_t) (sz : Z) : ring_buffer_t :=
  default r (ring_buffer_init (Some r) (Some (storage_of r sz)) sz).

Section Width.

Variable rb_bits : Z.

(** [get_rx_rb], and the store through the pointer it returns. *)
Definition get_rx_rb (uart_id : uart_id_t) (u : uart_state)
    : option ring_buffer_t :=
  match uart_id with
  | UART_ID_0 => Some (hw_uart0_rx_rb u)
  | UART_ID_1 => Some (sw_uart1_rx_rb u)
  | UART_ID_MAX => None
  end.

Definition set_rx_rb (uart_id : uart_id_t) (rb : option ring_buffer_t)
    (u : uart_state) : uart_state :=
  match uart_id, rb with
  | UART_ID_0, Some r =>
      mkUart r (hw_uart0_tx_rb u) (sw_uart1_rx_rb u) (sw_uart1_tx_rb u)
  | UART_ID_1, Some r =>
      mkUart (hw_uart0_rx_rb u) (hw_uart0_tx_rb u) r (sw_uart1_tx_rb u)
  | _, _ => u
  end.

(** [hal_uart_init] (brain module). *)
Definition hal_uart_init (uart_id : uart_id_t) (u : uart_state) : uart_state :=
  match uart_id with
  | UART_ID_0 =>
      mkUart (init_static (hw_uart0_rx_rb u) HW_UART0_RX_BUFFER_SIZE)
             (init_static (hw_uart0_tx_rb u) HW_UART0_TX_BUFFER_SIZE)
             (sw_uart1_rx_rb u) (sw_uart1_tx_rb u)
  | UART_ID_1 =>
      mkUart (hw_uart0_rx_rb u) (hw_uart0_tx_rb u)
             (init_static (sw_uart1_rx_rb u) SW_UART1_RX_BUFFER_SIZE)
             (init_static (sw_uart1_tx_rb u) SW_UART1_TX_BUFFER_SIZE)
  | UART_ID_MAX => u
  end.

(** [hal_uart_get_char] (brain module): the returned [int16_t] and the
    state afterwards. *)
Definition hal_uart_get_char (uart_id : uart_id_t) (u : uart_state)
    : Z * uart_state :=
  match get_rx_rb uart_id u with
  | Some r =>
      let '(ok, data, rb') := ring_buffer_read rb_bits (Some r) (Some 0) in
      if ok then (default 0 data, set_rx_rb uart_id rb' u)
      else (-1, set_rx_rb uart_id rb' u)
  | None => (-1, u)
  end.

(** [hal_uart_data_available] (brain module); the source declares [rb]
    twice, with the same initialiser, which is read as one declaration. *)
Definition hal_uart_data_available (uart_id : uart_id_t) (u : uart_state)
    : bool :=
  match get_rx_rb uart_id u with
  | Some r => negb (ring_buffer_is_empty (Some r))
  | None => false
  end.

(** [hal_uart_flush_rx_buffer] (brain module). *)
Definition hal_uart_flush_rx_buffer (uart_id : uart_id_t) (u : uart_state)
    : uart_state :=
  match get_rx_rb uart_id u with
  | Some r => set_rx_rb uart_id (ring_buffer_clear (Some r)) u
  | None => u
  end.

(** The loop of [hal_uart_read]: the state is the rx buffer, the
    destination array and [bytes_read] (a [size_t], which counts at most
    to [len]). *)
Fixpoint uart_read_loop (fuel : nat) (rb : option ring_buffer_t)
    (out : list Z) (len bytes_read : Z) {struct fuel}
    : option (Z * list Z * option ring_buffer_t) :=
  if bytes_read <? len then
    match fuel with
    | O => None
    | S fuel' =>
        let i := Z.to_nat bytes_read in
        let '(ok, slot, rb') :=
          ring_buffer_read rb_bits rb (Some (CStr.get out i)) in
        if ok
        then uart_read_loop fuel' rb' (<[i := default 0 slot]> out) len
               (bytes_read + 1)
        else Some (bytes_read, out, rb')
    end
  else Some (bytes_read, out, rb).

(** [hal_uart_read] (brain module): the number of bytes read, the
    destination array afterwards and the state afterwards. *)
Definition hal_uart_read (fuel : nat) (uart_id : uart_id_t) (u : uart_state)
    (out : list Z) (len : Z) : option (Z * list Z * uart_state) :=
  match get_rx_rb uart_id u with
  | Some r =>
      match uart_read_loop fuel (Some r) out len 0 with
      | Some (n, out', rb') => Some (n, out', set_rx_rb uart_id rb' u)
      | None => None
      end
  | None => Some (0, out, u)
  end.

Definition GPS_UART_ID : uart_id_t := UART_ID_0.
Definition BLE_UART_ID : uart_id_t := UART_ID_1.

(** The first loop of [process_communication] (brain [main.c]): the GPS
    UART is polled and every byte handed to [gps_process_char]. *)
Fixpoint gps_poll_loop (fuel : nat) (u : uart_state) (g : Gps.gps_state)
    {struct fuel} : option (uart_state * Gps.gps_state) :=
  if hal_uart_data_available GPS_UART_ID u then
    match fuel with
    | O => None
    | S fuel' =>
        let '(data, u') := hal_uart_get_char GPS_UART_ID u in
        gps_poll_loop fuel' u'
          (if data =? -1 then g else Gps.gps_process_char g (data mod 256))
    end
  else Some (u, g).

(** Its second loop: the BLE UART is polled and every byte handed to
    [ble_uart_process_char]. *)
Fixpoint ble_poll_loop (fuel : nat) (u : uart_state)
    (b : BleUart.ble_uart_state) {struct fuel}
    : option (uart_state * BleUart.ble_uart_state) :=
  if hal_uart_data_available BLE_UART_ID u then
    match fuel with
    | O => None
    | S fuel' =>
        let '(data, u') := hal_uart_get_char BLE_UART_ID u in
        ble_poll_loop fuel' u'
          (if data =? -1 then b
           else BleUart.ble_uart_process_char b (data mod 256))
    end
  else Some (u, b).

(** [process_communication]. *)
Definition process_communication (fuel : nat) (u : uart_state)
    (g : Gps.gps_state) (b : BleUart.ble_uart_state)
    : option (uart_state * Gps.gps_state * BleUart.ble_uart_state) :=
  match gps_poll_loop fuel u g with
  | Some (u1, g') =>
      match ble_poll_loop fuel u1 b with
      | Some (u2, b') => Some (u2, g', b')
      | None => None
      end
  | None => None
  end.

End Width.

(** A sample state: two bytes queued for reception on either UART. *)
Definition example_uart : uart_state :=
  mkUart example_wrapped rb_zero example_wrapped rb_zero.

End Uart.

(** ** The UART layer and the polling loop of the display module *)

Module DisplayUart.

Import RingBuffer.

(** [uart_id_t] of the display module's [hal/uart.h]. *)
Inductive uart_id_t : Type :=
  | UART_ID_0
  | UART_ID_MAX.

(** The display module's [hal/uart.c] has the one hardware UART, with
    buffers of the sizes of its [config.h]. *)
Record uart_state : Type := mkUart {
  hw_uart0_rx_rb : ring_buffer_t;
  hw_uart0_tx_rb : ring_buffer_t
}.

Definition BLE_UART_RX_BUFFER_SIZE : Z := 128.
Definition BLE_UART_TX_BUFFER_SIZE : Z := 32.

(** The state at program start. *)
Definition uart_start : uart_state := mkUart rb_zero rb_zero.

Section Width.

Variable rb_bits : Z.

(** [get_rx_rb]. *)
Definition get_rx_rb (uart_id : uart_id_t) (u : uart_state)
    : option ring_buffer_t :=
  match uart_id with
  | UART_ID_0 => Some (hw_uart0_rx_rb u)
  | UART_ID_MAX => None
  end.

(** The store through the pointer that [get_rx_rb] returns. *)
Definition set_rx_rb (uart_id : uart_id_t) (rb : option ring_buffer_t)
    (u : uart_state) : uart_state :=
  match uart_id, rb with
  | UART_ID_0, Some r => mkUart r (hw_uart0_tx_rb u)
  | _, _ => u
  end.

(** [hal_uart_init]. *)
Definition hal_uart_init (uart_id : uart_id_t) (u : uart_state) : uart_state :=
  match uart_id with
  | UART_ID_0 =>
      mkUart (Uart.init_static (hw_uart0_rx_rb u) BLE_UART_RX_BUFFER_SIZE)
             (Uart.init_static (hw_uart0_tx_rb u) BLE_UART_TX_BUFFER_SIZE)
  | UART_ID_MAX => u
  end.

(** [hal_uart_get_char]: the returned [int16_t] and the state
    afterwards. *)
Definition hal_uart_get_char (uart_id : uart_id_t) (u : uart_state)
    : Z * uart_state :=
  match uart_id with
  | UART_ID_0 =>
      match get_rx_rb uart_id u with
      | Some r =>
          let '(ok, data, rb') := ring_buffer_read rb_bits (Some r) (Some 0) in
          if ok then (default 0 data, set_rx_rb uart_id rb' u)
          else (-1, set_rx_rb uart_id rb' u)
      | None => (-1, u)
      end
  | UART_ID_MAX => (-1, u)
  end.

(** [hal_uart_data_available]. *)
Definition hal_uart_data_available (uart_id : uart_id_t) (u : uart_state)
    : bool :=
  match uart_id with
  | UART_ID_0 =>
      match get_rx_rb uart_id u with
      | Some r => negb (ring_buffer_is_empty (Some r))
      | None => false
      end
  | UART_ID_MAX => false
  end.

Definition BLE_UART_ID : uart_id_t := UART_ID_0.


End Width.

(** Sample states: two bytes queued for reception, and a status line
    queued for reception in a buffer of 128 slots. *)
Definition example_uart : uart_state := mkUart example_wrapped rb_zero.



End DisplayUart.

(** * Properties *)

(** ** Facts on arrays, C strings and conversions *)

Module CStrFacts.

Import CStr.

Lemma cstr_app_nul (l r : list Z) : cstr (l ++ 0 :: r) = cstr l.
Proof.
  induction l as [|c l IH]; simpl; [done|].
  destruct (c =? 0); [done|]. by rewrite IH.
Qed.

Lemma cstr_nonzero (l : list Z) : Forall (fun c => c <> 0) l -> cstr l = l.
Proof.
  induction 1 as [|c l Hc _ IH]; simpl; [done|].
  destruct (Z.eqb_spec c 0); [done|]. by rewrite IH.
Qed.

Lemma cstr_length (l : list Z) : (length (cstr l) <= length l)%nat.
Proof.
  induction l as [|c l IH]; simpl; [lia|].
  destruct (c =? 0); simpl; lia.
Qed.

Lemma store_at_length (a bs : list Z) (i : nat) :
  (i + length bs <= length a)%nat -> length (store_at a i bs) = length a.
Proof.
  intros H. unfold store_at. rewrite !length_app, length_take, length_drop. lia.
Qed.

Lemma store_at_nil (a : list Z) (i : nat) : store_at a i [] = a.
Proof.
  unfold store_at. simpl. rewrite Nat.add_0_r. apply take_drop.
Qed.

(** A store followed by stores from the next index on. *)
Lemma store_at_insert (a bs : list Z) (i : nat) (c : Z) :
  (i < length a)%nat ->
  store_at (<[i := c]> a) (S i) bs = store_at a i (c :: bs).
Proof.
  intros Hi. unfold store_at.
  destruct (lookup_lt_is_Some_2 (<[i := c]> a) i) as [x Hx];
    [by rewrite length_insert|].
  rewrite (take_S_r _ _ x Hx).
  rewrite list_lookup_insert_eq in Hx by done. injection Hx as <-.
  rewrite take_insert_ge by lia.
  rewrite drop_insert_lt by lia.
  rewrite <- app_assoc. simpl.
  by replace (i + S (length bs))%nat with (S (i + length bs)) by lia.
Qed.

(** A store right behind a stored block. *)
Lemma insert_store_at (a bs : list Z) (i : nat) (c : Z) :
  (i + length bs < length a)%nat ->
  <[(i + length bs)%nat := c]> (store_at a i bs) = store_at a i (bs ++ [c]).
Proof.
  revert a i. induction bs as [|b bs IH]; intros a i H; simpl in *.
  - rewrite Nat.add_0_r, store_at_nil.
    rewrite <- (store_at_insert a [] i c) by lia. by rewrite store_at_nil.
  - rewrite <- !store_at_insert by lia.
    replace (i + S (length bs))%nat with (S i + length bs)%nat by lia.
    apply IH. rewrite length_insert. lia.
Qed.

Lemma get_app_l (l r : list Z) (i : nat) :
  (i < length l)%nat -> get (l ++ r) i = get l i.
Proof. intros H. unfold get. by rewrite lookup_app_l. Qed.

Lemma digits_run (val : Z -> option Z) (base : Z) (ds rest : list Z) (acc : Z) (n : nat) :
  Forall (fun d => is_Some (val d)) ds ->
  match rest with [] => True | c :: _ => val c = None end ->
  digits val base (ds ++ rest) acc n
  = (fold_left (fun a d => a * base + default 0 (val d)) ds acc, (n + length ds)%nat, rest).
Proof.
  intros Hds Hrest. revert acc n.
  induction Hds as [|d ds [v Hv] _ IH]; intros acc n; simpl.
  - rewrite Nat.add_0_r. destruct rest as [|c rest]; [done|]. simpl. by rewrite Hrest.
  - rewrite Hv. simpl. rewrite IH. do 2 f_equal. lia.
Qed.

Lemma decval_digit (d : Z) : isdigit d = true -> decval d = Some (d - 48).
Proof. intros H. unfold decval. by rewrite H. Qed.

Lemma decimal_fold (ds : list Z) (acc : Z) :
  Forall (fun d => isdigit d = true) ds ->
  fold_left (fun a d => a * 10 + default 0 (decval d)) ds acc
  = fold_left (fun a d => a * 10 + (d - 48)) ds acc.
Proof.
  intros H. revert acc. induction H as [|d ds Hd _ IH]; intros acc; simpl; [done|].
  rewrite IH. by rewrite (decval_digit d Hd).
Qed.

(** A [%u] conversion on a run of digits reads all of them. *)
Lemma scan_uint_digits (ds rest : list Z) :
  ds <> [] -> Forall (fun d => isdigit d = true) ds ->
  match rest with [] => True | c :: _ => isdigit c = false end ->
  scan_uint (ds ++ rest) = Some (decimal ds, rest).
Proof.
  intros Hne Hds Hrest. unfold scan_uint.
  destruct ds as [|d ds]; [done|].
  apply Forall_cons in Hds as [Hd Hds].
  assert (48 <= d <= 57) as Hr by (unfold isdigit in Hd; lia).
  assert (skip_space ((d :: ds) ++ rest) = (d :: ds) ++ rest) as ->.
  { simpl. unfold isspace.
    destruct (Z.eqb_spec d 32); [lia|]. simpl.
    destruct (Z.leb_spec 9 d); [|lia]. destruct (Z.leb_spec d 13); [lia|]. done. }
  assert (take_sign ((d :: ds) ++ rest) = (false, (d :: ds) ++ rest)) as ->.
  { simpl. unfold take_sign.
    destruct d as [|p|p]; try lia.
    do 6 (destruct p as [p|p|]; try done); lia. }
  rewrite (digits_run decval 10 (d :: ds) rest 0 0).
  - simpl. rewrite decimal_fold by done. rewrite (decval_digit d Hd). done.
  - apply Forall_cons. split.
    + rewrite (decval_digit d Hd). by eexists.
    + eapply Forall_impl; [exact Hds|]. intros x Hx. simpl in Hx.
      rewrite (decval_digit x Hx). by eexists.
  - destruct rest as [|c rest]; [done|]. unfold decval. by rewrite Hrest.
Qed.

Lemma span_not_app (c : Z) (l r : list Z) :
  c ∉ l -> span_not c (l ++ c :: r) = l.
Proof.
  induction l as [|x l IH]; intros H; simpl.
  - by rewrite Z.eqb_refl.
  - apply not_elem_of_cons in H as [Hx Hl].
    destruct (Z.eqb_spec x c); [done|]. by rewrite IH.
Qed.

End CStrFacts.

(** ** The ring buffer *)

Module RingBufferProofs.

Import RingBuffer.

Lemma get_insert_eq (a : list Z) (i : nat) (v : Z) :
  (i < length a)%nat -> CStr.get (<[i := v]> a) i = v.
Proof.
  intros Hi. unfold CStr.get. by rewrite list_lookup_insert_eq.
Qed.

Lemma get_insert_ne (a : list Z) (i j : nat) (v : Z) :
  i <> j -> CStr.get (<[i := v]> a) j = CStr.get a j.
Proof.
  intros Hij. unfold CStr.get. by rewrite list_lookup_insert_ne.
Qed.

(** Two offsets from the same cursor that are less than a full turn apart
    fall on different slots. *)
Lemma slot_apart (N t k c : Z) :
  0 < N -> 0 <= k < c -> c < N -> (t + k) mod N <> (t + c) mod N.
Proof.
  intros HN Hk Hc Heq.
  pose proof (Z.div_mod (t + k) N ltac:(lia)) as E1.
  pose proof (Z.div_mod (t + c) N ltac:(lia)) as E2.
  rewrite Heq in E1.
  assert (c - k = N * ((t + c) / N - (t + k) / N)) as E by lia.
  assert (0 < (t + c) / N - (t + k) / N) by nia.
  nia.
Qed.

Section Capacity.

Variable rb_bits : Z.
Variable N : Z.
Hypothesis N_pos : 0 < N.
Hypothesis N_fits : N < rb_modulus rb_bits.

Lemma rb_wrap_small (z : Z) : 0 <= z <= N -> rb_wrap rb_bits z = z.
Proof.
  intros Hz. unfold rb_wrap. apply Z.mod_small. lia.
Qed.

Lemma init_inv (r0 : ring_buffer_t) (storage : list Z) :
  Z.of_nat (length storage) = N ->
  exists r, ring_buffer_init (Some r0) (Some storage) N = Some r /\ rb_inv N r
            /\ contents r = [] /\ count r = 0.
Proof.
  intros Hlen. unfold ring_buffer_init.
  destruct (Z.eqb_spec N 0) as [->|_]; [lia|].
  eexists; split; [reflexivity|]. split; [|done].
  constructor; simpl; try lia. symmetry. rewrite Z.add_0_r. apply Z.mod_small. lia.
Qed.

Lemma init_bounded (r0 : ring_buffer_t) (storage : list Z) :
  exists r, ring_buffer_init (Some r0) (Some storage) N = Some r /\ rb_bounded N r.
Proof.
  unfold ring_buffer_init.
  destruct (Z.eqb_spec N 0) as [->|_]; [lia|].
  eexists; split; [reflexivity|]. split; simpl; lia.
Qed.

Lemma write_bounded (r : ring_buffer_t) (d : Z) :
  rb_bounded N r ->
  exists ok r', ring_buffer_write rb_bits (Some r) d = (ok, Some r') /\ rb_bounded N r'.
Proof.
  intros [Hs Hc]. unfold ring_buffer_write, ring_buffer_is_full.
  destruct (Z.eqb_spec (count r) (size r)) as [E|E].
  - exists false, r. done.
  - eexists true, _. split; [reflexivity|]. split; simpl; [done|].
    rewrite rb_wrap_small; lia.
Qed.

Lemma read_bounded (r : ring_buffer_t) (x : Z) :
  rb_bounded N r ->
  exists ok out r', ring_buffer_read rb_bits (Some r) (Some x) = (ok, out, Some r')
                    /\ rb_bounded N r'.
Proof.
  intros [Hs Hc]. unfold ring_buffer_read, ring_buffer_is_empty.
  destruct (Z.eqb_spec (count r) 0) as [E|E].
  - exists false, (Some x), r. done.
  - eexists true, _, _. split; [reflexivity|]. split; simpl; [done|].
    rewrite rb_wrap_small; lia.
Qed.

Lemma run_bounded (cs : list rb_call) (r : ring_buffer_t) :
  rb_bounded N r ->
  exists r', (run rb_bits (Some r) cs).1.1 = Some r' /\ rb_bounded N r'.
Proof.
  revert r. induction cs as [|[d|] cs IH]; intros r Hr; cbn [run].
  - by exists r.
  - destruct (write_bounded r d Hr) as (ok & r1 & -> & Hr1).
    destruct (IH r1 Hr1) as (r' & E & Hr').
    destruct (run rb_bits (Some r1) cs) as [[rb2 ws] rs]. by exists r'.
  - destruct (read_bounded r 0 Hr) as (ok & out & r1 & -> & Hr1).
    destruct (IH r1 Hr1) as (r' & E & Hr').
    destruct (run rb_bits (Some r1) cs) as [[rb2 ws] rs]. by exists r'.
Qed.

Lemma contents_length (r : ring_buffer_t) :
  length (contents r) = Z.to_nat (count r).
Proof. unfold contents. by rewrite length_map, length_seq. Qed.

Lemma write_contents (r : ring_buffer_t) (d : Z) :
  rb_inv N r -> count r < N ->
  exists r', ring_buffer_write rb_bits (Some r) d = (true, Some r')
             /\ rb_inv N r' /\ contents r' = contents r ++ [d].
Proof.
  intros [Hs Hc Ht Hh Hl] Hlt. unfold ring_buffer_write, ring_buffer_is_full.
  destruct (Z.eqb_spec (count r) (size r)) as [E|_]; [lia|].
  eexists; split; [reflexivity|].
  assert (0 <= head r < N) as Hhd by (rewrite Hh; apply Z.mod_pos_bound; lia).
  split.
  - constructor; simpl; try done.
    + rewrite rb_wrap_small; lia.
    + rewrite !rb_wrap_small by lia. rewrite Hs, Hh.
      rewrite Z.add_mod_idemp_l by lia. f_equal. lia.
    + rewrite length_insert. done.
  - unfold contents; simpl. rewrite rb_wrap_small by lia. rewrite Hs.
    replace (Z.to_nat (count r + 1)) with (Z.to_nat (count r) + 1)%nat by lia.
    rewrite seq_app, map_app. simpl. f_equal.
    + apply map_ext_in. intros k Hk%in_seq.
      apply get_insert_ne. rewrite Hh.
      intros Heq%Z2Nat.inj; try (apply Z.mod_pos_bound; lia).
      symmetry in Heq. revert Heq. apply slot_apart; lia.
    + f_equal. rewrite Z2Nat.id by lia. rewrite <- Hh.
      apply get_insert_eq. lia.
Qed.

Lemma read_contents (r : ring_buffer_t) (x : Z) :
  rb_inv N r -> 0 < count r ->
  exists v r', ring_buffer_read rb_bits (Some r) (Some x) = (true, Some v, Some r')
               /\ rb_inv N r' /\ contents r = v :: contents r'.
Proof.
  intros [Hs Hc Ht Hh Hl] Hlt. unfold ring_buffer_read, ring_buffer_is_empty.
  destruct (Z.eqb_spec (count r) 0) as [E|_]; [lia|].
  eexists _, _; split; [reflexivity|].
  split.
  - constructor; simpl; try done.
    + rewrite rb_wrap_small; lia.
    + rewrite rb_wrap_small by lia. rewrite Hs. apply Z.mod_pos_bound; lia.
    + rewrite !rb_wrap_small by lia. rewrite Hs, Hh.
      rewrite Z.add_mod_idemp_l by lia. f_equal. lia.
  - unfold contents; simpl. rewrite !rb_wrap_small by lia. rewrite Hs.
    replace (Z.to_nat (count r)) with (S (Z.to_nat (count r - 1))) by lia.
    simpl. f_equal.
    + rewrite Z.add_0_r, Z.mod_small by lia. done.
    + rewrite <- seq_shift, map_map. apply map_ext. intros k.
      rewrite Z.add_mod_idemp_l by lia. do 3 f_equal. lia.
Qed.

Lemma run_fifo (cs : list rb_call) (r : ring_buffer_t) :
  rb_inv N r ->
  exists r', (run rb_bits (Some r) cs).1.1 = Some r' /\ rb_inv N r' /\
    contents r ++ (run rb_bits (Some r) cs).1.2
    = (run rb_bits (Some r) cs).2 ++ contents r'.
Proof.
  revert r. induction cs as [|[d|] cs IH]; intros r Hr; cbn [run].
  - exists r. by rewrite app_nil_r.
  - destruct (Z_lt_ge_dec (count r) N) as [Hlt|Hge].
    + destruct (write_contents r d Hr Hlt) as (r1 & -> & Hr1 & Hc1).
      destruct (IH r1 Hr1) as (r' & E & Hr' & Hq).
      destruct (run rb_bits (Some r1) cs) as [[rb2 ws] rs]. cbn [fst snd] in *.
      exists r'. split; [done|split; [done|]]. rewrite <- Hq, Hc1, <- app_assoc. done.
    + assert (ring_buffer_write rb_bits (Some r) d = (false, Some r)) as ->.
      { unfold ring_buffer_write, ring_buffer_is_full.
        destruct Hr as [Hs Hc _ _ _].
        destruct (Z.eqb_spec (count r) (size r)); [done|lia]. }
      destruct (IH r Hr) as (r' & E & Hr' & Hq).
      destruct (run rb_bits (Some r) cs) as [[rb2 ws] rs]. cbn [fst snd] in *.
      by exists r'.
  - destruct (Z_lt_ge_dec 0 (count r)) as [Hlt|Hge].
    + destruct (read_contents r 0 Hr Hlt) as (v & r1 & -> & Hr1 & Hc1).
      destruct (IH r1 Hr1) as (r' & E & Hr' & Hq).
      destruct (run rb_bits (Some r1) cs) as [[rb2 ws] rs]. cbn [fst snd] in *.
      exists r'. split; [done|split; [done|]]. rewrite Hc1. cbn [default app]. by rewrite Hq.
    + assert (ring_buffer_read rb_bits (Some r) (Some 0) = (false, Some 0, Some r)) as ->.
      { unfold ring_buffer_read, ring_buffer_is_empty.
        destruct Hr as [Hs Hc _ _ _].
        destruct (Z.eqb_spec (count r) 0); [done|lia]. }
      destruct (IH r Hr) as (r' & E & Hr' & Hq).
      destruct (run rb_bits (Some r) cs) as [[rb2 ws] rs]. cbn [fst snd] in *.
      by exists r'.
Qed.

Lemma count_contents (r : ring_buffer_t) :
  rb_inv N r -> count r = Z.of_nat (length (contents r)).
Proof. intros [_ Hc _ _ _]. rewrite contents_length. lia. Qed.

(** C2.  On a ring buffer initialised with storage and a capacity [N] > 0
    (that the size type can hold), after every run of write and read calls
    bytes_available + space_remaining is [N], the count lies in [0, N],
    and a write on a full buffer returns false and leaves the buffer
    (cursors, count and contents) as it was. *)
Theorem capacity_invariant (r0 : ring_buffer_t) (storage : list Z)
    (cs : list rb_call) :
  let rb := (run rb_bits (ring_buffer_init (Some r0) (Some storage) N) cs).1.1 in
  ring_buffer_bytes_available rb + ring_buffer_space_remaining rb_bits rb = N
  /\ 0 <= ring_buffer_bytes_available rb <= N
  /\ (forall d, ring_buffer_is_full rb = true ->
                ring_buffer_write rb_bits rb d = (false, rb)).
Proof.
  destruct (init_bounded r0 storage) as (r & -> & Hr).
  destruct (run_bounded cs r Hr) as (r' & -> & [Hs Hc]).
  cbn [ring_buffer_bytes_available ring_buffer_space_remaining].
  split; [|split; [done|]].
  - rewrite rb_wrap_small; lia.
  - intros d Hfull. unfold ring_buffer_write. by rewrite Hfull.
Qed.

(** C3.  The buffer is a FIFO.  With room for three bytes, writing a, b,
    c and reading three times yields a, b, c.  After any run of writes and
    reads, the bytes written are the bytes read, in order, followed by the
    bytes still queued; so once the buffer is drained the sequence read is
    the sequence written, however often the cursors have wrapped. *)
Theorem fifo_order (r0 : ring_buffer_t) (storage : list Z) :
  Z.of_nat (length storage) = N ->
  let rb0 := ring_buffer_init (Some r0) (Some storage) N in
  (3 <= N -> forall a b c,
     (run rb_bits rb0 [Write a; Write b; Write c; Read; Read; Read]).2 = [a; b; c])
  /\ (forall cs, exists r,
        (run rb_bits rb0 cs).1.1 = Some r
        /\ (run rb_bits rb0 cs).1.2 = (run rb_bits rb0 cs).2 ++ contents r
        /\ (ring_buffer_is_empty (Some r) = true ->
            (run rb_bits rb0 cs).2 = (run rb_bits rb0 cs).1.2)).
Proof.
  intros Hlen rb0. subst rb0.
  destruct (init_inv r0 storage Hlen) as (r & -> & Hr & Hc0 & Hn0).
  split.
  - intros H3 a b c.
    destruct (write_contents r a Hr ltac:(lia)) as (r1 & E1 & Hr1 & Hc1).
    rewrite Hc0 in Hc1. simpl in Hc1.
    pose proof (count_contents r1 Hr1) as Hn1. rewrite Hc1 in Hn1. simpl in Hn1.
    destruct (write_contents r1 b Hr1 ltac:(lia)) as (r2 & E2 & Hr2 & Hc2).
    rewrite Hc1 in Hc2. simpl in Hc2.
    pose proof (count_contents r2 Hr2) as Hn2. rewrite Hc2 in Hn2. simpl in Hn2.
    destruct (write_contents r2 c Hr2 ltac:(lia)) as (r3 & E3 & Hr3 & Hc3).
    rewrite Hc2 in Hc3. simpl in Hc3.
    pose proof (count_contents r3 Hr3) as Hn3. rewrite Hc3 in Hn3. simpl in Hn3.
    destruct (read_contents r3 0 Hr3 ltac:(lia)) as (v4 & r4 & E4 & Hr4 & Hc4).
    rewrite Hc3 in Hc4. injection Hc4 as <- Hc4.
    pose proof (count_contents r4 Hr4) as Hn4. rewrite <- Hc4 in Hn4. simpl in Hn4.
    destruct (read_contents r4 0 Hr4 ltac:(lia)) as (v5 & r5 & E5 & Hr5 & Hc5).
    rewrite <- Hc4 in Hc5. injection Hc5 as <- Hc5.
    pose proof (count_contents r5 Hr5) as Hn5. rewrite <- Hc5 in Hn5. simpl in Hn5.
    destruct (read_contents r5 0 Hr5 ltac:(lia)) as (v6 & r6 & E6 & Hr6 & Hc6).
    rewrite <- Hc5 in Hc6. injection Hc6 as <- Hc6.
    cbn [run]. rewrite E1, E2, E3, E4, E5, E6. done.
  - intros cs. destruct (run_fifo cs r Hr) as (r' & E & Hr' & Hq).
    exists r'. rewrite Hc0 in Hq. simpl in Hq.
    split; [done|]. split; [done|].
    intros Hempty. simpl in Hempty. apply Z.eqb_eq in Hempty.
    pose proof (count_contents r' Hr') as Hn. rewrite Hempty in Hn.
    destruct (contents r'); [|simpl in Hn; lia].
    rewrite Hq. by rewrite app_nil_r.
Qed.

End Capacity.

Lemma capacity_invariant_witness :
  0 < 4 /\ 4 < rb_modulus 8 /\
  (let rb := (run 8 (ring_buffer_init (Some (mkRB [] 0 0 0 0)) (Some [0; 0; 0; 0]) 4)
                [Write 1; Write 2; Write 3; Write 4; Write 5; Read; Write 6]).1.1 in
   ring_buffer_bytes_available rb + ring_buffer_space_remaining 8 rb = 4
   /\ 0 <= ring_buffer_bytes_available rb <= 4
   /\ (forall d, ring_buffer_is_full rb = true ->
                 ring_buffer_write 8 rb d = (false, rb))).
Proof.
  split; [lia|]. split; [reflexivity|].
  apply (capacity_invariant 8 4); [lia|reflexivity].
Defined.

Lemma fifo_order_witness :
  0 < 3 /\ 3 < rb_modulus 8 /\ Z.of_nat (length [0; 0; 0]) = 3 /\
  (let rb0 := ring_buffer_init (Some (mkRB [] 0 0 0 0)) (Some [0; 0; 0]) 3 in
   (3 <= 3 -> forall a b c,
      (run 8 rb0 [Write a; Write b; Write c; Read; Read; Read]).2 = [a; b; c])
   /\ (forall cs, exists r,
         (run 8 rb0 cs).1.1 = Some r
         /\ (run 8 rb0 cs).1.2 = (run 8 rb0 cs).2 ++ contents r
         /\ (ring_buffer_is_empty (Some r) = true ->
             (run 8 rb0 cs).2 = (run 8 rb0 cs).1.2))).
Proof.
  split; [lia|]. split; [reflexivity|]. split; [reflexivity|].
  apply (fifo_order 8 3); [lia|reflexivity|reflexivity].
Defined.

End RingBufferProofs.

(** ** The GPS driver *)

Module GpsProofs.

Import CStr CStrFacts Gps.

Lemma split_loop_length (p cur : list Z) (count max_fields : nat) :
  length (split_loop p cur count max_fields).2 = length p.
Proof.
  revert cur count. induction p as [|c p IH]; intros cur count; simpl; [done|].
  destruct (c =? 42); [done|].
  destruct (max_fields <=? count)%nat; [done|].
  destruct (c =? 44).
  - specialize (IH [] (S count)).
    destruct (split_loop p [] (S count) max_fields); simpl in *. by rewrite IH.
  - specialize (IH (c :: cur) count).
    destruct (split_loop p (c :: cur) count max_fields); simpl in *. by rewrite IH.
Qed.

Lemma process_length (g : gps_internal) (s : list Z) :
  length (process_nmea_sentence g s).2 = length s.
Proof.
  unfold process_nmea_sentence, nmea_split_fields.
  pose proof (split_loop_length (drop 1 s) [] 1 NMEA_MAX_FIELDS) as H.
  destruct (split_loop (drop 1 s) [] 1 NMEA_MAX_FIELDS) as [fs q]; simpl in *.
  rewrite length_app, H, length_take, length_drop. lia.
Qed.

Lemma end_of_sentence_length (st : gps_state) :
  length (nmea_buffer (end_of_sentence st)) = length (nmea_buffer st).
Proof.
  unfold end_of_sentence.
  match goal with |- context [cstr ?x] => set (b := x) end.
  assert (length b = length (nmea_buffer st)) as Hb.
  { subst b. destruct (_ && _); by rewrite !length_insert. }
  destruct (nmea_validate_checksum (cstr b)); [|done].
  pose proof (process_length (internal st) (cstr b)) as Hp.
  destruct (process_nmea_sentence (internal st) (cstr b)) as [g marked]; simpl in *.
  rewrite store_at_length; [done|]. pose proof (cstr_length b). lia.
Qed.

Lemma process_char_length (st : gps_state) (c : Z) :
  length (nmea_buffer (gps_process_char st c)) = length (nmea_buffer st).
Proof.
  unfold gps_process_char.
  destruct (c =? 36); [by simpl; rewrite length_insert|].
  destruct (sentence_in_progress st); [|done].
  destruct (nmea_buffer_index st <? NMEA_MAX_SENTENCE_LEN)%nat;
    destruct (c =? 10); rewrite ?end_of_sentence_length; simpl;
    by rewrite ?length_insert.
Qed.

Lemma feed_length (s : list Z) (st : gps_state) :
  length (nmea_buffer (gps_feed st s)) = length (nmea_buffer st).
Proof.
  revert st. induction s as [|c s IH]; intros st; [done|].
  unfold gps_feed in *. simpl. by rewrite IH, process_char_length.
Qed.

(** Outside a sentence every byte but [$] is ignored. *)
Lemma feed_idle (s : list Z) (st : gps_state) :
  sentence_in_progress st = false -> 36 ∉ s -> gps_feed st s = st.
Proof.
  revert st. induction s as [|c s IH]; intros st Hi Hs; [done|].
  apply not_elem_of_cons in Hs as [Hc Hs].
  unfold gps_feed in *. simpl. unfold gps_process_char at 2.
  destruct (Z.eqb_spec c 36); [done|]. rewrite Hi. by apply IH.
Qed.

(** Inside a sentence, bytes other than [$] and the newline are stored one
    after the other while there is room. *)
Lemma feed_body (body : list Z) (st : gps_state) :
  sentence_in_progress st = true -> 36 ∉ body -> 10 ∉ body ->
  (nmea_buffer_index st + length body <= NMEA_MAX_SENTENCE_LEN)%nat ->
  (nmea_buffer_index st + length body <= length (nmea_buffer st))%nat ->
  gps_feed st body =
    {| internal := internal st;
       nmea_buffer := store_at (nmea_buffer st) (nmea_buffer_index st) body;
       nmea_buffer_index := nmea_buffer_index st + length body;
       sentence_in_progress := true |}.
Proof.
  revert st. induction body as [|c body IH]; intros st Hp H36 H10 Hroom Hlen.
  - simpl. rewrite store_at_nil, Nat.add_0_r. destruct st; simpl in *. by subst.
  - apply not_elem_of_cons in H36 as [Hc36 H36].
    apply not_elem_of_cons in H10 as [Hc10 H10].
    simpl in Hroom, Hlen.
    unfold gps_feed in *. simpl fold_left. unfold gps_process_char at 2.
    destruct (Z.eqb_spec c 36); [done|]. rewrite Hp.
    destruct (Nat.ltb_spec (nmea_buffer_index st) NMEA_MAX_SENTENCE_LEN); [|lia].
    destruct (Z.eqb_spec c 10); [done|].
    rewrite IH; simpl; try done; rewrite ?length_insert; try lia.
    f_equal; [|lia]. apply store_at_insert. lia.
Qed.

(** The same without a bound on the array: what the bytes leave of the
    internal state, the index and the framing flag. *)
Lemma feed_body_proj (body : list Z) (st : gps_state) :
  sentence_in_progress st = true -> 36 ∉ body -> 10 ∉ body ->
  (nmea_buffer_index st + length body <= NMEA_MAX_SENTENCE_LEN)%nat ->
  internal (gps_feed st body) = internal st
  /\ nmea_buffer_index (gps_feed st body) = (nmea_buffer_index st + length body)%nat
  /\ sentence_in_progress (gps_feed st body) = true.
Proof.
  revert st. induction body as [|c body IH]; intros st Hp H36 H10 Hroom.
  - simpl. by rewrite Nat.add_0_r.
  - apply not_elem_of_cons in H36 as [Hc36 H36].
    apply not_elem_of_cons in H10 as [Hc10 H10].
    simpl in Hroom.
    unfold gps_feed in *. simpl fold_left. unfold gps_process_char at 2 4 6.
    destruct (Z.eqb_spec c 36); [done|]. rewrite Hp.
    destruct (Nat.ltb_spec (nmea_buffer_index st) NMEA_MAX_SENTENCE_LEN); [|lia].
    destruct (Z.eqb_spec c 10); [done|].
    destruct (IH {|
        internal := internal st;
        nmea_buffer := <[nmea_buffer_index st:=c]> (nmea_buffer st);
        nmea_buffer_index := S (nmea_buffer_index st);
        sentence_in_progress := true |}) as (E1 & E2 & E3); simpl; try done; try lia.
    rewrite E1, E2, E3. simpl. repeat split; lia.
Qed.

Lemma internal_end_of_sentence (st : gps_state) (s : list Z) :
  let i := nmea_buffer_index st in
  let b0 := <[i := 0]> (nmea_buffer st) in
  cstr (if (1 <? i)%nat && (get b0 (i - 2) =? 13)
        then <[(i - 2)%nat := 0]> b0 else <[(i - 1)%nat := 0]> b0) = s ->
  internal (end_of_sentence st) = dispatch (internal st) s
  /\ sentence_in_progress (end_of_sentence st) = false.
Proof.
  intros i b0 Hs. unfold end_of_sentence, dispatch.
  fold i. fold b0. rewrite Hs.
  destruct (nmea_validate_checksum s); [|done].
  by destruct (process_nmea_sentence (internal st) s).
Qed.

(** The end of a sentence whose bytes [l] sit at the start of the buffer,
    followed by the newline. *)
Lemma end_of_sentence_framed (g : gps_internal) (l R : list Z) (x : Z) (flag : bool) :
  l <> [] ->
  let st := {| internal := g;
               nmea_buffer := l ++ 10 :: x :: R;
               nmea_buffer_index := length l + 1;
               sentence_in_progress := flag |} in
  internal (end_of_sentence st) = dispatch g (cstr (chomp l))
  /\ sentence_in_progress (end_of_sentence st) = false.
Proof.
  intros Hl st. apply (internal_end_of_sentence st). simpl.
  assert (0 < length l)%nat as Hn by (destruct l; [done|simpl; lia]).
  replace (1 <? length l + 1)%nat with true by (symmetry; apply Nat.ltb_lt; lia).
  rewrite andb_true_l.
  rewrite (insert_app_r_alt l _ (length l + 1)) by lia.
  replace (length l + 1 - length l)%nat with 1%nat by lia. simpl.
  replace (length l + 1 - 2)%nat with (length l - 1)%nat by lia.
  replace (length l + 1 - 1)%nat with (length l) by lia.
  rewrite get_app_l by lia. unfold chomp.
  destruct (get l (length l - 1) =? 13).
  - rewrite insert_app_l by lia. rewrite insert_take_drop by lia.
    rewrite <- app_assoc. simpl. apply cstr_app_nul.
  - rewrite (insert_app_r_alt l _ (length l)) by lia.
    rewrite Nat.sub_diag. simpl. apply cstr_app_nul.
Qed.

Lemma feed_cons (st : gps_state) (c : Z) (s : list Z) :
  gps_feed st (c :: s) = gps_feed (gps_process_char st c) s.
Proof. done. Qed.

Lemma feed_app (st : gps_state) (s1 s2 : list Z) :
  gps_feed st (s1 ++ s2) = gps_feed (gps_feed st s1) s2.
Proof. apply fold_left_app. Qed.

(** A sentence that fits is validated and dispatched as it was sent,
    whatever the buffer held before. *)
Lemma feed_line (st : gps_state) (text : list Z) :
  length (nmea_buffer st) = S NMEA_MAX_SENTENCE_LEN ->
  36 ∉ text -> 10 ∉ text -> (length text <= 80)%nat ->
  internal (gps_feed st (36 :: text ++ [10]))
    = dispatch (internal st) (framed_sentence text)
  /\ sentence_in_progress (gps_feed st (36 :: text ++ [10])) = false.
Proof.
  intros Hlen H36 H10 Hshort. unfold NMEA_MAX_SENTENCE_LEN in Hlen.
  rewrite feed_cons, feed_app, feed_cons. cbn [gps_feed fold_left].
  assert (gps_process_char st 36 =
          {| internal := internal st;
             nmea_buffer := <[0%nat := 36]> (nmea_buffer st);
             nmea_buffer_index := 1;
             sentence_in_progress := true |}) as -> by done.
  rewrite feed_body; cbn [sentence_in_progress nmea_buffer_index nmea_buffer internal];
    rewrite ?length_insert; unfold NMEA_MAX_SENTENCE_LEN; try done; try lia.
  rewrite store_at_insert by lia.
  unfold gps_process_char.
  cbn [sentence_in_progress nmea_buffer_index nmea_buffer internal].
  change (10 =? 36) with false. change (10 =? 10) with true. cbv iota.
  destruct (Nat.ltb_spec (1 + length text) NMEA_MAX_SENTENCE_LEN) as [_|H];
    [|unfold NMEA_MAX_SENTENCE_LEN in H; lia].
  change (1 + length text)%nat with (0 + length (36%Z :: text))%nat.
  rewrite insert_store_at by (simpl; lia).
  unfold store_at. rewrite take_0. cbn [app].
  destruct (drop (0 + length ((36 :: text) ++ [10])) (nmea_buffer st)) as [|x R] eqn:ED.
  { apply (f_equal length) in ED. rewrite length_drop, length_app in ED.
    simpl in ED. lia. }
  rewrite <- app_assoc. cbn [app] in ED |- *. rewrite ?ED.
  replace (S (0 + length (36 :: text))) with (length (36%Z :: text) + 1)%nat by lia.
  apply (end_of_sentence_framed (internal st) (36 :: text) R x true). done.
Qed.

Lemma lxor_byte (a b : Z) :
  0 <= a < 256 -> 0 <= b < 256 -> 0 <= Z.lxor a b < 256.
Proof.
  intros Ha Hb.
  assert (0 <= Z.lxor a b) as Hnn by (apply Z.lxor_nonneg; lia).
  split; [done|].
  destruct (Z.eq_dec (Z.lxor a b) 0) as [->|Hz]; [lia|].
  change 256 with (2 ^ 8). apply Z.log2_lt_pow2; [lia|].
  pose proof (Z.log2_lxor a b ltac:(lia) ltac:(lia)) as Hl.
  assert (forall x, 0 <= x < 256 -> Z.log2 x < 8) as Hlog.
  { intros x Hx. destruct (Z.eq_dec x 0) as [->|]; [done|].
    apply Z.log2_lt_pow2; lia. }
  pose proof (Hlog a Ha). pose proof (Hlog b Hb). lia.
Qed.

(** The checksum loop is the XOR of the bytes before the first [*]. *)
Lemma checksum_loop_xor (body tail : list Z) (acc : Z) :
  Forall (fun c => 0 <= c < 256) body -> 42 ∉ body -> 0 <= acc < 256 ->
  checksum_loop (body ++ 42 :: tail) acc = fold_left Z.lxor body acc.
Proof.
  intros Hb. revert acc. induction Hb as [|c body Hc _ IH]; intros acc H42 Hacc.
  - done.
  - apply not_elem_of_cons in H42 as [Hc42 H42]. simpl.
    destruct (Z.eqb_spec c 42); [done|].
    pose proof (lxor_byte acc c Hacc Hc) as Hx.
    rewrite Z.mod_small by lia. by apply IH.
Qed.

Lemma strchr_app (body tail : list Z) (c : Z) :
  c ∉ body -> strchr (body ++ c :: tail) c = Some (c :: tail).
Proof.
  induction body as [|x body IH]; intros H; simpl.
  - by rewrite Z.eqb_refl.
  - apply not_elem_of_cons in H as [Hx Hb].
    destruct (Z.eqb_spec x c); [done|]. by apply IH.
Qed.

Lemma validate_checksum_xor (body tail : list Z) :
  Forall (fun c => 0 <= c < 256) body -> 42 ∉ body ->
  nmea_validate_checksum (36 :: body ++ 42 :: tail)
  = (2 <=? length tail)%nat && (fold_left Z.lxor body 0 =? strtol16 tail mod 256).
Proof.
  intros Hb H42. unfold nmea_validate_checksum.
  change (36 :: body ++ 42 :: tail) with ((36 :: body) ++ 42 :: tail).
  rewrite strchr_app by (apply not_elem_of_cons; split; [lia|done]).
  cbn [length drop app nmea_calculate_checksum].
  rewrite checksum_loop_xor by (try done; lia).
  destruct (Nat.ltb_spec (S (length tail)) 3), (Nat.leb_spec 2 (length tail));
    try lia; done.
Qed.

Lemma hexval_cases (c v : Z) :
  hexval c = Some v ->
  c = 48 \/ c = 49 \/ c = 50 \/ c = 51 \/ c = 52 \/ c = 53 \/ c = 54
  \/ c = 55 \/ c = 56 \/ c = 57 \/ c = 65 \/ c = 66 \/ c = 67 \/ c = 68
  \/ c = 69 \/ c = 70 \/ c = 97 \/ c = 98 \/ c = 99 \/ c = 100
  \/ c = 101 \/ c = 102.
Proof.
  unfold hexval, isdigit. intros H.
  assert (48 <= c <= 57 \/ 65 <= c <= 70 \/ 97 <= c <= 102) as Hr.
  { destruct (Z.leb_spec 48 c), (Z.leb_spec c 57), (Z.leb_spec 65 c),
      (Z.leb_spec c 70), (Z.leb_spec 97 c), (Z.leb_spec c 102);
      simpl in H; try discriminate; lia. }
  lia.
Qed.

Ltac hex_case Hv :=
  vm_compute in Hv; injection Hv as <-;
  split; intros Hne;
  first [ exfalso; apply Hne; reflexivity | vm_compute; reflexivity ].

(** C1 (as amended).  The XOR of the bytes between [$] and [*] of the RMC
    sentence of the design document is 7D: with [*7D] the sentence sets the
    fix validity and the updated flag; with either hexadecimal digit of
    that checksum changed the sentence is dropped, record and flags staying
    as they were.  Validation compares the XOR of the bytes strictly
    between [$] and [*] with the hexadecimal value after [*], which must be
    at least two characters long. *)
Theorem nmea_checksum_acceptance :
  (let st := gps_feed gps_init
       (nmea_line "GPRMC,123456.00,A,4042.768,N,07400.360,W,5.0,90.0,050525,,,A*7D") in
   fix_valid (current_gps_data (internal st)) = true
   /\ data_updated (internal st) = true
   /\ data_valid_fix (internal st) = true
   /\ gps_feed gps_init (rmc_with_checksum 55 68) = st)
  /\ (forall c v, hexval c = Some v ->
        (v <> 7 -> internal (gps_feed gps_init (rmc_with_checksum c 68))
                   = internal gps_init)
        /\ (v <> 13 -> internal (gps_feed gps_init (rmc_with_checksum 55 c))
                       = internal gps_init))
  /\ (forall body tail,
        Forall (fun c => 0 <= c < 256) body -> 42 ∉ body ->
        nmea_validate_checksum (36 :: body ++ 42 :: tail)
        = (2 <=? length tail)%nat
          && (fold_left Z.lxor body 0 =? strtol16 tail mod 256)).
Proof.
  split; [by vm_compute|]. split; [|apply validate_checksum_xor].
  intros c v Hv. pose proof (hexval_cases c v Hv) as Hc.
  repeat (destruct Hc as [->|Hc]; [hex_case Hv|]).
  subst c. hex_case Hv.
Qed.

Lemma nmea_checksum_acceptance_witness :
  (hexval 56 = Some 8 /\ 8 <> 7
   /\ internal (gps_feed gps_init (rmc_with_checksum 56 68)) = internal gps_init)
  /\ (Forall (fun c => 0 <= c < 256) (bytes "GPRMC,1,2,3")
      /\ (42 ∉ bytes "GPRMC,1,2,3")
      /\ nmea_validate_checksum (36 :: bytes "GPRMC,1,2,3" ++ 42 :: bytes "57")
         = (2 <=? length (bytes "57"))%nat
           && (fold_left Z.lxor (bytes "GPRMC,1,2,3") 0 =? strtol16 (bytes "57") mod 256)).
Proof.
  assert (Forall (fun c => 0 <= c < 256) (bytes "GPRMC,1,2,3")) as Hb.
  { change (bytes "GPRMC,1,2,3") with [71; 80; 82; 77; 67; 44; 49; 44; 50; 44; 51].
    repeat (constructor; [lia|]). constructor. }
  assert (42 ∉ (bytes "GPRMC,1,2,3")) as H42.
  { change (bytes "GPRMC,1,2,3") with [71; 80; 82; 77; 67; 44; 49; 44; 50; 44; 51].
    intros H. repeat (apply elem_of_cons in H as [H|H]; [discriminate|]).
    by apply elem_of_nil in H. }
  split.
  - split; [reflexivity|]. split; [discriminate|].
    exact (proj1 (proj1 (proj2 nmea_checksum_acceptance) 56 8 eq_refl)
             ltac:(discriminate)).
  - split; [exact Hb|]. split; [exact H42|].
    exact (proj2 (proj2 nmea_checksum_acceptance) _ _ Hb H42).
Defined.

(** The sentence as the design document prints it, with [*6E], does not
    pass validation: it sets neither the fix validity nor the flag. *)
Lemma checksum_6E_rejected :
  ~ (let st := gps_feed gps_init
         (nmea_line "GPRMC,123456.00,A,4042.768,N,07400.360,W,5.0,90.0,050525,,,A*6E") in
     fix_valid (current_gps_data (internal st)) = true
     /\ data_updated (internal st) = true).
Proof. vm_compute. intros [H _]. discriminate. Qed.

(** C5 (the code as it is).  After an RMC sentence with void status, a GGA
    sentence with fix quality 1 is parsed (quality and flags are stored)
    and leaves the fix invalid: [parse_gpgga] looks for the letter V in
    field 2 of the GGA sentence itself, which holds the latitude. *)
Theorem gga_after_void_rmc :
  let st1 := gps_feed gps_init rmc_void_line in
  let st2 := gps_feed st1 gga_fix_line in
  seen_rmc (current_gps_data (internal st1)) = true
  /\ fix_valid (current_gps_data (internal st1)) = false
  /\ data_updated (internal st2) = true
  /\ seen_gga (current_gps_data (internal st2)) = true
  /\ fix_quality (current_gps_data (internal st2)) = 1
  /\ fix_valid (current_gps_data (internal st2)) = false
  /\ data_valid_fix (internal st2) = false.
Proof. by vm_compute. Qed.

(** Once a sentence has overflowed, the framer is idle and the internal
    state is the one before the sentence. *)
Lemma feed_overflow (st : gps_state) (body rest : list Z) :
  (NMEA_MAX_SENTENCE_LEN <= length body)%nat ->
  36 ∉ body -> 10 ∉ body -> 36 ∉ rest ->
  internal (gps_feed st (36 :: body ++ rest)) = internal st
  /\ sentence_in_progress (gps_feed st (36 :: body ++ rest)) = false.
Proof.
  unfold NMEA_MAX_SENTENCE_LEN. intros Hlong H36 H10 Hrest.
  rewrite <- (take_drop 81 body) in H36, H10 |- *.
  apply not_elem_of_app in H36 as [H36a H36b].
  apply not_elem_of_app in H10 as [H10a H10b].
  assert (length (take 81 body) = 81%nat) as Ht by (rewrite length_take; lia).
  destruct (drop 81 body) as [|c body2] eqn:Ed.
  { apply (f_equal length) in Ed. rewrite length_drop in Ed. simpl in Ed. lia. }
  apply not_elem_of_cons in H36b as [Hc36 H36b].
  apply not_elem_of_cons in H10b as [Hc10 H10b].
  rewrite feed_cons, <- !app_assoc, feed_app. cbn [app]. rewrite feed_cons.
  set (st0 := gps_process_char st 36).
  destruct (feed_body_proj (take 81 body) st0) as (E1 & E2 & E3);
    try done; [unfold NMEA_MAX_SENTENCE_LEN; simpl; lia|].
  set (st1 := gps_feed st0 (take 81 body)) in *.
  assert (gps_process_char st1 c =
          {| internal := internal st;
             nmea_buffer := nmea_buffer st1;
             nmea_buffer_index := nmea_buffer_index st1;
             sentence_in_progress := false |}) as ->.
  { unfold gps_process_char. destruct (Z.eqb_spec c 36); [done|]. rewrite E3.
    rewrite E2, Ht. simpl (nmea_buffer_index st0).
    destruct (Z.eqb_spec c 10); [done|]. simpl. by rewrite E1. }
  rewrite feed_idle; [done|done|].
  apply not_elem_of_app. done.
Qed.

(** Without a newline nothing is dispatched: the internal state stays. *)
Lemma feed_no_newline (stream : list Z) (st : gps_state) :
  10 ∉ stream -> internal (gps_feed st stream) = internal st.
Proof.
  revert st. induction stream as [|c stream IH]; intros st H10; [done|].
  apply not_elem_of_cons in H10 as [Hc H10].
  rewrite feed_cons, IH by done. unfold gps_process_char.
  destruct (c =? 36); [done|].
  destruct (sentence_in_progress st); [|done].
  destruct (Z.eqb_spec c 10); [done|].
  by destruct (nmea_buffer_index st <? NMEA_MAX_SENTENCE_LEN)%nat.
Qed.

(** C4.  A sentence that outgrows the accumulator (82 bytes or more after
    the [$], none of them a newline) is discarded as a whole: whatever
    follows it before the next [$], the internal state is the one before
    the sentence and the framer is idle.  A short sentence sent next is
    validated and dispatched exactly as a framer that has seen nothing
    would do it, and the framer is idle again afterwards.  The same holds
    of the record and of the next sentence after any stream without a
    newline, also one in which a further [$] restarts the framing. *)
Theorem nmea_overflow_discard (st : gps_state) (body rest text : list Z) :
  length (nmea_buffer st) = S NMEA_MAX_SENTENCE_LEN ->
  (NMEA_MAX_SENTENCE_LEN <= length body)%nat ->
  36 ∉ body -> 10 ∉ body -> 36 ∉ rest ->
  36 ∉ text -> 10 ∉ text -> (length text <= 80)%nat ->
  let st1 := gps_feed st (36 :: body ++ rest) in
  let st2 := gps_feed st1 (36 :: text ++ [10]) in
  internal st1 = internal st
  /\ sentence_in_progress st1 = false
  /\ internal st2 = dispatch (internal st) (framed_sentence text)
  /\ internal st2
     = internal (gps_feed (fresh_framer (internal st)) (36 :: text ++ [10]))
  /\ sentence_in_progress st2 = false
  /\ (forall stream, 10 ∉ stream ->
        internal (gps_feed st stream) = internal st
        /\ internal (gps_feed (gps_feed st stream) (36 :: text ++ [10]))
           = dispatch (internal st) (framed_sentence text)).
Proof.
  intros Hlen Hlong H36 H10 Hrest Ht36 Ht10 Hshort st1 st2.
  destruct (feed_overflow st body rest Hlong H36 H10 Hrest) as [E1 E2].
  fold st1 in E1, E2.
  assert (length (nmea_buffer st1) = S NMEA_MAX_SENTENCE_LEN) as Hlen1
    by (subst st1; by rewrite feed_length).
  destruct (feed_line st1 text Hlen1 Ht36 Ht10 Hshort) as [E3 E4].
  fold st2 in E3, E4. rewrite E1 in E3.
  destruct (feed_line (fresh_framer (internal st)) text) as [E5 _]; try done.
  rewrite E5. repeat (split; [done|]).
  intros stream Hs. split; [by apply feed_no_newline|].
  destruct (feed_line (gps_feed st stream) text) as [-> _]; try done.
  - by rewrite feed_length.
  - by rewrite feed_no_newline.
Qed.

(** C8.  An RMC sentence (tag GPRMC or GNRMC) that splits into fewer than
    12 fields leaves the record, the updated flag and the fix validity as
    they were, whether or not its checksum is right. *)
Theorem rmc_short_discarded (st : gps_state) (text : list Z) :
  length (nmea_buffer st) = S NMEA_MAX_SENTENCE_LEN ->
  36 ∉ text -> 10 ∉ text -> (length text <= 80)%nat ->
  let fields := (nmea_split_fields (drop 1 (framed_sentence text)) NMEA_MAX_FIELDS).1 in
  is_rmc_tag (field fields 0) = true ->
  (length fields < 12)%nat ->
  internal (gps_feed st (36 :: text ++ [10])) = internal st.
Proof.
  intros Hlen H36 H10 Hshort fields Htag Hcount.
  destruct (feed_line st text Hlen H36 H10 Hshort) as [-> _].
  unfold dispatch. destruct (nmea_validate_checksum _); [|done].
  unfold process_nmea_sentence. subst fields.
  destruct (nmea_split_fields _ _) as [fs marked]. cbn [fst] in *.
  rewrite Htag. unfold parse_gprmc.
  destruct (Nat.ltb_spec (length fs) 1); [done|].
  by destruct (Nat.ltb_spec (length fs) 12); [|lia].
Qed.

Lemma nmea_overflow_discard_witness :
  length (nmea_buffer gps_init) = S NMEA_MAX_SENTENCE_LEN
  /\ (NMEA_MAX_SENTENCE_LEN <= length example_oversized)%nat
  /\ (36 ∉ example_oversized) /\ (10 ∉ example_oversized)
  /\ (36 ∉ [13; 10])
  /\ (36 ∉ example_rmc_text) /\ (10 ∉ example_rmc_text)
  /\ (length example_rmc_text <= 80)%nat
  /\ (let st1 := gps_feed gps_init (36 :: example_oversized ++ [13; 10]) in
      let st2 := gps_feed st1 (36 :: example_rmc_text ++ [10]) in
      (internal st1 = internal gps_init
       /\ sentence_in_progress st1 = false
       /\ internal st2 = dispatch (internal gps_init) (framed_sentence example_rmc_text)
       /\ internal st2
          = internal (gps_feed (fresh_framer (internal gps_init))
                        (36 :: example_rmc_text ++ [10]))
       /\ sentence_in_progress st2 = false
       /\ (forall stream, 10 ∉ stream ->
             internal (gps_feed gps_init stream) = internal gps_init
             /\ internal (gps_feed (gps_feed gps_init stream)
                            (36 :: example_rmc_text ++ [10]))
                = dispatch (internal gps_init) (framed_sentence example_rmc_text)))
      /\ fix_valid (current_gps_data (internal st2)) = true).
Proof.
  assert (length (nmea_buffer gps_init) = S NMEA_MAX_SENTENCE_LEN) as H1
    by reflexivity.
  assert (NMEA_MAX_SENTENCE_LEN <= length example_oversized)%nat as H2
    by (apply Nat.leb_le; reflexivity).
  assert (36 ∉ example_oversized) as H3
    by (apply (bool_decide_unpack _); vm_compute; exact I).
  assert (10 ∉ example_oversized) as H4
    by (apply (bool_decide_unpack _); vm_compute; exact I).
  assert (36 ∉ [13; 10]) as H5
    by (apply (bool_decide_unpack _); vm_compute; exact I).
  assert (36 ∉ example_rmc_text) as H6
    by (apply (bool_decide_unpack _); vm_compute; exact I).
  assert (10 ∉ example_rmc_text) as H7
    by (apply (bool_decide_unpack _); vm_compute; exact I).
  assert (length example_rmc_text <= 80)%nat as H8
    by (apply Nat.leb_le; reflexivity).
  split; [exact H1|]. split; [exact H2|]. split; [exact H3|].
  split; [exact H4|]. split; [exact H5|]. split; [exact H6|].
  split; [exact H7|]. split; [exact H8|].
  split.
  - exact (nmea_overflow_discard gps_init example_oversized [13; 10]
             example_rmc_text H1 H2 H3 H4 H5 H6 H7 H8).
  - vm_compute. reflexivity.
Defined.

(** At the edge of the accumulator: when the byte that finds the buffer
    full is the newline, the framer goes idle but the end-of-sentence code
    still runs on the 82 bytes buffered, so a line of 83 bytes can be
    dispatched (here without its last byte before the newline). *)
Remark newline_at_capacity :
  length example_line_83 = 83%nat
  /\ sentence_in_progress (gps_feed gps_init example_line_83) = false
  /\ data_updated (internal (gps_feed gps_init example_line_83)) = true
  /\ seen_rmc (current_gps_data (internal (gps_feed gps_init example_line_83)))
     = true.
Proof. by vm_compute. Qed.

Lemma rmc_short_discarded_witness :
  length (nmea_buffer gps_init) = S NMEA_MAX_SENTENCE_LEN
  /\ (36 ∉ example_short_rmc) /\ (10 ∉ example_short_rmc)
  /\ (length example_short_rmc <= 80)%nat
  /\ nmea_validate_checksum (framed_sentence example_short_rmc) = true
  /\ (let fields :=
        (nmea_split_fields (drop 1 (framed_sentence example_short_rmc))
           NMEA_MAX_FIELDS).1 in
      is_rmc_tag (field fields 0) = true
      /\ (length fields < 12)%nat
      /\ internal (gps_feed gps_init (36 :: example_short_rmc ++ [10]))
         = internal gps_init).
Proof.
  assert (length (nmea_buffer gps_init) = S NMEA_MAX_SENTENCE_LEN) as H1
    by reflexivity.
  assert (36 ∉ example_short_rmc) as H2
    by (apply (bool_decide_unpack _); vm_compute; exact I).
  assert (10 ∉ example_short_rmc) as H3
    by (apply (bool_decide_unpack _); vm_compute; exact I).
  assert (length example_short_rmc <= 80)%nat as H4
    by (apply Nat.leb_le; reflexivity).
  assert (is_rmc_tag
            (field (nmea_split_fields (drop 1 (framed_sentence example_short_rmc))
                      NMEA_MAX_FIELDS).1 0) = true) as H5
    by (vm_compute; reflexivity).
  assert (length (nmea_split_fields (drop 1 (framed_sentence example_short_rmc))
                    NMEA_MAX_FIELDS).1 < 12)%nat as H6
    by (apply Nat.ltb_lt; vm_compute; reflexivity).
  split; [exact H1|]. split; [exact H2|]. split; [exact H3|].
  split; [exact H4|]. split; [vm_compute; reflexivity|].
  split; [exact H5|]. split; [exact H6|].
  exact (rmc_short_discarded gps_init example_short_rmc H1 H2 H3 H4 H5 H6).
Defined.

End GpsProofs.

(** ** The telemetry receiver *)

Module BleRxProofs.

Import CStr CStrFacts BleRx.

Lemma ble_feed_cons (st : ble_state) (c : Z) (s : list Z) :
  ble_feed st (c :: s) = ble_feed (ble_rx_process_char st c) s.
Proof. done. Qed.

Lemma ble_feed_app (st : ble_state) (s1 s2 : list Z) :
  ble_feed st (s1 ++ s2) = ble_feed (ble_feed st s1) s2.
Proof. apply fold_left_app. Qed.

Lemma printable_range (c : Z) : printable c = true -> 32 <= c <= 126.
Proof. unfold printable. lia. Qed.

(** Printable bytes are stored one after the other while there is room. *)
Lemma ble_feed_printable (line : list Z) (st : ble_state) :
  Forall (fun c => printable c = true) line ->
  (rx_buffer_idx st + length line <= BLE_RX_BUFFER_LEN - 1)%nat ->
  (rx_buffer_idx st + length line <= length (rx_buffer st))%nat ->
  ble_feed st line =
    {| internal := internal st;
       rx_buffer := store_at (rx_buffer st) (rx_buffer_idx st) line;
       rx_buffer_idx := rx_buffer_idx st + length line |}.
Proof.
  intros Hp. revert st. unfold BLE_RX_BUFFER_LEN.
  induction Hp as [|c line Hc _ IH]; intros st Hroom Hlen.
  - simpl. rewrite store_at_nil, Nat.add_0_r. by destruct st.
  - simpl in Hroom, Hlen. apply printable_range in Hc.
    rewrite ble_feed_cons.
    unfold ble_rx_process_char, BLE_MSG_TERMINATOR, BLE_RX_BUFFER_LEN.
    destruct (Z.eqb_spec c 10); [lia|].
    destruct (Nat.ltb_spec (rx_buffer_idx st) (128 - 1)); [|lia].
    destruct (Z.leb_spec 32 c); [|lia]. destruct (Z.leb_spec c 126); [|lia].
    cbn [andb]. rewrite IH; cbn [rx_buffer rx_buffer_idx internal];
      rewrite ?length_insert; try lia.
    f_equal; [|simpl; lia]. apply store_at_insert. lia.
Qed.

(** A printable line that fits is handed to the parser as it was sent. *)
Lemma ble_line (st : ble_state) (line : list Z) :
  rx_buffer_idx st = 0%nat ->
  length (rx_buffer st) = BLE_RX_BUFFER_LEN ->
  Forall (fun c => printable c = true) line ->
  (0 < length line <= BLE_RX_BUFFER_LEN - 1)%nat ->
  internal (ble_feed st (line ++ [10])) = parse_ble_message (internal st) line
  /\ rx_buffer_idx (ble_feed st (line ++ [10])) = 0%nat
  /\ length (rx_buffer (ble_feed st (line ++ [10]))) = BLE_RX_BUFFER_LEN.
Proof.
  intros Hidx Hlen Hp Hl. unfold BLE_RX_BUFFER_LEN in *.
  rewrite ble_feed_app, (ble_feed_printable line st); rewrite ?Hidx, ?Hlen;
    unfold BLE_RX_BUFFER_LEN; try done; try lia.
  rewrite ble_feed_cons. cbn [ble_feed fold_left].
  unfold ble_rx_process_char, BLE_MSG_TERMINATOR.
  cbn [rx_buffer rx_buffer_idx internal]. change (10 =? 10) with true. cbv iota.
  destruct (Nat.ltb_spec 0 (0 + length line)); [|lia].
  cbn [rx_buffer rx_buffer_idx internal].
  rewrite insert_store_at by lia.
  split; [|split; [done|]].
  - f_equal. unfold store_at. rewrite take_0. cbn [app].
    rewrite <- app_assoc. cbn [app]. rewrite cstr_app_nul.
    apply cstr_nonzero. eapply Forall_impl; [exact Hp|].
    intros c Hc%printable_range. simpl. lia.
  - rewrite store_at_length; [done|]. rewrite length_app. simpl. lia.
Qed.

Lemma sscanf_nav_line (ins ds : list Z) :
  ins <> [] -> 44 ∉ ins -> (length ins <= 63)%nat ->
  ds <> [] -> Forall (fun d => isdigit d = true) ds ->
  sscanf_nav (ins ++ 44 :: ds) = (2, ins, decimal ds).
Proof.
  intros Hins H44 Hlen Hds Hdig. unfold sscanf_nav.
  rewrite span_not_app by done. rewrite take_ge by lia.
  destruct ins as [|i ins]; [done|].
  rewrite drop_app_length.
  rewrite <- (app_nil_r ds) at 1. by rewrite scan_uint_digits.
Qed.

Lemma sscanf_status_line (d1 d2 d3 : list Z) :
  d1 <> [] -> d2 <> [] -> d3 <> [] ->
  Forall (fun d => isdigit d = true) d1 ->
  Forall (fun d => isdigit d = true) d2 ->
  Forall (fun d => isdigit d = true) d3 ->
  sscanf_status (d1 ++ 44 :: d2 ++ 44 :: d3)
  = (3, decimal d1, decimal d2, decimal d3).
Proof.
  intros N1 N2 N3 D1 D2 D3. unfold sscanf_status.
  rewrite scan_uint_digits by done.
  rewrite scan_uint_digits by done.
  rewrite <- (app_nil_r d3) at 1. by rewrite scan_uint_digits.
Qed.

Lemma digit_printable (ds : list Z) :
  Forall (fun d => isdigit d = true) ds -> Forall (fun c => printable c = true) ds.
Proof.
  intros H. eapply Forall_impl; [exact H|].
  intros d Hd. simpl in Hd. unfold isdigit in Hd. unfold printable. lia.
Qed.

(** C6.  The bytes of "NAV:Turn left,120" and a newline, fed one at a time
    from the initial state, leave a nav record with instruction "Turn left"
    and distance 120 and the updated flag set; the get accessor copies that
    record out and returns true, the flag is clear right afterwards, and a
    second get returns false and changes nothing. *)
Theorem nav_round_trip :
  let st := ble_feed ble_rx_init (bytes "NAV:Turn left,120" ++ [10]) in
  let nav := current_nav_data (internal st) in
  cstr (instruction nav) = bytes "Turn left"
  /\ distance_m nav = 120
  /\ ble_rx_is_nav_available st = true
  /\ forall dst,
       let r := ble_rx_get_nav_data st (Some dst) in
       r.1.1 = true
       /\ r.1.2 = Some nav
       /\ ble_rx_is_nav_available r.2 = false
       /\ ble_rx_get_nav_data r.2 (Some dst) = (false, Some dst, r.2).
Proof.
  intros st nav.
  assert (nav_updated nav = true) as Hu by (vm_compute; reflexivity).
  assert (cstr (instruction nav) = bytes "Turn left") as Hi
    by (vm_compute; reflexivity).
  assert (distance_m nav = 120) as Hd by (vm_compute; reflexivity).
  clearbody st.
  split; [exact Hi|]. split; [exact Hd|]. split; [exact Hu|].
  intros dst. unfold ble_rx_get_nav_data, ble_rx_is_nav_available.
  fold nav. rewrite Hu. cbn [negb fst snd internal current_nav_data nav_updated].
  repeat split.
Qed.

Lemma status_prefix_not_nav (line : list Z) :
  strncmp_eq line (bytes "STATUS:") 7 = true ->
  strncmp_eq line (bytes "NAV:") 4 = false /\ (0 < length line)%nat.
Proof.
  unfold strncmp_eq. intros H%bool_decide_eq_true.
  assert (take 4 line = take 4 (bytes "STATUS:")) as E.
  { replace (take 4 line) with (take 4 (take 7 line)) by (by rewrite take_take).
    by rewrite H. }
  split.
  - apply bool_decide_eq_false. rewrite E. discriminate.
  - destruct line; [discriminate|simpl; lia].
Qed.

(** C7.  A STATUS line for which the three conversions do not all succeed
    is dropped as a whole: the status record with its flag, the nav record
    and the connection flag are what they were. *)
Theorem status_short_dropped (st : ble_state) (line : list Z) :
  rx_buffer_idx st = 0%nat ->
  length (rx_buffer st) = BLE_RX_BUFFER_LEN ->
  Forall (fun c => printable c = true) line ->
  (length line <= BLE_RX_BUFFER_LEN - 1)%nat ->
  strncmp_eq line (bytes "STATUS:") 7 = true ->
  (sscanf_status (drop 7 line)).1.1.1 < 3 ->
  internal (ble_feed st (line ++ [10])) = internal st
  /\ rx_buffer_idx (ble_feed st (line ++ [10])) = 0%nat.
Proof.
  intros Hidx Hlen Hp Hl Hpre Hcount.
  destruct (status_prefix_not_nav line Hpre) as [Hnav Hne].
  destruct (ble_line st line Hidx Hlen Hp ltac:(lia)) as (-> & -> & _).
  split; [|done]. unfold parse_ble_message. rewrite Hnav, Hpre.
  destruct (sscanf_status (drop 7 line)) as [[[cnt b] s] sp]. simpl in Hcount.
  by destruct (Z.eqb_spec cnt 3); [lia|].
Qed.

(** C9 (as amended).  A byte outside space..tilde other than the newline
    leaves the whole state as it is while the accumulator has room; when
    the accumulator is full (fill index 127) it takes the overflow branch,
    which resets the fill index and touches nothing else. *)
Theorem nonprintable_byte_effect (st : ble_state) (c : Z) :
  printable c = false -> c <> 10 ->
  ((rx_buffer_idx st < BLE_RX_BUFFER_LEN - 1)%nat ->
     ble_rx_process_char st c = st)
  /\ ((BLE_RX_BUFFER_LEN - 1 <= rx_buffer_idx st)%nat ->
        ble_rx_process_char st c =
          {| internal := internal st;
             rx_buffer := rx_buffer st;
             rx_buffer_idx := 0 |}).
Proof.
  intros Hp Hc. unfold ble_rx_process_char, BLE_MSG_TERMINATOR.
  destruct (Z.eqb_spec c 10); [done|].
  unfold printable in Hp. rewrite Hp.
  split; intros Hi.
  - by destruct (Nat.ltb_spec (rx_buffer_idx st) (BLE_RX_BUFFER_LEN - 1)); [|lia].
  - by destruct (Nat.ltb_spec (rx_buffer_idx st) (BLE_RX_BUFFER_LEN - 1)); [lia|].
Qed.

(** With 127 bytes accumulated, a non-printable byte does change the
    state: the line in progress is discarded. *)
Lemma nonprintable_when_full :
  ~ (ble_rx_process_char example_full 7 = example_full).
Proof.
  intros H. apply (f_equal rx_buffer_idx) in H. vm_compute in H. discriminate.
Qed.

(** A line accepted by either conversion stores the converted numbers
    narrowed to the width of their fields. *)
Lemma nav_line_stored (st : ble_state) (line ins : list Z) (v : Z) :
  rx_buffer_idx st = 0%nat ->
  length (rx_buffer st) = BLE_RX_BUFFER_LEN ->
  Forall (fun c => printable c = true) line ->
  (length line <= BLE_RX_BUFFER_LEN - 1)%nat ->
  strncmp_eq line (bytes "NAV:") 4 = true ->
  sscanf_nav (drop 4 line) = (2, ins, v) ->
  current_nav_data (internal (ble_feed st (line ++ [10])))
  = {| instruction :=
         strncpy (instruction (current_nav_data (internal st))) ins
           (INSTRUCTION_LEN - 1);
       distance_m := v mod 2 ^ 16;
       nav_updated := true |}.
Proof.
  intros Hidx Hlen Hp Hl Hpre Hscan.
  assert (0 < length line)%nat as Hne.
  { destruct line; [|simpl; lia]. by apply bool_decide_eq_true in Hpre. }
  destruct (ble_line st line Hidx Hlen Hp ltac:(lia)) as (-> & _).
  unfold parse_ble_message. by rewrite Hpre, Hscan.
Qed.

Lemma status_line_stored (st : ble_state) (line : list Z) (b s v : Z) :
  rx_buffer_idx st = 0%nat ->
  length (rx_buffer st) = BLE_RX_BUFFER_LEN ->
  Forall (fun c => printable c = true) line ->
  (length line <= BLE_RX_BUFFER_LEN - 1)%nat ->
  strncmp_eq line (bytes "STATUS:") 7 = true ->
  sscanf_status (drop 7 line) = (3, b, s, v) ->
  current_status_data (internal (ble_feed st (line ++ [10])))
  = {| battery_mv := b mod 2 ^ 16;
       signal_status := s mod 2 ^ 8;
       speed_kmh := v mod 2 ^ 8;
       status_updated := true |}.
Proof.
  intros Hidx Hlen Hp Hl Hpre Hscan.
  destruct (status_prefix_not_nav line Hpre) as [Hnav Hne].
  destruct (ble_line st line Hidx Hlen Hp ltac:(lia)) as (-> & _).
  unfold parse_ble_message. by rewrite Hnav, Hpre, Hscan.
Qed.

Lemma nav_wire_line (ins ds : list Z) :
  Forall (fun c => printable c = true) ins ->
  Forall (fun d => isdigit d = true) ds ->
  Forall (fun c => printable c = true) (bytes "NAV:" ++ ins ++ 44 :: ds).
Proof.
  intros Hp Hd. change (bytes "NAV:") with [78; 65; 86; 58].
  repeat (apply Forall_cons; split; [done|]).
  apply Forall_app. split; [done|].
  apply Forall_cons. split; [done|]. by apply digit_printable.
Qed.

Lemma status_wire_line (d1 d2 d3 : list Z) :
  Forall (fun d => isdigit d = true) d1 ->
  Forall (fun d => isdigit d = true) d2 ->
  Forall (fun d => isdigit d = true) d3 ->
  Forall (fun c => printable c = true)
    (bytes "STATUS:" ++ d1 ++ 44 :: d2 ++ 44 :: d3).
Proof.
  intros D1 D2 D3. change (bytes "STATUS:") with [83; 84; 65; 84; 85; 83; 58].
  repeat (apply Forall_cons; split; [done|]).
  apply Forall_app. split; [by apply digit_printable|].
  apply Forall_cons. split; [done|].
  apply Forall_app. split; [by apply digit_printable|].
  apply Forall_cons. split; [done|]. by apply digit_printable.
Qed.

(** C10.  The numbers of a telemetry line are narrowed to the width of
    their field, not range checked.  Whatever NAV line the conversion
    accepts, the distance stored is the converted value modulo 2^16, and
    whatever STATUS line it accepts, the battery value is stored modulo
    2^16, signal and speed modulo 2^8; the updated flag is set.  For the
    lines of the wire format (NAV:text,digits and STATUS:digits,digits,
    digits) the converted values are the numbers the digits denote, however
    large. *)
Theorem telemetry_fields_truncated :
  (forall st line ins v,
     rx_buffer_idx st = 0%nat ->
     length (rx_buffer st) = BLE_RX_BUFFER_LEN ->
     Forall (fun c => printable c = true) line ->
     (length line <= BLE_RX_BUFFER_LEN - 1)%nat ->
     strncmp_eq line (bytes "NAV:") 4 = true ->
     sscanf_nav (drop 4 line) = (2, ins, v) ->
     let st' := ble_feed st (line ++ [10]) in
     distance_m (current_nav_data (internal st')) = v mod 2 ^ 16
     /\ nav_updated (current_nav_data (internal st')) = true)
  /\ (forall st line b s v,
        rx_buffer_idx st = 0%nat ->
        length (rx_buffer st) = BLE_RX_BUFFER_LEN ->
        Forall (fun c => printable c = true) line ->
        (length line <= BLE_RX_BUFFER_LEN - 1)%nat ->
        strncmp_eq line (bytes "STATUS:") 7 = true ->
        sscanf_status (drop 7 line) = (3, b, s, v) ->
        let st' := ble_feed st (line ++ [10]) in
        battery_mv (current_status_data (internal st')) = b mod 2 ^ 16
        /\ signal_status (current_status_data (internal st')) = s mod 2 ^ 8
        /\ speed_kmh (current_status_data (internal st')) = v mod 2 ^ 8
        /\ status_updated (current_status_data (internal st')) = true)
  /\ (forall st ins ds,
        rx_buffer_idx st = 0%nat ->
        length (rx_buffer st) = BLE_RX_BUFFER_LEN ->
        ins <> [] -> Forall (fun c => printable c = true) ins -> 44 ∉ ins ->
        (length ins <= 63)%nat ->
        ds <> [] -> Forall (fun d => isdigit d = true) ds ->
        (length ins + length ds <= 122)%nat ->
        let st' := ble_feed st ((bytes "NAV:" ++ ins ++ 44 :: ds) ++ [10]) in
        distance_m (current_nav_data (internal st')) = decimal ds mod 2 ^ 16
        /\ nav_updated (current_nav_data (internal st')) = true)
  /\ (forall st d1 d2 d3,
        rx_buffer_idx st = 0%nat ->
        length (rx_buffer st) = BLE_RX_BUFFER_LEN ->
        d1 <> [] -> d2 <> [] -> d3 <> [] ->
        Forall (fun d => isdigit d = true) d1 ->
        Forall (fun d => isdigit d = true) d2 ->
        Forall (fun d => isdigit d = true) d3 ->
        (length d1 + length d2 + length d3 <= 118)%nat ->
        let st' :=
          ble_feed st ((bytes "STATUS:" ++ d1 ++ 44 :: d2 ++ 44 :: d3) ++ [10]) in
        battery_mv (current_status_data (internal st')) = decimal d1 mod 2 ^ 16
        /\ signal_status (current_status_data (internal st')) = decimal d2 mod 2 ^ 8
        /\ speed_kmh (current_status_data (internal st')) = decimal d3 mod 2 ^ 8
        /\ status_updated (current_status_data (internal st')) = true).
Proof.
  split; [|split; [|split]].
  - intros st line ins v Hidx Hlen Hp Hl Hpre Hscan st'. subst st'.
    by rewrite (nav_line_stored st line ins v).
  - intros st line b s v Hidx Hlen Hp Hl Hpre Hscan st'. subst st'.
    by rewrite (status_line_stored st line b s v).
  - intros st ins ds Hidx Hlen Hins Hp H44 Hl Hds Hdig Htot st'. subst st'.
    rewrite (nav_line_stored st _ ins (decimal ds)); try done.
    + by apply nav_wire_line.
    + rewrite !length_app. simpl. unfold BLE_RX_BUFFER_LEN. lia.
    + change (bytes "NAV:") with [78; 65; 86; 58]. cbn [app drop].
      rewrite drop_0. by apply sscanf_nav_line.
  - intros st d1 d2 d3 Hidx Hlen N1 N2 N3 D1 D2 D3 Htot st'. subst st'.
    rewrite (status_line_stored st _ (decimal d1) (decimal d2) (decimal d3));
      try done.
    + by apply status_wire_line.
    + rewrite !length_app. simpl. rewrite !length_app. simpl.
      unfold BLE_RX_BUFFER_LEN. lia.
    + change (bytes "STATUS:") with [83; 84; 65; 84; 85; 83; 58]. cbn [app drop].
      rewrite drop_0. by apply sscanf_status_line.
Qed.

Lemma status_short_dropped_witness :
  rx_buffer_idx example_after_status = 0%nat
  /\ length (rx_buffer example_after_status) = BLE_RX_BUFFER_LEN
  /\ Forall (fun c => printable c = true) (bytes "STATUS:100,2")
  /\ (length (bytes "STATUS:100,2") <= BLE_RX_BUFFER_LEN - 1)%nat
  /\ strncmp_eq (bytes "STATUS:100,2") (bytes "STATUS:") 7 = true
  /\ (sscanf_status (drop 7 (bytes "STATUS:100,2"))).1.1.1 < 3
  /\ (internal (ble_feed example_after_status (bytes "STATUS:100,2" ++ [10]))
      = internal example_after_status
      /\ rx_buffer_idx (ble_feed example_after_status (bytes "STATUS:100,2" ++ [10]))
         = 0%nat)
  /\ current_status_data (internal example_after_status) = mkStatus 3700 1 45 true.
Proof.
  assert (rx_buffer_idx example_after_status = 0%nat) as H1
    by (vm_compute; reflexivity).
  assert (length (rx_buffer example_after_status) = BLE_RX_BUFFER_LEN) as H2
    by (vm_compute; reflexivity).
  assert (Forall (fun c => printable c = true) (bytes "STATUS:100,2")) as H3
    by (apply (bool_decide_unpack _); vm_compute; exact I).
  assert (length (bytes "STATUS:100,2") <= BLE_RX_BUFFER_LEN - 1)%nat as H4
    by (apply Nat.leb_le; reflexivity).
  assert (strncmp_eq (bytes "STATUS:100,2") (bytes "STATUS:") 7 = true) as H5
    by (vm_compute; reflexivity).
  assert ((sscanf_status (drop 7 (bytes "STATUS:100,2"))).1.1.1 < 3) as H6
    by (vm_compute; reflexivity).
  split; [exact H1|]. split; [exact H2|]. split; [exact H3|].
  split; [exact H4|]. split; [exact H5|]. split; [exact H6|].
  split.
  - exact (status_short_dropped example_after_status (bytes "STATUS:100,2")
             H1 H2 H3 H4 H5 H6).
  - vm_compute. reflexivity.
Defined.

Lemma nonprintable_byte_effect_witness :
  printable 7 = false /\ 7 <> 10
  /\ (rx_buffer_idx ble_rx_init < BLE_RX_BUFFER_LEN - 1)%nat
  /\ ble_rx_process_char ble_rx_init 7 = ble_rx_init
  /\ (BLE_RX_BUFFER_LEN - 1 <= rx_buffer_idx example_full)%nat
  /\ ble_rx_process_char example_full 7
     = {| internal := internal example_full;
          rx_buffer := rx_buffer example_full;
          rx_buffer_idx := 0 |}.
Proof.
  assert (printable 7 = false) as H1 by reflexivity.
  assert (7 <> 10) as H2 by discriminate.
  assert (rx_buffer_idx ble_rx_init < BLE_RX_BUFFER_LEN - 1)%nat as H3
    by (apply Nat.ltb_lt; reflexivity).
  assert (BLE_RX_BUFFER_LEN - 1
          <= rx_buffer_idx example_full)%nat as H4
    by (apply Nat.leb_le; vm_compute; reflexivity).
  split; [exact H1|]. split; [exact H2|]. split; [exact H3|].
  split; [exact (proj1 (nonprintable_byte_effect ble_rx_init 7 H1 H2) H3)|].
  split; [exact H4|].
  exact (proj2 (nonprintable_byte_effect
                  example_full 7 H1 H2) H4).
Defined.

Lemma telemetry_fields_truncated_witness :
  (let st' := ble_feed ble_rx_init
                ((bytes "NAV:" ++ bytes "Turn left" ++ 44 :: bytes "70000") ++ [10]) in
   distance_m (current_nav_data (internal st')) = decimal (bytes "70000") mod 2 ^ 16
   /\ nav_updated (current_nav_data (internal st')) = true)
  /\ decimal (bytes "70000") mod 2 ^ 16 = 4464
  /\ (let st' := ble_feed ble_rx_init
                   ((bytes "STATUS:" ++ bytes "70000" ++ 44 :: bytes "258"
                       ++ 44 :: bytes "300") ++ [10]) in
      battery_mv (current_status_data (internal st')) = decimal (bytes "70000") mod 2 ^ 16
      /\ signal_status (current_status_data (internal st')) = decimal (bytes "258") mod 2 ^ 8
      /\ speed_kmh (current_status_data (internal st')) = decimal (bytes "300") mod 2 ^ 8
      /\ status_updated (current_status_data (internal st')) = true).
Proof.
  split; [|split; [vm_compute; reflexivity|]].
  - apply (proj1 (proj2 (proj2 telemetry_fields_truncated)) ble_rx_init
             (bytes "Turn left") (bytes "70000")).
    + reflexivity.
    + reflexivity.
    + discriminate.
    + apply (bool_decide_unpack _); vm_compute; exact I.
    + apply (bool_decide_unpack _); vm_compute; exact I.
    + apply Nat.leb_le; reflexivity.
    + discriminate.
    + apply (bool_decide_unpack _); vm_compute; exact I.
    + apply Nat.leb_le; reflexivity.
  - apply (proj2 (proj2 (proj2 telemetry_fields_truncated)) ble_rx_init
             (bytes "70000") (bytes "258") (bytes "300")).
    + reflexivity.
    + reflexivity.
    + discriminate.
    + discriminate.
    + discriminate.
    + apply (bool_decide_unpack _); vm_compute; exact I.
    + apply (bool_decide_unpack _); vm_compute; exact I.
    + apply (bool_decide_unpack _); vm_compute; exact I.
    + apply Nat.leb_le; reflexivity.
Defined.

End BleRxProofs.

(** ** The ring buffer: peek, clear and the bulk operations *)

Module RingBufferBulk.

Import RingBuffer.

(** The two copies of a bulk loop differ in where they test for a full
    (or empty) buffer, not in what they compute. *)
Lemma write_loop_brain_display (rb_bits : Z) (fuel : nat)
    (rb : option ring_buffer_t) (data : list Z) (len bw : Z)
    (x : Z * option ring_buffer_t) :
  write_multi_loop rb_bits fuel rb data len bw = Some x ->
  write_multi_loop_display rb_bits (S fuel) rb data len bw = Some x.
Proof.
  revert rb bw. induction fuel as [|fuel IH]; intros rb bw.
  - cbn [write_multi_loop write_multi_loop_display].
    destruct (bw <? len); cbn [andb]; [|done].
    destruct rb as [r|]; cbn [ring_buffer_is_full negb ring_buffer_write].
    + destruct (count r =? size r); cbn [negb]; done.
    + done.
  - intros H. cbn [write_multi_loop] in H.
    change (write_multi_loop_display rb_bits (S (S fuel)) rb data len bw)
      with (if bw <? len then
              let '(ok, rb') :=
                ring_buffer_write rb_bits rb (CStr.get data (Z.to_nat bw)) in
              if ok
              then write_multi_loop_display rb_bits (S fuel) rb' data len
                     (rb_wrap rb_bits (bw + 1))
              else Some (bw, rb')
            else Some (bw, rb)).
    destruct (bw <? len); cbn [andb] in H; [|done].
    destruct rb as [r|]; cbn [ring_buffer_is_full negb ring_buffer_write] in *.
    + destruct (count r =? size r); cbn [negb] in *; [done|]. by apply IH.
    + done.
Qed.

Lemma write_loop_display_brain (rb_bits : Z) (fuel : nat)
    (rb : option ring_buffer_t) (data : list Z) (len bw : Z)
    (x : Z * option ring_buffer_t) :
  write_multi_loop_display rb_bits fuel rb data len bw = Some x ->
  write_multi_loop rb_bits fuel rb data len bw = Some x.
Proof.
  revert rb bw. induction fuel as [|fuel IH]; intros rb bw;
    cbn [write_multi_loop write_multi_loop_display];
    destruct (bw <? len); cbn [andb]; try done;
    destruct rb as [r|]; cbn [ring_buffer_is_full negb ring_buffer_write];
    try done.
  destruct (count r =? size r); cbn [negb]; [done|]. apply IH.
Qed.

Lemma read_loop_brain_display (rb_bits : Z) (fuel : nat)
    (rb : option ring_buffer_t) (out : list Z) (len br : Z)
    (x : Z * list Z * option ring_buffer_t) :
  read_multi_loop rb_bits fuel rb out len br = Some x ->
  read_multi_loop_display rb_bits (S fuel) rb out len br = Some x.
Proof.
  revert rb out br. induction fuel as [|fuel IH]; intros rb out br.
  - cbn [read_multi_loop read_multi_loop_display].
    destruct (br <? len); cbn [andb]; [|done].
    destruct rb as [r|]; cbn [ring_buffer_is_empty negb ring_buffer_read].
    + destruct (count r =? 0); cbn [negb]; done.
    + done.
  - intros H. cbn [read_multi_loop] in H.
    change (read_multi_loop_display rb_bits (S (S fuel)) rb out len br)
      with (if br <? len then
              let i := Z.to_nat br in
              let '(ok, slot, rb') :=
                ring_buffer_read rb_bits rb (Some (CStr.get out i)) in
              if ok
              then read_multi_loop_display rb_bits (S fuel) rb'
                     (<[i := default 0 slot]> out) len
                     (rb_wrap rb_bits (br + 1))
              else Some (br, out, rb')
            else Some (br, out, rb)).
    destruct (br <? len); cbn [andb] in H; [|done].
    destruct rb as [r|]; cbn [ring_buffer_is_empty negb ring_buffer_read] in *.
    + destruct (count r =? 0); cbn [negb] in *; [done|]. by apply IH.
    + done.
Qed.

Lemma read_loop_display_brain (rb_bits : Z) (fuel : nat)
    (rb : option ring_buffer_t) (out : list Z) (len br : Z)
    (x : Z * list Z * option ring_buffer_t) :
  read_multi_loop_display rb_bits fuel rb out len br = Some x ->
  read_multi_loop rb_bits fuel rb out len br = Some x.
Proof.
  revert rb out br. induction fuel as [|fuel IH]; intros rb out br;
    cbn [read_multi_loop read_multi_loop_display];
    destruct (br <? len); cbn [andb]; try done;
    destruct rb as [r|]; cbn [ring_buffer_is_empty negb ring_buffer_read];
    try done.
  destruct (count r =? 0); cbn [negb]; [done|]. apply IH.
Qed.


Section Capacity.

Variable rb_bits : Z.
Variable N : Z.
Hypothesis N_pos : 0 < N.
Hypothesis N_fits : N < rb_modulus rb_bits.

Lemma contents_lookup (r : ring_buffer_t) (k : nat) :
  (k < Z.to_nat (count r))%nat ->
  contents r !! k
  = Some (CStr.get (buffer r) (Z.to_nat ((tail r + Z.of_nat k) mod size r))).
Proof.
  intros Hk. unfold contents. rewrite list_lookup_fmap.
  rewrite lookup_seq_lt by done. done.
Qed.

Lemma write_full (r : ring_buffer_t) (d : Z) :
  rb_inv N r -> N <= count r ->
  ring_buffer_write rb_bits (Some r) d = (false, Some r).
Proof.
  intros [Hs Hc _ _ _] Hge. unfold ring_buffer_write, ring_buffer_is_full.
  destruct (Z.eqb_spec (count r) (size r)); [done|lia].
Qed.

Lemma read_empty (r : ring_buffer_t) (x : Z) :
  rb_inv N r -> count r <= 0 ->
  ring_buffer_read rb_bits (Some r) (Some x) = (false, Some x, Some r).
Proof.
  intros [Hs Hc _ _ _] Hge. unfold ring_buffer_read, ring_buffer_is_empty.
  destruct (Z.eqb_spec (count r) 0); [done|lia].
Qed.

Lemma write_multi_loop_spec (fuel : nat) (r : ring_buffer_t) (data : list Z)
    (len bw : Z) :
  rb_inv N r -> 0 <= bw <= len -> len < rb_modulus rb_bits ->
  (Z.to_nat len <= length data)%nat ->
  let n := Z.min (len - bw) (N - count r) in
  (Z.to_nat n <= fuel)%nat ->
  exists r',
    write_multi_loop rb_bits fuel (Some r) data len bw = Some (bw + n, Some r')
    /\ rb_inv N r'
    /\ contents r' = contents r ++ take (Z.to_nat n) (drop (Z.to_nat bw) data).
Proof.
  revert r bw. induction fuel as [|fuel IH]; intros r bw Hr Hbw Hlen Hdata n Hfuel.
  - assert (n = 0) as Hn0.
    { destruct Hr as [_ Hc _ _ _]. subst n. lia. }
    exists r. cbn [write_multi_loop]. cbn [ring_buffer_is_full].
    assert ((bw <? len) && negb (count r =? size r) = false) as ->.
    { destruct Hr as [Hs Hc _ _ _]. subst n.
      destruct (Z.ltb_spec bw len); [|done].
      destruct (Z.eqb_spec (count r) (size r)); [done|lia]. }
    rewrite Hn0, Z.add_0_r. cbn [Z.to_nat take]. rewrite take_0, app_nil_r. done.
  - cbn [write_multi_loop]. cbn [ring_buffer_is_full].
    pose proof Hr as [Hs Hc _ _ _].
    destruct (Z.ltb_spec bw len) as [Hlt|Hge]; cbn [andb].
    + destruct (Z.eqb_spec (count r) (size r)) as [Hfull|Hroom]; cbn [negb].
      * exists r. assert (n = 0) as -> by (subst n; lia).
        rewrite Z.add_0_r. cbn [Z.to_nat]. rewrite take_0, app_nil_r. done.
      * destruct (RingBufferProofs.write_contents rb_bits N N_pos N_fits r (CStr.get data (Z.to_nat bw)) Hr ltac:(lia))
          as (r1 & -> & Hr1 & Hc1).
        assert (rb_wrap rb_bits (bw + 1) = bw + 1) as ->
          by (apply Z.mod_small; lia).
        assert (count r1 = count r + 1) as Hn1.
        { rewrite (RingBufferProofs.count_contents N r1 Hr1), Hc1, length_app, (RingBufferProofs.count_contents N r Hr).
          simpl. lia. }
        destruct (IH r1 (bw + 1) Hr1 ltac:(lia) Hlen Hdata) as (r' & E & Hr' & Hc').
        { rewrite Hn1. subst n. lia. }
        exists r'. rewrite E. split; [|split; [done|]].
        { do 2 f_equal. rewrite Hn1. subst n. lia. }
        rewrite Hc', Hc1, <- app_assoc. f_equal. rewrite Hn1.
        replace (Z.to_nat n) with (S (Z.to_nat (Z.min (len - (bw + 1)) (N - (count r + 1)))))
          by (subst n; lia).
        destruct (lookup_lt_is_Some_2 data (Z.to_nat bw) ltac:(lia)) as [v Hv].
        rewrite (drop_S data v (Z.to_nat bw) Hv). cbn [take app].
        unfold CStr.get. rewrite Hv. cbn [default].
        by replace (Z.to_nat (bw + 1)) with (S (Z.to_nat bw)) by lia.
    + exists r. assert (n = 0) as -> by (subst n; lia).
      rewrite Z.add_0_r. cbn [Z.to_nat]. rewrite take_0, app_nil_r. done.
Qed.

Lemma read_multi_loop_spec (fuel : nat) (r : ring_buffer_t) (out : list Z)
    (len br : Z) :
  rb_inv N r -> 0 <= br <= len -> len < rb_modulus rb_bits ->
  (Z.to_nat len <= length out)%nat ->
  let n := Z.min (len - br) (count r) in
  (Z.to_nat n <= fuel)%nat ->
  exists r',
    read_multi_loop rb_bits fuel (Some r) out len br
    = Some (br + n,
            CStr.store_at out (Z.to_nat br) (take (Z.to_nat n) (contents r)),
            Some r')
    /\ rb_inv N r'
    /\ contents r' = drop (Z.to_nat n) (contents r).
Proof.
  revert r out br. induction fuel as [|fuel IH];
    intros r out br Hr Hbr Hlen Hout n Hfuel.
  - assert (n = 0) as Hn0.
    { destruct Hr as [_ Hc _ _ _]. subst n. lia. }
    exists r. cbn [read_multi_loop]. cbn [ring_buffer_is_empty].
    assert ((br <? len) && negb (count r =? 0) = false) as ->.
    { destruct Hr as [Hs Hc _ _ _]. subst n.
      destruct (Z.ltb_spec br len); [|done].
      destruct (Z.eqb_spec (count r) 0); [done|lia]. }
    rewrite Hn0, Z.add_0_r. cbn [Z.to_nat]. rewrite take_0, drop_0.
    by rewrite CStrFacts.store_at_nil.
  - cbn [read_multi_loop]. cbn [ring_buffer_is_empty].
    pose proof Hr as [Hs Hc _ _ _].
    destruct (Z.ltb_spec br len) as [Hlt|Hge]; cbn [andb].
    + destruct (Z.eqb_spec (count r) 0) as [Hempty|Hsome]; cbn [negb].
      * exists r. assert (n = 0) as -> by (subst n; lia).
        rewrite Z.add_0_r. cbn [Z.to_nat]. rewrite take_0, drop_0.
        by rewrite CStrFacts.store_at_nil.
      * destruct (RingBufferProofs.read_contents rb_bits N N_pos N_fits r (CStr.get out (Z.to_nat br)) Hr ltac:(lia))
          as (v & r1 & -> & Hr1 & Hc1).
        assert (rb_wrap rb_bits (br + 1) = br + 1) as ->
          by (apply Z.mod_small; lia).
        assert (count r = count r1 + 1) as Hn1.
        { rewrite (RingBufferProofs.count_contents N r1 Hr1), (RingBufferProofs.count_contents N r Hr), Hc1.
          simpl. lia. }
        change (default 0 (Some v)) with v.
        destruct (IH r1 (<[Z.to_nat br := v]> out) (br + 1) Hr1 ltac:(lia) Hlen)
          as (r' & E & Hr' & Hc').
        { rewrite length_insert. lia. }
        { subst n. lia. }
        exists r'. rewrite E.
        replace (Z.to_nat n)
          with (S (Z.to_nat (Z.min (len - (br + 1)) (count r1))))
          by (subst n; lia).
        split; [|split; [done|]].
        { replace (br + 1 + Z.min (len - (br + 1)) (count r1)) with (br + n)
            by (subst n; lia).
          do 3 f_equal. rewrite Hc1. cbn [take].
          replace (Z.to_nat (br + 1)) with (S (Z.to_nat br)) by lia.
          apply CStrFacts.store_at_insert. lia. }
        rewrite Hc', Hc1. done.
    + exists r. assert (n = 0) as -> by (subst n; lia).
      rewrite Z.add_0_r. cbn [Z.to_nat]. rewrite take_0, drop_0.
      by rewrite CStrFacts.store_at_nil.
Qed.

(** X1.  [ring_buffer_peek] looks into the queue without consuming: on a
    buffer of capacity [N] (with twice [N] within the range of the size
    type, so that the index sum does not wrap) a peek at [offset] yields
    the byte that the read after [offset] further reads would return, and
    fails, leaving the destination alone, when fewer bytes are queued. *)
Theorem peek_reads_queue (r : ring_buffer_t) (x offset : Z) :
  rb_inv N r -> 2 * N <= rb_modulus rb_bits -> 0 <= offset ->
  ring_buffer_peek rb_bits (Some r) (Some x) offset
  = match contents r !! Z.to_nat offset with
    | Some v => (true, Some v)
    | None => (false, Some x)
    end.
Proof.
  intros Hr H2 Hoff. pose proof Hr as [Hs Hc Ht _ _].
  unfold ring_buffer_peek.
  destruct (Z.leb_spec (count r) offset) as [Hge|Hlt].
  - rewrite lookup_ge_None_2; [done|].
    rewrite RingBufferProofs.contents_length. lia.
  - rewrite contents_lookup by lia.
    rewrite Z2Nat.id by lia.
    unfold rb_wrap. rewrite (Z.mod_small (tail r + offset)) by lia. done.
Qed.

(** X2.  [ring_buffer_clear] discards what is queued and leaves a working
    buffer of the same capacity: it is empty with all [N] slots free, and
    in every run of writes and reads that follows, the bytes written are
    the bytes read, in order, followed by the bytes still queued; no byte
    queued before the clear is read afterwards. *)
Theorem clear_discards_queue (r : ring_buffer_t) (cs : list rb_call) :
  rb_inv N r ->
  exists r0 r',
    ring_buffer_clear (Some r) = Some r0
    /\ ring_buffer_is_empty (Some r0) = true
    /\ ring_buffer_space_remaining rb_bits (Some r0) = N
    /\ (run rb_bits (Some r0) cs).1.1 = Some r'
    /\ (run rb_bits (Some r0) cs).1.2
       = (run rb_bits (Some r0) cs).2 ++ contents r'.
Proof.
  intros [Hs Hc Ht Hh Hl].
  set (r0 := {| buffer := buffer r; size := size r;
                head := 0; tail := 0; count := 0 |}).
  assert (rb_inv N r0) as Hr0.
  { constructor; cbn; try done; lia. }
  destruct (RingBufferProofs.run_fifo rb_bits N N_pos N_fits cs r0 Hr0)
    as (r' & E & _ & Hq).
  exists r0, r'. split; [done|]. split; [done|]. split.
  - cbn. rewrite Z.sub_0_r, Hs. apply Z.mod_small. lia.
  - split; [done|]. by rewrite <- Hq.
Qed.

(** X3.  [ring_buffer_write_multi] (brain module) queues as many of the
    [len] bytes as there is room for: it returns the smaller of [len] and
    the free space, and the queue afterwards is the queue before followed
    by that many bytes of [data], in order.  The loop ends within [len]
    iterations. *)
Theorem write_multi_appends (fuel : nat) (r : ring_buffer_t) (data : list Z)
    (len : Z) :
  rb_inv N r -> 0 <= len < rb_modulus rb_bits ->
  (Z.to_nat len <= length data)%nat -> (Z.to_nat len <= fuel)%nat ->
  let n := Z.min len (N - count r) in
  exists r',
    ring_buffer_write_multi rb_bits fuel (Some r) (Some data) len
    = Some (n, Some r')
    /\ rb_inv N r'
    /\ contents r' = contents r ++ take (Z.to_nat n) data.
Proof.
  intros Hr Hlen Hdata Hfuel n. pose proof Hr as [Hs Hc _ _ _].
  unfold ring_buffer_write_multi.
  destruct (Z.eqb_spec len 0) as [E|E].
  - exists r. assert (n = 0) as -> by (subst n; lia).
    cbn [Z.to_nat]. rewrite take_0, app_nil_r. done.
  - destruct (write_multi_loop_spec fuel r data len 0 Hr ltac:(lia)
                ltac:(lia) Hdata) as (r' & E' & Hr' & Hc').
    { lia. }
    exists r'. rewrite E'. rewrite Z.sub_0_r in *. cbn [Z.to_nat] in Hc'.
    rewrite drop_0 in Hc'. done.
Qed.

(** X4.  [ring_buffer_read_multi] (brain module) dequeues as many bytes as
    are asked for and queued: it returns the smaller of [len] and the
    count, the destination array starts with that many bytes from the front
    of the queue, in order, and is unchanged behind them, and the queue
    afterwards is the rest.  The loop ends within [len] iterations. *)
Theorem read_multi_takes (fuel : nat) (r : ring_buffer_t) (out : list Z)
    (len : Z) :
  rb_inv N r -> 0 <= len < rb_modulus rb_bits ->
  (Z.to_nat len <= length out)%nat -> (Z.to_nat len <= fuel)%nat ->
  let n := Z.min len (count r) in
  exists r',
    ring_buffer_read_multi rb_bits fuel (Some r) (Some out) len
    = Some (n, Some (take (Z.to_nat n) (contents r) ++ drop (Z.to_nat n) out),
            Some r')
    /\ rb_inv N r'
    /\ contents r' = drop (Z.to_nat n) (contents r).
Proof.
  intros Hr Hlen Hout Hfuel n. pose proof Hr as [Hs Hc _ _ _].
  unfold ring_buffer_read_multi.
  destruct (Z.eqb_spec len 0) as [E|E].
  - exists r. assert (n = 0) as -> by (subst n; lia).
    cbn [Z.to_nat]. rewrite take_0, !drop_0. done.
  - destruct (read_multi_loop_spec fuel r out len 0 Hr ltac:(lia)
                ltac:(lia) Hout) as (r' & E' & Hr' & Hc').
    { lia. }
    exists r'. rewrite E'. rewrite Z.sub_0_r in *. fold n. fold n in Hc'.
    split; [|done]. do 3 f_equal.
    unfold CStr.store_at. cbn [Z.to_nat]. rewrite take_0. cbn [app Nat.add].
    rewrite length_take, RingBufferProofs.contents_length.
    rewrite Nat.min_l by (subst n; lia). done.
Qed.

(** X6.  What [ring_buffer_write_multi] queues into a freshly initialised
    buffer, [ring_buffer_read_multi] hands back: for data that fit the
    capacity both calls return the length, the destination array starts
    with the data, and the buffer is empty again. *)
Theorem bulk_round_trip (fuel : nat) (r0 : ring_buffer_t)
    (storage data out : list Z) :
  Z.of_nat (length storage) = N ->
  Z.of_nat (length data) <= N ->
  (length data <= length out)%nat ->
  (length data <= fuel)%nat ->
  let len := Z.of_nat (length data) in
  exists r1 r2,
    ring_buffer_write_multi rb_bits fuel
      (ring_buffer_init (Some r0) (Some storage) N) (Some data) len
    = Some (len, Some r1)
    /\ ring_buffer_read_multi rb_bits fuel (Some r1) (Some out) len
       = Some (len, Some (data ++ drop (length data) out), Some r2)
    /\ ring_buffer_is_empty (Some r2) = true.
Proof.
  intros Hst Hfit Hout Hfuel len.
  destruct (RingBufferProofs.init_inv rb_bits N N_pos N_fits r0 storage Hst)
    as (r & -> & Hr & Hc0 & Hn0).
  assert (Z.to_nat len = length data) as Hl by (subst len; lia).
  assert (exists r1,
            ring_buffer_write_multi rb_bits fuel (Some r) (Some data) len
            = Some (len, Some r1)
            /\ rb_inv N r1 /\ contents r1 = data) as (r1 & E1 & Hr1 & Hc1).
  { unfold ring_buffer_write_multi. destruct (Z.eqb_spec len 0) as [E|E].
    - exists r. rewrite E. split; [done|]. split; [done|].
      rewrite Hc0. destruct data; [done|]. subst len. cbn in E. lia.
    - destruct (write_multi_loop_spec fuel r data len 0 Hr) as (r1 & E1 & Hr1 & Hc1);
        try lia.
      exists r1. rewrite Hn0, !Z.sub_0_r, Z.min_l in E1, Hc1 by lia.
      rewrite Hc0, Hl, drop_0, firstn_all in Hc1. done. }
  assert (count r1 = len) as Hn1.
  { rewrite (RingBufferProofs.count_contents N r1 Hr1), Hc1. done. }
  assert (exists r2,
            ring_buffer_read_multi rb_bits fuel (Some r1) (Some out) len
            = Some (len, Some (data ++ drop (length data) out), Some r2)
            /\ rb_inv N r2 /\ contents r2 = []) as (r2 & E2 & Hr2 & Hc2).
  { unfold ring_buffer_read_multi. destruct (Z.eqb_spec len 0) as [E|E].
    - exists r1. rewrite E. destruct data; [|subst len; cbn in E; lia].
      rewrite drop_0. done.
    - destruct (read_multi_loop_spec fuel r1 out len 0 Hr1) as (r2 & E2 & Hr2 & Hc2);
        try lia.
      exists r2. rewrite Hn1, !Z.sub_0_r, Z.min_id in E2, Hc2.
      rewrite Hc1, Hl, firstn_all in E2. rewrite Hc1, Hl, drop_all in Hc2.
      rewrite E2. split; [|done]. by do 3 f_equal. }
  exists r1, r2. split; [done|]. split; [done|].
  cbn. rewrite (RingBufferProofs.count_contents N r2 Hr2), Hc2. done.
Qed.

End Capacity.

(** X5.  The brain module and the display module carry different loops
    for the two bulk operations (the brain tests for a full or empty
    buffer before each single write or read, the display lets the single
    operation fail); on every buffer and every input they compute the same
    result, the display's loop taking one iteration more to see the
    end. *)
Theorem bulk_copies_agree (rb_bits : Z) (fuel : nat)
    (rb : option ring_buffer_t) (data out : option (list Z)) (len : Z) :
  (forall x,
     ring_buffer_write_multi rb_bits fuel rb data len = Some x ->
     ring_buffer_write_multi_display rb_bits (S fuel) rb data len = Some x)
  /\ (forall x,
        ring_buffer_write_multi_display rb_bits fuel rb data len = Some x ->
        ring_buffer_write_multi rb_bits fuel rb data len = Some x)
  /\ (forall y,
        ring_buffer_read_multi rb_bits fuel rb out len = Some y ->
        ring_buffer_read_multi_display rb_bits (S fuel) rb out len = Some y)
  /\ (forall y,
        ring_buffer_read_multi_display rb_bits fuel rb out len = Some y ->
        ring_buffer_read_multi rb_bits fuel rb out len = Some y).
Proof.
  unfold ring_buffer_write_multi, ring_buffer_write_multi_display,
    ring_buffer_read_multi, ring_buffer_read_multi_display.
  split; [|split; [|split]]; intros x.
  - destruct rb as [r|], data as [d|]; try done.
    destruct (len =? 0); [done|]. apply write_loop_brain_display.
  - destruct rb as [r|], data as [d|]; try done.
    destruct (len =? 0); [done|]. apply write_loop_display_brain.
  - destruct rb as [r|], out as [o|]; try done.
    destruct (len =? 0); [done|].
    destruct (read_multi_loop rb_bits fuel (Some r) o len 0)
      as [[[n o'] rb']|] eqn:E; [|done].
    by rewrite (read_loop_brain_display _ _ _ _ _ _ _ E).
  - destruct rb as [r|], out as [o|]; try done.
    destruct (len =? 0); [done|].
    destruct (read_multi_loop_display rb_bits fuel (Some r) o len 0)
      as [[[n o'] rb']|] eqn:E; [|done].
    by rewrite (read_loop_display_brain _ _ _ _ _ _ _ E).
Qed.

(** X7.  A buffer whose initialisation was refused (NULL storage or size
    zero on the zeroed static structure) is inert: every write and every
    read of a run fails and leaves it as it is, the bulk operations move
    nothing, and a peek fails; the storage pointer is never used. *)
Theorem refused_init_inert (rb_bits : Z) (buf : option (list Z)) (sz : Z) :
  buf = None \/ sz = 0 ->
  let rb := ring_buffer_init (Some rb_zero) buf sz in
  rb = Some rb_zero
  /\ (forall cs, run rb_bits rb cs = (rb, [], []))
  /\ (forall fuel data len,
        ring_buffer_write_multi rb_bits fuel rb data len = Some (0, rb))
  /\ (forall fuel out len,
        ring_buffer_read_multi rb_bits fuel rb out len = Some (0, out, rb))
  /\ (forall x offset, 0 <= offset ->
        ring_buffer_peek rb_bits rb (Some x) offset = (false, Some x)).
Proof.
  intros Hrefused rb.
  assert (rb = Some rb_zero) as ->.
  { subst rb. unfold ring_buffer_init. destruct buf as [b|]; [|done].
    destruct Hrefused as [?| ->]; done. }
  split; [done|]. split; [|split; [|split]].
  - induction cs as [|[d|] cs IH]; cbn [run]; [done| |].
    + change (ring_buffer_write rb_bits (Some rb_zero) d)
        with (false, Some rb_zero). cbv beta iota. by rewrite IH.
    + change (ring_buffer_read rb_bits (Some rb_zero) (Some 0))
        with (false, Some 0, Some rb_zero). cbv beta iota. by rewrite IH.
  - intros fuel data len. unfold ring_buffer_write_multi.
    destruct data as [d|]; [|done]. destruct (len =? 0); [done|].
    destruct fuel; cbn [write_multi_loop];
      change (ring_buffer_is_full (Some rb_zero)) with true;
      by rewrite andb_false_r.
  - intros fuel out len. unfold ring_buffer_read_multi.
    destruct out as [o|]; [|done]. destruct (len =? 0); [done|].
    destruct fuel; cbn [read_multi_loop];
      change (ring_buffer_is_empty (Some rb_zero)) with true;
      by rewrite andb_false_r.
  - intros x offset Hoff. unfold ring_buffer_peek.
    change (count rb_zero) with 0.
    by destruct (Z.leb_spec 0 offset); [|lia].
Qed.

(** A buffer of four slots whose queue wraps around the end of the
    storage. *)
Lemma example_wrapped_inv : rb_inv 4 example_wrapped.
Proof. constructor; vm_compute; try done; split; discriminate. Qed.

Lemma peek_reads_queue_witness :
  rb_inv 4 example_wrapped /\ 2 * 4 <= rb_modulus 8 /\ 0 <= 1
  /\ ring_buffer_peek 8 (Some example_wrapped) (Some 0) 1
     = match contents example_wrapped !! Z.to_nat 1 with
       | Some v => (true, Some v)
       | None => (false, Some 0)
       end
  /\ contents example_wrapped = [40; 10].
Proof.
  assert (2 * 4 <= rb_modulus 8) as H2 by (apply Z.leb_le; reflexivity).
  assert (0 <= 1) as H3 by lia.
  split; [exact example_wrapped_inv|]. split; [exact H2|]. split; [exact H3|].
  split; [|reflexivity].
  exact (peek_reads_queue 8 4 example_wrapped 0 1 example_wrapped_inv H2 H3).
Defined.

Lemma clear_discards_queue_witness :
  0 < 4 /\ 4 < rb_modulus 8 /\
  rb_inv 4 example_wrapped
  /\ exists r0 r',
       ring_buffer_clear (Some example_wrapped) = Some r0
       /\ ring_buffer_is_empty (Some r0) = true
       /\ ring_buffer_space_remaining 8 (Some r0) = 4
       /\ (run 8 (Some r0) [Write 1; Read; Read]).1.1 = Some r'
       /\ (run 8 (Some r0) [Write 1; Read; Read]).1.2
          = (run 8 (Some r0) [Write 1; Read; Read]).2 ++ contents r'.
Proof.
  assert (0 < 4) as H0 by lia.
  assert (4 < rb_modulus 8) as H1 by reflexivity.
  split; [exact H0|]. split; [exact H1|].
  split; [exact example_wrapped_inv|].
  exact (clear_discards_queue 8 4 H0 H1 example_wrapped [Write 1; Read; Read]
           example_wrapped_inv).
Defined.

Lemma write_multi_appends_witness :
  0 < 4 /\ 4 < rb_modulus 8 /\
  rb_inv 4 example_wrapped /\ 0 <= 3 < rb_modulus 8
  /\ (Z.to_nat 3 <= length [1; 2; 3])%nat /\ (Z.to_nat 3 <= 3)%nat
  /\ (let n := Z.min 3 (4 - count example_wrapped) in
      exists r',
        ring_buffer_write_multi 8 3 (Some example_wrapped) (Some [1; 2; 3]) 3
        = Some (n, Some r')
        /\ rb_inv 4 r'
        /\ contents r' = contents example_wrapped ++ take (Z.to_nat n) [1; 2; 3])
  /\ Z.min 3 (4 - count example_wrapped) = 2.
Proof.
  assert (0 < 4) as H0 by lia.
  assert (4 < rb_modulus 8) as H1 by reflexivity.
  assert (0 <= 3 < rb_modulus 8) as H2 by (split; [lia|reflexivity]).
  assert (Z.to_nat 3 <= length [1; 2; 3])%nat as H3
    by (apply Nat.leb_le; reflexivity).
  assert (Z.to_nat 3 <= 3)%nat as H4 by (apply Nat.leb_le; reflexivity).
  split; [exact H0|]. split; [exact H1|].
  split; [exact example_wrapped_inv|]. split; [exact H2|].
  split; [exact H3|]. split; [exact H4|]. split; [|reflexivity].
  exact (write_multi_appends 8 4 H0 H1 3 example_wrapped [1; 2; 3] 3
           example_wrapped_inv H2 H3 H4).
Defined.

Lemma read_multi_takes_witness :
  0 < 4 /\ 4 < rb_modulus 8 /\
  rb_inv 4 example_wrapped /\ 0 <= 3 < rb_modulus 8
  /\ (Z.to_nat 3 <= length [7; 7; 7])%nat /\ (Z.to_nat 3 <= 3)%nat
  /\ (let n := Z.min 3 (count example_wrapped) in
      exists r',
        ring_buffer_read_multi 8 3 (Some example_wrapped) (Some [7; 7; 7]) 3
        = Some (n, Some (take (Z.to_nat n) (contents example_wrapped)
                           ++ drop (Z.to_nat n) [7; 7; 7]),
                Some r')
        /\ rb_inv 4 r'
        /\ contents r' = drop (Z.to_nat n) (contents example_wrapped))
  /\ take 2 (contents example_wrapped) ++ drop 2 [7; 7; 7] = [40; 10; 7].
Proof.
  assert (0 < 4) as H0 by lia.
  assert (4 < rb_modulus 8) as H1 by reflexivity.
  assert (0 <= 3 < rb_modulus 8) as H2 by (split; [lia|reflexivity]).
  assert (Z.to_nat 3 <= length [7; 7; 7])%nat as H3
    by (apply Nat.leb_le; reflexivity).
  assert (Z.to_nat 3 <= 3)%nat as H4 by (apply Nat.leb_le; reflexivity).
  split; [exact H0|]. split; [exact H1|].
  split; [exact example_wrapped_inv|]. split; [exact H2|].
  split; [exact H3|]. split; [exact H4|]. split; [|reflexivity].
  exact (read_multi_takes 8 4 H0 H1 3 example_wrapped [7; 7; 7] 3
           example_wrapped_inv H2 H3 H4).
Defined.

Lemma bulk_round_trip_witness :
  0 < 4 /\ 4 < rb_modulus 8 /\
  Z.of_nat (length [0; 0; 0; 0]) = 4
  /\ Z.of_nat (length [1; 2; 3]) <= 4
  /\ (length [1; 2; 3] <= length [7; 7; 7; 7])%nat
  /\ (length [1; 2; 3] <= 3)%nat
  /\ (let len := Z.of_nat (length [1; 2; 3]) in
      exists r1 r2,
        ring_buffer_write_multi 8 3
          (ring_buffer_init (Some rb_zero) (Some [0; 0; 0; 0]) 4)
          (Some [1; 2; 3]) len
        = Some (len, Some r1)
        /\ ring_buffer_read_multi 8 3 (Some r1) (Some [7; 7; 7; 7]) len
           = Some (len, Some ([1; 2; 3] ++ drop (length [1; 2; 3]) [7; 7; 7; 7]),
                   Some r2)
        /\ ring_buffer_is_empty (Some r2) = true).
Proof.
  assert (0 < 4) as H0 by lia.
  assert (4 < rb_modulus 8) as H1 by reflexivity.
  assert (Z.of_nat (length [0; 0; 0; 0]) = 4) as H2 by reflexivity.
  assert (Z.of_nat (length [1; 2; 3]) <= 4) as H3
    by (apply Z.leb_le; reflexivity).
  assert (length [1; 2; 3] <= length [7; 7; 7; 7])%nat as H4
    by (apply Nat.leb_le; reflexivity).
  assert (length [1; 2; 3] <= 3)%nat as H5 by (apply Nat.leb_le; reflexivity).
  split; [exact H0|]. split; [exact H1|].
  split; [exact H2|]. split; [exact H3|]. split; [exact H4|].
  split; [exact H5|].
  exact (bulk_round_trip 8 4 H0 H1 3 rb_zero [0; 0; 0; 0] [1; 2; 3]
           [7; 7; 7; 7] H2 H3 H4 H5).
Defined.

Lemma refused_init_inert_witness :
  (Some [0; 0] = None \/ 0 = 0)
  /\ (let rb := ring_buffer_init (Some rb_zero) (Some [0; 0]) 0 in
      rb = Some rb_zero
      /\ (forall cs, run 8 rb cs = (rb, [], []))
      /\ (forall fuel data len,
            ring_buffer_write_multi 8 fuel rb data len = Some (0, rb))
      /\ (forall fuel out len,
            ring_buffer_read_multi 8 fuel rb out len = Some (0, out, rb))
      /\ (forall x offset, 0 <= offset ->
            ring_buffer_peek 8 rb (Some x) offset = (false, Some x))).
Proof.
  assert (Some [0; 0] = None \/ 0 = 0) as H by (right; reflexivity).
  split; [exact H|].
  exact (refused_init_inert 8 (Some [0; 0]) 0 H).
Defined.

Lemma bulk_copies_agree_witness :
  ring_buffer_write_multi 8 3 (Some example_wrapped) (Some [1; 2; 3]) 3
  = Some (2, Some (mkRB [10; 1; 2; 40] 4 3 3 4))
  /\ ring_buffer_write_multi_display 8 4 (Some example_wrapped)
       (Some [1; 2; 3]) 3
     = Some (2, Some (mkRB [10; 1; 2; 40] 4 3 3 4)).
Proof.
  assert (ring_buffer_write_multi 8 3 (Some example_wrapped) (Some [1; 2; 3]) 3
          = Some (2, Some (mkRB [10; 1; 2; 40] 4 3 3 4))) as H
    by (vm_compute; reflexivity).
  split; [exact H|].
  exact (proj1 (bulk_copies_agree 8 3 (Some example_wrapped) (Some [1; 2; 3])
                  None 3) _ H).
Defined.

End RingBufferBulk.

(** ** The GPS driver: reachable states, accessors and field splitting *)

Module GpsReach.

Import CStr CStrFacts Gps.

Lemma gps_run_snoc (st : gps_state) (cs : list gps_call) (c : gps_call) :
  gps_run st (cs ++ [c]) = gps_call_step (gps_run st cs) c.
Proof. unfold gps_run. by rewrite fold_left_app. Qed.

(** What one sentence can do to the internal state: nothing, or what one
    of the two extractors does. *)
Lemma process_cases (g : gps_internal) (sentence : list Z) :
  (process_nmea_sentence g sentence).1 = g
  \/ (exists fields, (process_nmea_sentence g sentence).1 = parse_gprmc g fields)
  \/ (exists fields, (process_nmea_sentence g sentence).1 = parse_gpgga g fields).
Proof.
  unfold process_nmea_sentence.
  destruct (nmea_split_fields (drop 1 sentence) NMEA_MAX_FIELDS) as [fields marked].
  cbn [fst].
  destruct (length fields <? 1)%nat; [by left|].
  destruct (is_rmc_tag (field fields 0)); [right; left; by exists fields|].
  destruct (is_gga_tag (field fields 0)); [right; right; by exists fields|].
  by left.
Qed.

Lemma end_of_sentence_cases (st : gps_state) :
  internal (end_of_sentence st) = internal st
  \/ (exists fields, internal (end_of_sentence st) = parse_gprmc (internal st) fields)
  \/ (exists fields, internal (end_of_sentence st) = parse_gpgga (internal st) fields).
Proof.
  unfold end_of_sentence.
  match goal with |- context [nmea_validate_checksum ?s] =>
    generalize s; intros sentence end.
  destruct (nmea_validate_checksum sentence); [|by left].
  pose proof (process_cases (internal st) sentence) as H.
  destruct (process_nmea_sentence (internal st) sentence) as [g marked].
  exact H.
Qed.

Lemma process_char_cases (st : gps_state) (c : Z) :
  internal (gps_process_char st c) = internal st
  \/ (exists fields,
        internal (gps_process_char st c) = parse_gprmc (internal st) fields)
  \/ (exists fields,
        internal (gps_process_char st c) = parse_gpgga (internal st) fields).
Proof.
  unfold gps_process_char.
  destruct (c =? 36); [by left|].
  destruct (sentence_in_progress st); [|by left].
  destruct (c =? 10); [|by destruct (_ <? _)%nat; left].
  match goal with |- context [end_of_sentence ?s] =>
    pose proof (end_of_sentence_cases s) as H;
    assert (internal s = internal st) as E by (by destruct (_ <? _)%nat)
  end.
  by rewrite E in H.
Qed.

(** A property of the internal state that the two extractors and the
    clearing of the update flag preserve holds in every reachable state. *)
Lemma reachable_internal (P : gps_internal -> Prop) :
  P (internal gps_init) ->
  (forall g fields, P g -> P (parse_gprmc g fields)) ->
  (forall g fields, P g -> P (parse_gpgga g fields)) ->
  (forall g, P g ->
     P {| current_gps_data := current_gps_data g;
          data_updated := false;
          data_valid_fix := data_valid_fix g |}) ->
  forall cs, P (internal (gps_run gps_init cs)).
Proof.
  intros H0 Hrmc Hgga Hget cs.
  induction cs as [|c cs IH] using rev_ind; [done|].
  rewrite gps_run_snoc. destruct c as [b|[d|]]; cbn [gps_call_step].
  - destruct (process_char_cases (gps_run gps_init cs) b)
      as [-> | [[fields ->] | [fields ->]]]; auto.
  - cbn. by apply Hget.
  - done.
Qed.

(** X8.  Every store into the sentence buffer is within its 83 bytes:
    whatever bytes arrive and whenever the record is retrieved, the fill
    index stays at or below 82, and it is at least 1 while a sentence is
    in progress (so that the byte before it, which the end of a sentence
    overwrites, exists). *)
Theorem framer_within_bounds (cs : list gps_call) :
  let st := gps_run gps_init cs in
  length (nmea_buffer st) = S NMEA_MAX_SENTENCE_LEN
  /\ (nmea_buffer_index st <= NMEA_MAX_SENTENCE_LEN)%nat
  /\ (sentence_in_progress st = true -> (1 <= nmea_buffer_index st)%nat).
Proof.
  induction cs as [|c cs IH] using rev_ind.
  - split; [reflexivity|]. split; [|done].
    unfold NMEA_MAX_SENTENCE_LEN. cbn. lia.
  - cbn zeta in *. rewrite gps_run_snoc.
    destruct IH as (Hlen & Hidx & Hprog).
    set (st := gps_run gps_init cs) in *. clearbody st.
    destruct c as [b|[d|]]; cbn [gps_call_step]; [|by cbn|by cbn].
    split; [by rewrite GpsProofs.process_char_length|].
    unfold gps_process_char, NMEA_MAX_SENTENCE_LEN in *.
    destruct (b =? 36); [cbn; split; [lia|done]|].
    destruct (sentence_in_progress st) eqn:Ep; [|by rewrite Ep].
    specialize (Hprog eq_refl).
    assert (forall s, nmea_buffer_index (end_of_sentence s) = nmea_buffer_index s
                      /\ sentence_in_progress (end_of_sentence s) = false) as Heos.
    { intros s. unfold end_of_sentence.
      destruct (nmea_validate_checksum _); [|done].
      by destruct (process_nmea_sentence _ _). }
    destruct (Nat.ltb_spec (nmea_buffer_index st) 82);
      destruct (b =? 10);
      rewrite ?(proj1 (Heos _)), ?(proj2 (Heos _));
      cbn [nmea_buffer_index sentence_in_progress]; split; (lia || done).
Qed.

(** X9.  The validity that the accessors report is that of the record
    they read: in every reachable state [gps_get_data] returns the
    [fix_valid] of the record it copies out and clears the update flag,
    [gps_get_location] succeeds exactly when that record is valid, and
    [gps_get_speed_kmh] is the record's speed when it is valid and the
    literal 0.0f when it is not. *)
Theorem accessors_agree_on_validity (cs : list gps_call)
    (dst : gps_data_t) (lat lon : cfloat) :
  let st := gps_run gps_init cs in
  let d := current_gps_data (internal st) in
  let r := gps_get_data st (Some dst) in
  r.1.1 = fix_valid d
  /\ r.1.2 = Some d
  /\ gps_is_data_available r.2 = false
  /\ current_gps_data (internal r.2) = d
  /\ gps_get_location st (Some lat) (Some lon)
     = (if fix_valid d
        then (true, Some (latitude d), Some (longitude d))
        else (false, Some (FConst "0.0f"), Some (FConst "0.0f")))
  /\ gps_get_speed_kmh st
     = (if fix_valid d then speed_kmh d else FConst "0.0f").
Proof.
  intros st d r.
  assert (data_valid_fix (internal st) = fix_valid d) as Hv.
  { subst d st.
    apply (reachable_internal
             (fun g => data_valid_fix g = fix_valid (current_gps_data g)));
      try done.
    - intros g fields Hg. unfold parse_gprmc.
      by destruct (length fields <? 12)%nat.
    - intros g fields Hg. unfold parse_gpgga.
      by destruct (length fields <? 10)%nat. }
  subst r. unfold gps_get_data, gps_get_location, gps_get_speed_kmh.
  fold d. rewrite Hv. cbn. done.
Qed.

(** X10.  The speed in km/h is never stored on its own: in every
    reachable state it is the product of the stored speed in knots and
    the literal 1.852f once an RMC sentence has been accepted, and both
    are the zero of [memset] before. *)
Theorem speed_kmh_derived (cs : list gps_call) :
  let d := current_gps_data (internal (gps_run gps_init cs)) in
  if seen_rmc d
  then speed_kmh d = FMul (speed_knots d) (FConst "1.852f")
  else speed_knots d = FZero /\ speed_kmh d = FZero.
Proof.
  cbn zeta.
  apply (reachable_internal
           (fun g => let d := current_gps_data g in
                     if seen_rmc d
                     then speed_kmh d = FMul (speed_knots d) (FConst "1.852f")
                     else speed_knots d = FZero /\ speed_kmh d = FZero));
    try done.
  - intros g fields Hg. unfold parse_gprmc.
    destruct (length fields <? 12)%nat; [done|].
    destruct (6 <=? length (field fields 1))%nat,
      (length (field fields 9) =? 6)%nat; reflexivity.
  - intros g fields Hg. unfold parse_gpgga.
    destruct (length fields <? 10)%nat; [done|].
    destruct (negb _ || _); exact Hg.
Qed.

End GpsReach.

(** ** The GPS driver: what one sentence does *)

Module GpsSentences.

Import CStr CStrFacts Gps.

Lemma strchr_absent (s : list Z) (c : Z) : c ∉ s -> strchr s c = None.
Proof.
  induction s as [|x s IH]; intros H; simpl; [done|].
  apply not_elem_of_cons in H as [Hx Hs].
  destruct (Z.eqb_spec x c); [congruence|]. by apply IH.
Qed.

Lemma cstr_subseteq (l : list Z) (c : Z) : c ∈ cstr l -> c ∈ l.
Proof.
  induction l as [|x l IH]; simpl; [done|].
  destruct (x =? 0); [by intros ?%elem_of_nil|].
  intros [->|H]%elem_of_cons; [left|right; by apply IH].
Qed.

Lemma framed_sentence_subseteq (text : list Z) (c : Z) :
  c ∈ framed_sentence text -> c = 36 \/ c ∈ text.
Proof.
  unfold framed_sentence, chomp. intros H%cstr_subseteq.
  assert (c ∈ 36 :: text) as H'.
  { destruct (_ =? 13); [|done]. by apply elem_of_take in H as (i & H%list_elem_of_lookup_2 & _). }
  by apply elem_of_cons in H'.
Qed.

(** The internal state after a complete line, by the fields of its
    sentence. *)
Lemma line_effect (st : gps_state) (text : list Z) :
  length (nmea_buffer st) = S NMEA_MAX_SENTENCE_LEN ->
  36 ∉ text -> 10 ∉ text -> (length text <= 80)%nat ->
  let fields :=
    (nmea_split_fields (drop 1 (framed_sentence text)) NMEA_MAX_FIELDS).1 in
  internal (gps_feed st (36 :: text ++ [10]))
  = if nmea_validate_checksum (framed_sentence text) then
      if (length fields <? 1)%nat then internal st
      else if is_rmc_tag (field fields 0) then parse_gprmc (internal st) fields
      else if is_gga_tag (field fields 0) then parse_gpgga (internal st) fields
      else internal st
    else internal st.
Proof.
  intros Hlen H36 H10 Hshort fields.
  destruct (GpsProofs.feed_line st text Hlen H36 H10 Hshort) as [-> _].
  unfold dispatch. destruct (nmea_validate_checksum _); [|done].
  unfold process_nmea_sentence. subst fields.
  by destruct (nmea_split_fields _ _) as [fs marked].
Qed.

(** X11.  Lines that change nothing.  A complete line that fits the buffer
    leaves the record and both flags as they were when it carries no [*],
    when its first field is none of GPRMC, GNRMC, GPGGA and GNGGA, or when
    it is a GGA sentence of fewer than 10 fields, right checksum or
    not. *)
Theorem sentence_without_effect (st : gps_state) (text : list Z) :
  length (nmea_buffer st) = S NMEA_MAX_SENTENCE_LEN ->
  36 ∉ text -> 10 ∉ text -> (length text <= 80)%nat ->
  let fields :=
    (nmea_split_fields (drop 1 (framed_sentence text)) NMEA_MAX_FIELDS).1 in
  42 ∉ text
  \/ (is_rmc_tag (field fields 0) = false /\ is_gga_tag (field fields 0) = false)
  \/ (is_rmc_tag (field fields 0) = false /\ (length fields < 10)%nat) ->
  internal (gps_feed st (36 :: text ++ [10])) = internal st.
Proof.
  intros Hlen H36 H10 Hshort fields Hcase.
  rewrite (line_effect st text Hlen H36 H10 Hshort). fold fields.
  destruct Hcase as [H42 | [[Hr Hg] | [Hr Hn]]].
  - unfold nmea_validate_checksum. rewrite strchr_absent; [done|].
    intros [E|H]%framed_sentence_subseteq; [discriminate|done].
  - rewrite Hr, Hg.
    destruct (nmea_validate_checksum _); [|done]. by destruct (_ <? _)%nat.
  - rewrite Hr. unfold parse_gpgga.
    destruct (Nat.ltb_spec (length fields) 10); [|lia].
    destruct (nmea_validate_checksum _); [|done].
    destruct (_ <? _)%nat; [done|]. by destruct (is_gga_tag _).
Qed.

(** X12.  What an accepted RMC sentence stores.  A complete RMC line with
    the right checksum and at least 12 fields sets the fix validity from
    its status field (valid exactly for [A]), sets both flags accordingly,
    and stores speed and course as [atof] of fields 7 and 8; latitude and
    longitude become the literals 40.7128f and -74.0060f whatever the
    sentence says, the time becomes 12:34:56 when field 1 has at least 6
    characters and the date 5.5.2025 when field 9 has exactly 6; what GGA
    owns (fix quality, satellites, altitude, the GGA flag) and the
    milliseconds are not touched. *)
Theorem rmc_accepted_effect (st : gps_state) (text : list Z) :
  length (nmea_buffer st) = S NMEA_MAX_SENTENCE_LEN ->
  36 ∉ text -> 10 ∉ text -> (length text <= 80)%nat ->
  nmea_validate_checksum (framed_sentence text) = true ->
  let fields :=
    (nmea_split_fields (drop 1 (framed_sentence text)) NMEA_MAX_FIELDS).1 in
  is_rmc_tag (field fields 0) = true ->
  (12 <= length fields)%nat ->
  let d0 := current_gps_data (internal st) in
  let g := internal (gps_feed st (36 :: text ++ [10])) in
  let d := current_gps_data g in
  fix_valid d = (field_char0 fields 2 =? 65)
  /\ data_valid_fix g = fix_valid d
  /\ data_updated g = true
  /\ seen_rmc d = true
  /\ latitude d = FConst "40.7128f"
  /\ longitude d = FConst "-74.0060f"
  /\ speed_knots d = FAtof (field fields 7)
  /\ speed_kmh d = FMul (FAtof (field fields 7)) (FConst "1.852f")
  /\ course_deg d = FAtof (field fields 8)
  /\ (hour d, minute d, second d)
     = (if (6 <=? length (field fields 1))%nat then (12, 34, 56)
        else (hour d0, minute d0, second d0))
  /\ (day d, month d, year d)
     = (if (length (field fields 9) =? 6)%nat then (5, 5, 2025)
        else (day d0, month d0, year d0))
  /\ (fix_quality d, satellites_tracked d, altitude_msl d, seen_gga d,
      millisecond d)
     = (fix_quality d0, satellites_tracked d0, altitude_msl d0, seen_gga d0,
        millisecond d0).
Proof.
  intros Hlen H36 H10 Hshort Hsum fields Htag Hcount d0 g d.
  subst d g. rewrite (line_effect st text Hlen H36 H10 Hshort). fold fields.
  rewrite Hsum, Htag.
  destruct (Nat.ltb_spec (length fields) 1); [lia|].
  unfold parse_gprmc. destruct (Nat.ltb_spec (length fields) 12); [lia|].
  subst d0.
  destruct (6 <=? length (field fields 1))%nat,
    (length (field fields 9) =? 6)%nat; cbn; by repeat split.
Qed.

(** X13.  What an accepted GGA sentence stores.  A complete GGA line with
    the right checksum and at least 10 fields stores fix quality and
    satellite count as [atoi] of fields 6 and 7 narrowed to a byte and the
    altitude as [atof] of field 9, and sets the update flag.  The fix
    validity becomes "fix quality above 0" when no RMC sentence has been
    accepted so far or when field 2 of this sentence starts with [V], and
    stays as it was otherwise; the validity flag follows it.  What RMC
    owns (time, date, position, speed, course, the RMC flag) is not
    touched. *)
Theorem gga_accepted_effect (st : gps_state) (text : list Z) :
  length (nmea_buffer st) = S NMEA_MAX_SENTENCE_LEN ->
  36 ∉ text -> 10 ∉ text -> (length text <= 80)%nat ->
  nmea_validate_checksum (framed_sentence text) = true ->
  let fields :=
    (nmea_split_fields (drop 1 (framed_sentence text)) NMEA_MAX_FIELDS).1 in
  is_rmc_tag (field fields 0) = false ->
  is_gga_tag (field fields 0) = true ->
  (10 <= length fields)%nat ->
  let d0 := current_gps_data (internal st) in
  let g := internal (gps_feed st (36 :: text ++ [10])) in
  let d := current_gps_data g in
  fix_quality d = atoi (field fields 6) mod 256
  /\ satellites_tracked d = atoi (field fields 7) mod 256
  /\ altitude_msl d = FAtof (field fields 9)
  /\ seen_gga d = true
  /\ data_updated g = true
  /\ fix_valid d
     = (if negb (seen_rmc d0) || (field_char0 fields 2 =? 86)
        then 0 <? atoi (field fields 6) mod 256
        else fix_valid d0)
  /\ data_valid_fix g = fix_valid d
  /\ (hour d, minute d, second d, millisecond d, day d, month d, year d)
     = (hour d0, minute d0, second d0, millisecond d0, day d0, month d0,
        year d0)
  /\ (latitude d, longitude d, speed_knots d, speed_kmh d, course_deg d,
      seen_rmc d)
     = (latitude d0, longitude d0, speed_knots d0, speed_kmh d0,
        course_deg d0, seen_rmc d0).
Proof.
  intros Hlen H36 H10 Hshort Hsum fields Hrmc Hgga Hcount d0 g d.
  subst d g. rewrite (line_effect st text Hlen H36 H10 Hshort). fold fields.
  rewrite Hsum, Hrmc, Hgga.
  destruct (Nat.ltb_spec (length fields) 1); [lia|].
  unfold parse_gpgga. destruct (Nat.ltb_spec (length fields) 10); [lia|].
  subst d0. cbn.
  destruct (negb (seen_rmc (current_gps_data (internal st)))
            || (field_char0 fields 2 =? 86)); cbn; by repeat split.
Qed.

Ltac decide_by_computation := apply (bool_decide_unpack _); vm_compute; exact I.

Lemma sentence_without_effect_witness :
  length (nmea_buffer gps_init) = S NMEA_MAX_SENTENCE_LEN
  /\ ((36 ∉ example_no_star) /\ (10 ∉ example_no_star)
      /\ (length example_no_star <= 80)%nat
      /\ (42 ∉ example_no_star)
      /\ internal (gps_feed gps_init (36 :: example_no_star ++ [10]))
         = internal gps_init)
  /\ ((36 ∉ example_gsv) /\ (10 ∉ example_gsv)
      /\ (length example_gsv <= 80)%nat
      /\ nmea_validate_checksum (framed_sentence example_gsv) = true
      /\ (let fields :=
            (nmea_split_fields (drop 1 (framed_sentence example_gsv))
               NMEA_MAX_FIELDS).1 in
          is_rmc_tag (field fields 0) = false
          /\ is_gga_tag (field fields 0) = false)
      /\ internal (gps_feed gps_init (36 :: example_gsv ++ [10]))
         = internal gps_init)
  /\ ((36 ∉ example_short_gga) /\ (10 ∉ example_short_gga)
      /\ (length example_short_gga <= 80)%nat
      /\ nmea_validate_checksum (framed_sentence example_short_gga) = true
      /\ (let fields :=
            (nmea_split_fields (drop 1 (framed_sentence example_short_gga))
               NMEA_MAX_FIELDS).1 in
          is_rmc_tag (field fields 0) = false
          /\ (length fields < 10)%nat)
      /\ internal (gps_feed gps_init (36 :: example_short_gga ++ [10]))
         = internal gps_init).
Proof.
  assert (length (nmea_buffer gps_init) = S NMEA_MAX_SENTENCE_LEN) as Hlen
    by reflexivity.
  split; [exact Hlen|]. split; [|split].
  - assert (36 ∉ example_no_star) as H1 by decide_by_computation.
    assert (10 ∉ example_no_star) as H2 by decide_by_computation.
    assert (length example_no_star <= 80)%nat as H3
      by (apply Nat.leb_le; reflexivity).
    assert (42 ∉ example_no_star) as H4 by decide_by_computation.
    split; [exact H1|]. split; [exact H2|]. split; [exact H3|].
    split; [exact H4|].
    exact (sentence_without_effect gps_init example_no_star Hlen H1 H2 H3
             (or_introl H4)).
  - assert (36 ∉ example_gsv) as H1 by decide_by_computation.
    assert (10 ∉ example_gsv) as H2 by decide_by_computation.
    assert (length example_gsv <= 80)%nat as H3
      by (apply Nat.leb_le; reflexivity).
    assert (let fields :=
              (nmea_split_fields (drop 1 (framed_sentence example_gsv))
                 NMEA_MAX_FIELDS).1 in
            is_rmc_tag (field fields 0) = false
            /\ is_gga_tag (field fields 0) = false) as H4
      by (split; vm_compute; reflexivity).
    split; [exact H1|]. split; [exact H2|]. split; [exact H3|].
    split; [vm_compute; reflexivity|]. split; [exact H4|].
    exact (sentence_without_effect gps_init example_gsv Hlen H1 H2 H3
             (or_intror (or_introl H4))).
  - assert (36 ∉ example_short_gga) as H1 by decide_by_computation.
    assert (10 ∉ example_short_gga) as H2 by decide_by_computation.
    assert (length example_short_gga <= 80)%nat as H3
      by (apply Nat.leb_le; reflexivity).
    assert (let fields :=
              (nmea_split_fields (drop 1 (framed_sentence example_short_gga))
                 NMEA_MAX_FIELDS).1 in
            is_rmc_tag (field fields 0) = false
            /\ (length fields < 10)%nat) as H4
      by (split; [vm_compute; reflexivity|apply Nat.ltb_lt; vm_compute; reflexivity]).
    split; [exact H1|]. split; [exact H2|]. split; [exact H3|].
    split; [vm_compute; reflexivity|]. split; [exact H4|].
    exact (sentence_without_effect gps_init example_short_gga Hlen H1 H2 H3
             (or_intror (or_intror H4))).
Defined.

Lemma rmc_accepted_effect_witness :
  length (nmea_buffer gps_init) = S NMEA_MAX_SENTENCE_LEN
  /\ (36 ∉ example_rmc_text) /\ (10 ∉ example_rmc_text)
  /\ (length example_rmc_text <= 80)%nat
  /\ nmea_validate_checksum (framed_sentence example_rmc_text) = true
  /\ (let fields :=
        (nmea_split_fields (drop 1 (framed_sentence example_rmc_text))
           NMEA_MAX_FIELDS).1 in
      is_rmc_tag (field fields 0) = true
      /\ (12 <= length fields)%nat
      /\ field fields 3 = bytes "4042.768")
  /\ (let d := current_gps_data
                 (internal (gps_feed gps_init (36 :: example_rmc_text ++ [10]))) in
      latitude d = FConst "40.7128f" /\ longitude d = FConst "-74.0060f").
Proof.
  assert (length (nmea_buffer gps_init) = S NMEA_MAX_SENTENCE_LEN) as Hlen
    by reflexivity.
  assert (36 ∉ example_rmc_text) as H1 by decide_by_computation.
  assert (10 ∉ example_rmc_text) as H2 by decide_by_computation.
  assert (length example_rmc_text <= 80)%nat as H3
    by (apply Nat.leb_le; reflexivity).
  assert (nmea_validate_checksum (framed_sentence example_rmc_text) = true)
    as H4 by (vm_compute; reflexivity).
  assert (is_rmc_tag
            (field (nmea_split_fields (drop 1 (framed_sentence example_rmc_text))
                      NMEA_MAX_FIELDS).1 0) = true) as H5
    by (vm_compute; reflexivity).
  assert (12 <= length (nmea_split_fields
                          (drop 1 (framed_sentence example_rmc_text))
                          NMEA_MAX_FIELDS).1)%nat as H6
    by (apply Nat.leb_le; vm_compute; reflexivity).
  split; [exact Hlen|]. split; [exact H1|]. split; [exact H2|].
  split; [exact H3|]. split; [exact H4|].
  split; [split; [exact H5|split; [exact H6|vm_compute; reflexivity]]|].
  pose proof (rmc_accepted_effect gps_init example_rmc_text Hlen H1 H2 H3 H4
                H5 H6) as H.
  exact (conj (proj1 (proj2 (proj2 (proj2 (proj2 H)))))
              (proj1 (proj2 (proj2 (proj2 (proj2 (proj2 H))))))).
Defined.

Lemma gga_accepted_effect_witness :
  length (nmea_buffer gps_init) = S NMEA_MAX_SENTENCE_LEN
  /\ (36 ∉ example_gga_text) /\ (10 ∉ example_gga_text)
  /\ (length example_gga_text <= 80)%nat
  /\ nmea_validate_checksum (framed_sentence example_gga_text) = true
  /\ (let fields :=
        (nmea_split_fields (drop 1 (framed_sentence example_gga_text))
           NMEA_MAX_FIELDS).1 in
      is_rmc_tag (field fields 0) = false
      /\ is_gga_tag (field fields 0) = true
      /\ (10 <= length fields)%nat
      /\ atoi (field fields 6) mod 256 = 1)
  /\ (let fields :=
        (nmea_split_fields (drop 1 (framed_sentence example_gga_text))
           NMEA_MAX_FIELDS).1 in
      let d := current_gps_data
                 (internal (gps_feed gps_init (36 :: example_gga_text ++ [10]))) in
      fix_quality d = atoi (field fields 6) mod 256).
Proof.
  assert (length (nmea_buffer gps_init) = S NMEA_MAX_SENTENCE_LEN) as Hlen
    by reflexivity.
  assert (36 ∉ example_gga_text) as H1 by decide_by_computation.
  assert (10 ∉ example_gga_text) as H2 by decide_by_computation.
  assert (length example_gga_text <= 80)%nat as H3
    by (apply Nat.leb_le; reflexivity).
  assert (nmea_validate_checksum (framed_sentence example_gga_text) = true)
    as H4 by (vm_compute; reflexivity).
  assert (is_rmc_tag
            (field (nmea_split_fields (drop 1 (framed_sentence example_gga_text))
                      NMEA_MAX_FIELDS).1 0) = false) as H5
    by (vm_compute; reflexivity).
  assert (is_gga_tag
            (field (nmea_split_fields (drop 1 (framed_sentence example_gga_text))
                      NMEA_MAX_FIELDS).1 0) = true) as H6
    by (vm_compute; reflexivity).
  assert (10 <= length (nmea_split_fields
                          (drop 1 (framed_sentence example_gga_text))
                          NMEA_MAX_FIELDS).1)%nat as H7
    by (apply Nat.leb_le; vm_compute; reflexivity).
  split; [exact Hlen|]. split; [exact H1|]. split; [exact H2|].
  split; [exact H3|]. split; [exact H4|].
  split; [split; [exact H5|split; [exact H6|split;
            [exact H7|vm_compute; reflexivity]]]|].
  exact (proj1 (gga_accepted_effect gps_init example_gga_text Hlen H1 H2 H3 H4
                  H5 H6 H7)).
Defined.

End GpsSentences.

(** ** The GPS driver: field splitting *)

Module GpsFields.

Import CStr CStrFacts Gps.

(** The characters of a field in progress are collected up to the next
    separator. *)
Lemma split_loop_field (f rest cur : list Z) (count max_fields : nat) :
  44 ∉ f -> 42 ∉ f -> (count < max_fields)%nat ->
  (split_loop (f ++ rest) cur count max_fields).1
  = (split_loop rest (rev f ++ cur) count max_fields).1.
Proof.
  revert cur. induction f as [|c f IH]; intros cur H44 H42 Hc; [done|].
  apply not_elem_of_cons in H44 as [Hc44 H44].
  apply not_elem_of_cons in H42 as [Hc42 H42].
  cbn [app split_loop].
  destruct (Z.eqb_spec c 42); [congruence|].
  destruct (Nat.leb_spec max_fields count); [lia|].
  destruct (Z.eqb_spec c 44); [congruence|].
  specialize (IH (c :: cur) H44 H42 Hc).
  destruct (split_loop (f ++ rest) (c :: cur) count max_fields) as [fs q].
  cbn [fst] in *. rewrite IH. cbn [rev]. by rewrite <- app_assoc.
Qed.

Lemma split_loop_comma (rest cur : list Z) (count max_fields : nat) :
  (count < max_fields)%nat ->
  (split_loop (44 :: rest) cur count max_fields).1
  = rev cur :: (split_loop rest [] (S count) max_fields).1.
Proof.
  intros Hc. cbn [split_loop]. change (44 =? 42) with false. cbv iota.
  destruct (Nat.leb_spec max_fields count); [lia|].
  change (44 =? 44) with true. cbv iota.
  by destruct (split_loop rest [] (S count) max_fields).
Qed.

Lemma split_loop_end (tail cur : list Z) (count max_fields : nat) :
  (split_loop [] cur count max_fields).1 = [rev cur]
  /\ (split_loop (42 :: tail) cur count max_fields).1 = [rev cur].
Proof. done. Qed.

Lemma split_join (fs : list (list Z)) (count max_fields : nat) (tail : list Z) :
  fs <> [] ->
  Forall (fun f => (44 ∉ f) /\ (42 ∉ f)) fs ->
  (count + length fs <= max_fields)%nat ->
  (split_loop (join_fields fs) [] count max_fields).1 = fs
  /\ (split_loop (join_fields fs ++ 42 :: tail) [] count max_fields).1 = fs.
Proof.
  intros Hne Hclean. revert count.
  induction Hclean as [|f fs [H44 H42] Hclean IH]; intros count Hc; [done|].
  cbn [length] in Hc.
  destruct fs as [|f' fs].
  - cbn [join_fields]. split.
    + rewrite <- (app_nil_r f) at 1.
      rewrite split_loop_field by (done || lia).
      cbn. by rewrite app_nil_r, rev_involutive.
    + rewrite split_loop_field by (done || lia).
      cbn. by rewrite app_nil_r, rev_involutive.
  - change (join_fields (f :: f' :: fs))
      with (f ++ 44 :: join_fields (f' :: fs)).
    destruct (IH ltac:(done) (S count)) as [IH1 IH2]; [cbn [length] in *; lia|].
    split.
    + rewrite split_loop_field by (done || lia).
      rewrite split_loop_comma by lia.
      by rewrite IH1, app_nil_r, rev_involutive.
    + rewrite <- app_assoc. cbn [app].
      rewrite split_loop_field by (done || lia).
      rewrite split_loop_comma by lia.
      by rewrite IH2, app_nil_r, rev_involutive.
Qed.

Lemma split_loop_count (p cur : list Z) (count max_fields : nat) :
  (1 <= length (split_loop p cur count max_fields).1)%nat
  /\ (count + length (split_loop p cur count max_fields).1
      <= S (Nat.max count max_fields))%nat.
Proof.
  revert cur count. induction p as [|c p IH]; intros cur count;
    cbn [split_loop]; [cbn; lia|].
  destruct (c =? 42); [cbn; lia|].
  destruct (Nat.leb_spec max_fields count); [cbn; lia|].
  destruct (c =? 44).
  - specialize (IH [] (S count)).
    destruct (split_loop p [] (S count) max_fields) as [fs q].
    cbn [fst length] in *. lia.
  - specialize (IH (c :: cur) count).
    destruct (split_loop p (c :: cur) count max_fields) as [fs q].
    cbn [fst] in *. lia.
Qed.

(** X14.  Splitting undoes joining.  For a sentence made of fewer fields
    than the limit, none of which holds a comma or a [*], joined by
    commas, [nmea_split_fields] returns exactly these fields, empty ones
    included, with or without a checksum part behind them. *)
Theorem split_fields_of_joined (fs : list (list Z)) (max_fields : nat)
    (tail : list Z) :
  fs <> [] ->
  Forall (fun f => (44 ∉ f) /\ (42 ∉ f)) fs ->
  (length fs < max_fields)%nat ->
  (nmea_split_fields (join_fields fs) max_fields).1 = fs
  /\ (nmea_split_fields (join_fields fs ++ 42 :: tail) max_fields).1 = fs.
Proof.
  intros Hne Hclean Hlen. unfold nmea_split_fields.
  apply split_join; [done|done|lia].
Qed.

(** X15.  The field array is never overrun: for every sentence,
    [nmea_split_fields] finds at least one field and at most [max_fields]
    (one for a limit of 0 or 1).  Once [max_fields] fields have begun the
    splitting stops: behind [max_fields] - 1 fields and their commas the
    last field is the whole rest of the sentence, further commas and the
    checksum part included, unless that rest starts with [*]. *)
Theorem split_fields_bounded (sentence : list Z) (max_fields : nat) :
  (1 <= length (nmea_split_fields sentence max_fields).1
   <= Nat.max 1 max_fields)%nat
  /\ (forall fs rest,
        sentence = join_fields fs ++ 44 :: rest ->
        fs <> [] ->
        Forall (fun f => (44 ∉ f) /\ (42 ∉ f)) fs ->
        S (length fs) = max_fields ->
        (nmea_split_fields sentence max_fields).1
        = fs ++ [match rest with 42 :: _ => [] | _ => rest end]).
Proof.
  split.
  - unfold nmea_split_fields.
    pose proof (split_loop_count sentence [] 1 max_fields). lia.
  - intros fs rest -> Hfs Hclean Hmax. unfold nmea_split_fields.
    assert (forall count,
              (count + length fs = max_fields)%nat -> fs <> [] ->
              (split_loop (join_fields fs ++ 44 :: rest) [] count max_fields).1
              = fs ++ [match rest with 42 :: _ => [] | _ => rest end]) as H.
    { clear Hmax Hfs. induction Hclean as [|f fs [H44 H42] Hclean IH];
        intros count Hc Hfs; [done|].
      cbn [length] in Hc.
      assert ((split_loop (44 :: rest) (rev f) count max_fields).1 =
              [f; match rest with 42 :: _ => [] | _ => rest end]
              \/ fs <> []) as Hlast.
      { destruct fs as [|f' fs]; [left|by right].
        cbn [length] in Hc. rewrite split_loop_comma by lia.
        rewrite rev_involutive. f_equal.
        destruct rest as [|c rest]; [done|]. cbn [split_loop].
        destruct (Z.eqb_spec c 42) as [->|Hc42]; [done|].
        destruct (Nat.leb_spec max_fields (S count)); [|lia].
        cbn. destruct c as [|p|p]; try done.
        do 6 (destruct p as [p|p|]; try done). }
      destruct fs as [|f' fs].
      - destruct Hlast as [Hlast|]; [|done].
        cbn [join_fields app]. rewrite split_loop_field by (done || lia).
        by rewrite app_nil_r.
      - change (join_fields (f :: f' :: fs))
          with (f ++ 44 :: join_fields (f' :: fs)).
        rewrite <- app_assoc. cbn [app].
        rewrite split_loop_field by (done || cbn [length] in *; lia).
        rewrite split_loop_comma by (cbn [length] in *; lia).
        rewrite IH by (done || cbn [length] in *; lia).
        by rewrite app_nil_r, rev_involutive. }
    apply H; [lia|done].
Qed.

Lemma split_fields_of_joined_witness :
  [bytes "GPRMC"; []; bytes "A"] <> []
  /\ Forall (fun f => (44 ∉ f) /\ (42 ∉ f)) [bytes "GPRMC"; []; bytes "A"]
  /\ (length [bytes "GPRMC"; []; bytes "A"] < NMEA_MAX_FIELDS)%nat
  /\ (nmea_split_fields (join_fields [bytes "GPRMC"; []; bytes "A"])
        NMEA_MAX_FIELDS).1 = [bytes "GPRMC"; []; bytes "A"]
  /\ (nmea_split_fields (bytes "GPRMC,,A*7D") NMEA_MAX_FIELDS).1
     = [bytes "GPRMC"; []; bytes "A"].
Proof.
  assert ([bytes "GPRMC"; []; bytes "A"] <> []) as H1 by discriminate.
  assert (Forall (fun f => (44 ∉ f) /\ (42 ∉ f))
            [bytes "GPRMC"; []; bytes "A"]) as H2
    by (apply (bool_decide_unpack _); vm_compute; exact I).
  assert (length [bytes "GPRMC"; []; bytes "A"] < NMEA_MAX_FIELDS)%nat as H3
    by (apply Nat.ltb_lt; reflexivity).
  split; [exact H1|]. split; [exact H2|]. split; [exact H3|].
  exact (split_fields_of_joined [bytes "GPRMC"; []; bytes "A"] NMEA_MAX_FIELDS
           (bytes "7D") H1 H2 H3).
Defined.

Lemma split_fields_bounded_witness :
  [bytes "A"; bytes "B"] <> []
  /\ Forall (fun f => (44 ∉ f) /\ (42 ∉ f)) [bytes "A"; bytes "B"]
  /\ S (length [bytes "A"; bytes "B"]) = 3%nat
  /\ (nmea_split_fields (bytes "A,B,C,D*7F") 3).1
     = [bytes "A"; bytes "B"; bytes "C,D*7F"].
Proof.
  assert ([bytes "A"; bytes "B"] <> []) as H1 by discriminate.
  assert (Forall (fun f => (44 ∉ f) /\ (42 ∉ f)) [bytes "A"; bytes "B"]) as H2
    by (apply (bool_decide_unpack _); vm_compute; exact I).
  assert (S (length [bytes "A"; bytes "B"]) = 3%nat) as H3 by reflexivity.
  split; [exact H1|]. split; [exact H2|]. split; [exact H3|].
  exact (proj2 (split_fields_bounded (bytes "A,B,C,D*7F") 3)
           [bytes "A"; bytes "B"] (bytes "C,D*7F") eq_refl H1 H2 H3).
Defined.

End GpsFields.

(** ** The telemetry receiver: reachable states and lines without effect *)

Module BleRxReach.

Import CStr CStrFacts BleRx.

Lemma ble_run_snoc (st : ble_state) (cs : list ble_call) (c : ble_call) :
  ble_run st (cs ++ [c]) = ble_call_step (ble_run st cs) c.
Proof. unfold ble_run. by rewrite fold_left_app. Qed.

Lemma ble_run_cons (st : ble_state) (cs : list ble_call) (c : ble_call) :
  ble_run st (c :: cs) = ble_run (ble_call_step st c) cs.
Proof. done. Qed.

(** [strncpy] with the size of the array less one writes all but the last
    byte. *)
Lemma strncpy_length (dst src : list Z) (n : nat) :
  (n <= length dst)%nat -> length (strncpy dst src n) = length dst.
Proof.
  intros H. unfold strncpy. apply store_at_length.
  rewrite length_app, length_replicate, length_take. lia.
Qed.

Lemma strncpy_behind (dst src : list Z) (n : nat) :
  (n <= length dst)%nat -> get (strncpy dst src n) n = get dst n.
Proof.
  intros H. unfold strncpy, store_at, get. rewrite take_0. cbn [app Nat.add].
  set (bs := take n src ++ replicate (n - length (take n src)) 0).
  assert (length bs = n) as Hbs.
  { subst bs. rewrite length_app, length_replicate, length_take. lia. }
  rewrite lookup_app_r by lia. rewrite Hbs, Nat.sub_diag, lookup_drop.
  by rewrite Nat.add_0_r.
Qed.

(** What one byte can do to the internal state: nothing, or what the
    parser does with some message. *)
Lemma rx_process_char_cases (st : ble_state) (c : Z) :
  internal (ble_rx_process_char st c) = internal st
  \/ exists message,
       internal (ble_rx_process_char st c)
       = parse_ble_message (internal st) message.
Proof.
  unfold ble_rx_process_char.
  destruct (c =? BLE_MSG_TERMINATOR).
  - destruct (0 <? rx_buffer_idx st)%nat; [right; by eexists|by left].
  - destruct (_ <? _)%nat; [|by left]. destruct (_ && _); by left.
Qed.

(** X16.  No store of the receiver leaves its arrays, and the instruction
    text is always terminated: whatever bytes arrive and whenever records
    are retrieved, the fill index stays at or below 127 in the buffer of
    128 bytes, and the instruction array keeps its 64 bytes with a NUL in
    the last one, so that the text read from it has at most 63
    characters. *)
Theorem receiver_within_bounds (cs : list ble_call) :
  let st := ble_run ble_rx_init cs in
  let text := instruction (current_nav_data (internal st)) in
  length (rx_buffer st) = BLE_RX_BUFFER_LEN
  /\ (rx_buffer_idx st <= BLE_RX_BUFFER_LEN - 1)%nat
  /\ length text = INSTRUCTION_LEN
  /\ get text (INSTRUCTION_LEN - 1) = 0
  /\ (length (cstr text) <= INSTRUCTION_LEN - 1)%nat.
Proof.
  cbn zeta.
  assert (forall text : list Z,
            length text = INSTRUCTION_LEN -> get text (INSTRUCTION_LEN - 1) = 0 ->
            (length (cstr text) <= INSTRUCTION_LEN - 1)%nat) as Hcstr.
  { unfold INSTRUCTION_LEN. intros text Hl H0.
    rewrite <- (take_drop 63 text).
    destruct (drop 63 text) as [|z r] eqn:E.
    { apply (f_equal length) in E. rewrite length_drop in E. simpl in E. lia. }
    assert (z = 0) as ->.
    { unfold get in H0. rewrite <- (take_drop 63 text), E in H0.
      rewrite lookup_app_r in H0 by (rewrite length_take; lia).
      rewrite length_take in H0.
      replace (64 - 1 - 63 `min` length text)%nat with 0%nat in H0 by lia.
      done. }
    rewrite cstr_app_nul.
    etrans; [apply cstr_length|]. rewrite length_take. lia. }
  enough (length (rx_buffer (ble_run ble_rx_init cs)) = BLE_RX_BUFFER_LEN
          /\ (rx_buffer_idx (ble_run ble_rx_init cs) <= BLE_RX_BUFFER_LEN - 1)%nat
          /\ length (instruction (current_nav_data
                       (internal (ble_run ble_rx_init cs)))) = INSTRUCTION_LEN
          /\ get (instruction (current_nav_data
                    (internal (ble_run ble_rx_init cs)))) (INSTRUCTION_LEN - 1) = 0)
    as (H1 & H2 & H3 & H4) by (repeat split; auto).
  induction cs as [|c cs IH] using rev_ind.
  - split; [reflexivity|]. split; [cbn; lia|]. split; reflexivity.
  - rewrite ble_run_snoc. destruct IH as (H1 & H2 & H3 & H4).
    set (st := ble_run ble_rx_init cs) in *. clearbody st.
    destruct c as [b|[d|]|[d|]]; cbn [ble_call_step].
    + assert (length (rx_buffer (ble_rx_process_char st b)) = BLE_RX_BUFFER_LEN
              /\ (rx_buffer_idx (ble_rx_process_char st b)
                  <= BLE_RX_BUFFER_LEN - 1)%nat) as [? ?].
      { unfold ble_rx_process_char, BLE_RX_BUFFER_LEN in *.
        destruct (b =? BLE_MSG_TERMINATOR).
        - destruct (0 <? rx_buffer_idx st)%nat; cbn;
            rewrite ?length_insert; split; (done || lia).
        - destruct (Nat.ltb_spec (rx_buffer_idx st) (128 - 1)).
          + destruct (_ && _); cbn; rewrite ?length_insert; split; (done || lia).
          + cbn. split; (done || lia). }
      split; [done|]. split; [done|].
      destruct (rx_process_char_cases st b) as [-> | [message ->]]; [done|].
      unfold parse_ble_message.
      destruct (strncmp_eq message (bytes "NAV:") 4).
      * destruct (sscanf_nav (drop 4 message)) as [[n ins] dist].
        destruct (n =? 2); [|done].
        cbn [current_nav_data instruction].
        unfold INSTRUCTION_LEN in *.
        rewrite strncpy_length, strncpy_behind by lia. done.
      * destruct (strncmp_eq message (bytes "STATUS:") 7); [|done].
        destruct (sscanf_status (drop 7 message)) as [[[n b1] s1] v1].
        by destruct (n =? 3).
    + unfold ble_rx_get_nav_data.
      by destruct (negb (nav_updated (current_nav_data (internal st)))).
    + done.
    + unfold ble_rx_get_status_data.
      by destruct (negb (status_updated (current_status_data (internal st)))).
    + done.
Qed.

(** X17.  The receiver never reports a disconnection: once
    [ble_rx_is_connected] is true it stays true, whatever bytes arrive and
    whatever is retrieved; and from the initial state a record is only
    ever flagged as updated while the receiver reports a connection. *)
Theorem connection_never_dropped (cs : list ble_call) :
  (forall st, ble_rx_is_connected st = true ->
              ble_rx_is_connected (ble_run st cs) = true)
  /\ (let st := ble_run ble_rx_init cs in
      ble_rx_is_nav_available st || ble_rx_is_status_available st = true ->
      ble_rx_is_connected st = true).
Proof.
  assert (forall g message,
            is_connected (parse_ble_message g message) = true
            /\ (nav_updated (current_nav_data (parse_ble_message g message))
                || status_updated (current_status_data (parse_ble_message g message))
                = true)
            \/ parse_ble_message g message = g) as Hparse.
  { intros g message. unfold parse_ble_message.
    destruct (strncmp_eq message (bytes "NAV:") 4).
    - destruct (sscanf_nav (drop 4 message)) as [[n ins] dist].
      destruct (n =? 2); [left|by right]. done.
    - destruct (strncmp_eq message (bytes "STATUS:") 7); [|by right].
      destruct (sscanf_status (drop 7 message)) as [[[n b1] s1] v1].
      destruct (n =? 3); [left|by right]. cbn. by rewrite orb_true_r. }
  split.
  - induction cs as [|c cs IH]; intros st Hst; [done|].
    rewrite ble_run_cons. apply IH. unfold ble_rx_is_connected in *.
    destruct c as [b|[d|]|[d|]]; cbn [ble_call_step].
    + destruct (rx_process_char_cases st b) as [-> | [message ->]]; [done|].
      by destruct (Hparse (internal st) message) as [[? _] | ->].
    + unfold ble_rx_get_nav_data.
      by destruct (negb (nav_updated (current_nav_data (internal st)))).
    + done.
    + unfold ble_rx_get_status_data.
      by destruct (negb (status_updated (current_status_data (internal st)))).
    + done.
  - cbn zeta. unfold ble_rx_is_nav_available, ble_rx_is_status_available,
      ble_rx_is_connected.
    induction cs as [|c cs IH] using rev_ind; [done|].
    rewrite ble_run_snoc.
    set (st := ble_run ble_rx_init cs) in *. clearbody st.
    destruct c as [b|[d|]|[d|]]; cbn [ble_call_step].
    + destruct (rx_process_char_cases st b) as [-> | [message ->]]; [done|].
      by destruct (Hparse (internal st) message) as [[? _] | ->].
    + unfold ble_rx_get_nav_data.
      destruct (nav_updated (current_nav_data (internal st))) eqn:E;
        cbn [negb snd internal current_nav_data current_status_data
             nav_updated is_connected]; [|by rewrite E].
      intros _. by apply IH.
    + done.
    + unfold ble_rx_get_status_data.
      destruct (status_updated (current_status_data (internal st))) eqn:E;
        cbn [negb snd internal current_nav_data current_status_data
             status_updated is_connected]; [|by rewrite E].
      intros _. apply IH. by rewrite orb_true_r.
    + done.
Qed.

(** X18.  Lines that change nothing.  A complete printable line that fits
    the buffer leaves both records, their flags and the connection flag as
    they were when it starts with neither [NAV:] nor [STATUS:], and when it
    starts with [NAV:] but the conversion of what follows does not yield
    both an instruction and a distance; so does a newline on its own. *)
Theorem line_without_effect (st : ble_state) (line : list Z) :
  rx_buffer_idx st = 0%nat ->
  length (rx_buffer st) = BLE_RX_BUFFER_LEN ->
  Forall (fun c => printable c = true) line ->
  (length line <= BLE_RX_BUFFER_LEN - 1)%nat ->
  line = []
  \/ (strncmp_eq line (bytes "NAV:") 4 = false
      /\ strncmp_eq line (bytes "STATUS:") 7 = false)
  \/ (strncmp_eq line (bytes "NAV:") 4 = true
      /\ (sscanf_nav (drop 4 line)).1.1 <> 2) ->
  internal (ble_feed st (line ++ [10])) = internal st
  /\ rx_buffer_idx (ble_feed st (line ++ [10])) = 0%nat.
Proof.
  intros Hidx Hlen Hp Hl Hcase.
  destruct line as [|c line].
  { cbn. unfold ble_rx_process_char. cbn. by rewrite Hidx. }
  destruct (BleRxProofs.ble_line st (c :: line) Hidx Hlen Hp) as (-> & -> & _).
  { cbn [length] in *. lia. }
  split; [|done]. unfold parse_ble_message.
  destruct Hcase as [? | [[-> ->] | [-> Hn]]]; [done|done|].
  destruct (sscanf_nav (drop 4 (c :: line))) as [[n ins] dist].
  cbn [fst] in Hn. by destruct (Z.eqb_spec n 2).
Qed.

(** X19.  An oversized line is not discarded as a whole.  With 127 bytes
    stored, the next byte that is not a newline empties the buffer and is
    itself dropped; what follows up to the newline is then parsed as a
    message of its own. *)
Theorem oversized_line_tail_parsed (st : ble_state)
    (front tail : list Z) (c : Z) :
  rx_buffer_idx st = 0%nat ->
  length (rx_buffer st) = BLE_RX_BUFFER_LEN ->
  Forall (fun c => printable c = true) front ->
  length front = (BLE_RX_BUFFER_LEN - 1)%nat ->
  c <> 10 ->
  Forall (fun c => printable c = true) tail ->
  (0 < length tail <= BLE_RX_BUFFER_LEN - 1)%nat ->
  internal (ble_feed st (front ++ [c])) = internal st
  /\ rx_buffer_idx (ble_feed st (front ++ [c])) = 0%nat
  /\ internal (ble_feed st (front ++ c :: tail ++ [10]))
     = parse_ble_message (internal st) tail.
Proof.
  intros Hidx Hlen Hp Hfront Hc Hpt Htail. unfold BLE_RX_BUFFER_LEN in *.
  assert (ble_feed st (front ++ [c])
          = {| internal := internal st;
               rx_buffer := store_at (rx_buffer st) 0 front;
               rx_buffer_idx := 0 |}) as E.
  { rewrite BleRxProofs.ble_feed_app.
    rewrite (BleRxProofs.ble_feed_printable front st Hp);
      rewrite ?Hidx, ?Hlen, ?Hfront; unfold BLE_RX_BUFFER_LEN; try lia.
    cbn [ble_feed fold_left]. unfold ble_rx_process_char, BLE_MSG_TERMINATOR.
    destruct (Z.eqb_spec c 10); [done|].
    cbn [rx_buffer_idx internal rx_buffer]. unfold BLE_RX_BUFFER_LEN.
    by destruct (Nat.ltb_spec (0 + (128 - 1)) (128 - 1)); [lia|]. }
  rewrite E. split; [done|]. split; [done|].
  replace (front ++ c :: tail ++ [10]) with ((front ++ [c]) ++ tail ++ [10])
    by (by rewrite <- app_assoc).
  rewrite BleRxProofs.ble_feed_app, E.
  match goal with |- context [ble_feed ?s _] => set (st1 := s) end.
  destruct (BleRxProofs.ble_line st1 tail) as (-> & _); try done.
  subst st1. cbn [rx_buffer]. rewrite store_at_length; [done|]. lia.
Qed.

Lemma connection_never_dropped_witness :
  ble_rx_is_connected example_after_status = true
  /\ ble_rx_is_connected
       (ble_run example_after_status
          [BleByte 65; BleGetStatus (Some (mkStatus 0 0 0 false)); BleByte 10])
     = true.
Proof.
  assert (ble_rx_is_connected example_after_status = true) as H
    by (vm_compute; reflexivity).
  split; [exact H|].
  exact (proj1 (connection_never_dropped
                  [BleByte 65; BleGetStatus (Some (mkStatus 0 0 0 false));
                   BleByte 10]) example_after_status H).
Defined.

Lemma line_without_effect_witness :
  rx_buffer_idx ble_rx_init = 0%nat
  /\ length (rx_buffer ble_rx_init) = BLE_RX_BUFFER_LEN
  /\ (Forall (fun c => printable c = true) (bytes "HELLO")
      /\ (length (bytes "HELLO") <= BLE_RX_BUFFER_LEN - 1)%nat
      /\ strncmp_eq (bytes "HELLO") (bytes "NAV:") 4 = false
      /\ strncmp_eq (bytes "HELLO") (bytes "STATUS:") 7 = false
      /\ internal (ble_feed ble_rx_init (bytes "HELLO" ++ [10]))
         = internal ble_rx_init)
  /\ (Forall (fun c => printable c = true) (bytes "NAV:Turn left")
      /\ (length (bytes "NAV:Turn left") <= BLE_RX_BUFFER_LEN - 1)%nat
      /\ strncmp_eq (bytes "NAV:Turn left") (bytes "NAV:") 4 = true
      /\ (sscanf_nav (drop 4 (bytes "NAV:Turn left"))).1.1 <> 2
      /\ internal (ble_feed ble_rx_init (bytes "NAV:Turn left" ++ [10]))
         = internal ble_rx_init).
Proof.
  assert (rx_buffer_idx ble_rx_init = 0%nat) as H1 by reflexivity.
  assert (length (rx_buffer ble_rx_init) = BLE_RX_BUFFER_LEN) as H2
    by reflexivity.
  split; [exact H1|]. split; [exact H2|]. split.
  - assert (Forall (fun c => printable c = true) (bytes "HELLO")) as H3
      by (apply (bool_decide_unpack _); vm_compute; exact I).
    assert (length (bytes "HELLO") <= BLE_RX_BUFFER_LEN - 1)%nat as H4
      by (apply Nat.leb_le; reflexivity).
    assert (strncmp_eq (bytes "HELLO") (bytes "NAV:") 4 = false) as H5
      by (vm_compute; reflexivity).
    assert (strncmp_eq (bytes "HELLO") (bytes "STATUS:") 7 = false) as H6
      by (vm_compute; reflexivity).
    split; [exact H3|]. split; [exact H4|]. split; [exact H5|].
    split; [exact H6|].
    exact (proj1 (line_without_effect ble_rx_init (bytes "HELLO") H1 H2 H3 H4
                    (or_intror (or_introl (conj H5 H6))))).
  - assert (Forall (fun c => printable c = true) (bytes "NAV:Turn left")) as H3
      by (apply (bool_decide_unpack _); vm_compute; exact I).
    assert (length (bytes "NAV:Turn left") <= BLE_RX_BUFFER_LEN - 1)%nat as H4
      by (apply Nat.leb_le; reflexivity).
    assert (strncmp_eq (bytes "NAV:Turn left") (bytes "NAV:") 4 = true) as H5
      by (vm_compute; reflexivity).
    assert ((sscanf_nav (drop 4 (bytes "NAV:Turn left"))).1.1 <> 2) as H6
      by (vm_compute; discriminate).
    split; [exact H3|]. split; [exact H4|]. split; [exact H5|].
    split; [exact H6|].
    exact (proj1 (line_without_effect ble_rx_init (bytes "NAV:Turn left")
                    H1 H2 H3 H4 (or_intror (or_intror (conj H5 H6))))).
Defined.

Lemma oversized_line_tail_parsed_witness :
  rx_buffer_idx ble_rx_init = 0%nat
  /\ length (rx_buffer ble_rx_init) = BLE_RX_BUFFER_LEN
  /\ Forall (fun c => printable c = true) example_front
  /\ length example_front = (BLE_RX_BUFFER_LEN - 1)%nat
  /\ 66 <> 10
  /\ Forall (fun c => printable c = true) (bytes "STATUS:1,2,3")
  /\ (0 < length (bytes "STATUS:1,2,3") <= BLE_RX_BUFFER_LEN - 1)%nat
  /\ internal (ble_feed ble_rx_init
                 (example_front ++ 66 :: bytes "STATUS:1,2,3" ++ [10]))
     = parse_ble_message (internal ble_rx_init) (bytes "STATUS:1,2,3")
  /\ current_status_data
       (parse_ble_message (internal ble_rx_init) (bytes "STATUS:1,2,3"))
     = mkStatus 1 2 3 true.
Proof.
  assert (rx_buffer_idx ble_rx_init = 0%nat) as H1 by reflexivity.
  assert (length (rx_buffer ble_rx_init) = BLE_RX_BUFFER_LEN) as H2
    by reflexivity.
  assert (Forall (fun c => printable c = true) example_front) as H3
    by (apply (bool_decide_unpack _); vm_compute; exact I).
  assert (length example_front = (BLE_RX_BUFFER_LEN - 1)%nat) as H4
    by reflexivity.
  assert (66 <> 10) as H5 by discriminate.
  assert (Forall (fun c => printable c = true) (bytes "STATUS:1,2,3")) as H6
    by (apply (bool_decide_unpack _); vm_compute; exact I).
  assert (0 < length (bytes "STATUS:1,2,3") <= BLE_RX_BUFFER_LEN - 1)%nat as H7
    by (split; [apply Nat.ltb_lt|apply Nat.leb_le]; reflexivity).
  split; [exact H1|]. split; [exact H2|]. split; [exact H3|].
  split; [exact H4|]. split; [exact H5|]. split; [exact H6|].
  split; [exact H7|]. split; [|vm_compute; reflexivity].
  exact (proj2 (proj2 (oversized_line_tail_parsed ble_rx_init example_front
                         (bytes "STATUS:1,2,3") 66 H1 H2 H3 H4 H5 H6 H7))).
Defined.

End BleRxReach.

(** ** The BLE link: what the brain sends, the display receives *)

Module BleLink.

Import CStr CStrFacts BleRx BleUart.
















End BleLink.

(** ** The brain module's view of the BLE connection *)

Module BleUartProofs.

Import CStr CStrFacts BleUart.

Lemma strstr_found (s needle : list Z) (k : nat) :
  take (length needle) (drop k s) = needle -> is_Some (strstr s needle).
Proof.
  revert s. induction k as [|k IH]; intros s H.
  - rewrite drop_0 in H. destruct s; cbn [strstr];
      rewrite bool_decide_eq_true_2 by done; by eexists.
  - destruct s as [|x s].
    + cbn [strstr]. rewrite drop_nil in H.
      rewrite bool_decide_eq_true_2; [by eexists|].
      by rewrite take_nil in *.
    + cbn [strstr]. destruct (bool_decide _); [by eexists|].
      apply IH. by rewrite skipn_cons in H.
Qed.

Lemma strstr_position (s needle : list Z) :
  is_Some (strstr s needle) ->
  exists k, take (length needle) (drop k s) = needle.
Proof.
  induction s as [|x s IH]; cbn [strstr].
  - destruct (bool_decide_reflect (take (length needle) [] = needle)) as [E|E].
    + intros _. by exists 0%nat.
    + by intros [? ?].
  - destruct (bool_decide_reflect (take (length needle) (x :: s) = needle))
      as [E|E].
    + intros _. by exists 0%nat.
    + intros [k Hk]%IH. by exists (S k).
Qed.

(** A line that holds DISCONNECT holds CONNECT. *)
Lemma disconnect_holds_connect (s : list Z) :
  is_Some (strstr s (bytes "DISCONNECT")) ->
  is_Some (strstr s (bytes "CONNECT")).
Proof.
  intros [k Hk]%strstr_position.
  apply (strstr_found s (bytes "CONNECT") (k + 3)).
  rewrite <- drop_drop. change (length (bytes "CONNECT")) with 7%nat.
  rewrite take_drop_commute.
  change (length (bytes "DISCONNECT")) with 10%nat in Hk.
  change (3 + 7)%nat with 10%nat. by rewrite Hk.
Qed.

Lemma uart_feed_app (st : ble_uart_state) (s1 s2 : list Z) :
  ble_uart_feed st (s1 ++ s2) = ble_uart_feed (ble_uart_feed st s1) s2.
Proof. apply fold_left_app. Qed.

Lemma uart_feed_cons (st : ble_uart_state) (c : Z) (s : list Z) :
  ble_uart_feed st (c :: s) = ble_uart_feed (ble_uart_process_char st c) s.
Proof. done. Qed.

(** Bytes other than the newline are stored one after the other while
    there is room. *)
Lemma uart_feed_body (line : list Z) (st : ble_uart_state) :
  10 ∉ line ->
  (ble_rx_idx st + length line <= BLE_CMD_BUFFER_SIZE - 1)%nat ->
  (ble_rx_idx st + length line <= length (ble_rx_buffer st))%nat ->
  ble_uart_feed st line =
    {| ble_connected := ble_connected st;
       ble_rx_buffer := store_at (ble_rx_buffer st) (ble_rx_idx st) line;
       ble_rx_idx := ble_rx_idx st + length line |}.
Proof.
  revert st. unfold BLE_CMD_BUFFER_SIZE.
  induction line as [|c line IH]; intros st H10 Hroom Hlen.
  - cbn. rewrite store_at_nil, Nat.add_0_r. by destruct st.
  - apply not_elem_of_cons in H10 as [Hc H10]. cbn [length] in *.
    rewrite uart_feed_cons.
    unfold ble_uart_process_char, BLE_CMD_BUFFER_SIZE.
    destruct (Z.eqb_spec c 10); [done|].
    destruct (Nat.ltb_spec (ble_rx_idx st) (128 - 1)); [|lia].
    rewrite IH; cbn [ble_rx_buffer ble_rx_idx ble_connected];
      rewrite ?length_insert; try done; try lia.
    f_equal; [|lia]. apply store_at_insert. lia.
Qed.

(** The string that the end of a line examines: the stored bytes up to the
    first NUL, without a closing CR. *)
Lemma examined_string (buf line : list Z) (cr : bool) :
  Forall (fun c => c <> 0 /\ c <> 13) line ->
  let body := if cr then line ++ [13] else line in
  let i := length body in
  (i < length buf)%nat ->
  let b := <[i := 0]> (store_at buf 0 body) in
  cstr (if (0 <? i)%nat && (get b (i - 1) =? 13)
        then <[(i - 1)%nat := 0]> b else b) = line.
Proof.
  intros Hclean body i Hi b.
  assert (Forall (fun c => c <> 0) line) as Hnz.
  { eapply Forall_impl; [exact Hclean|]. by intros c (? & _). }
  assert (b = body ++ 0 :: drop (S i) buf) as Hb.
  { subst b. rewrite <- (Nat.add_0_l i) at 1. subst i.
    rewrite insert_store_at by (cbn; lia).
    unfold store_at. rewrite take_0, length_app. cbn [app length Nat.add].
    rewrite <- app_assoc. cbn [app]. do 3 f_equal. lia. }
  destruct cr; subst body.
  - assert (i = S (length line)) as Ei
      by (subst i; rewrite length_app; cbn; lia).
    rewrite Ei in *. cbn [Nat.ltb Nat.leb andb].
    replace (S (length line) - 1)%nat with (length line) by lia.
    assert (get b (length line) = 13) as ->.
    { rewrite Hb. unfold get. rewrite <- app_assoc.
      rewrite lookup_app_r by lia. by rewrite Nat.sub_diag. }
    change (13 =? 13) with true. cbv iota.
    rewrite Hb, <- app_assoc.
    rewrite <- (Nat.add_0_r (length line)) at 1. rewrite insert_app_r.
    cbn [app]. change (<[0%nat := 0]> (13 :: ?t)) with (0 :: t).
    rewrite cstr_app_nul. by apply cstr_nonzero.
  - assert (cstr b = line) as Hc.
    { rewrite Hb, cstr_app_nul. by apply cstr_nonzero. }
    destruct (Nat.ltb_spec 0 i); cbn [andb]; [|done].
    assert (get b (i - 1) <> 13) as Hne.
    { rewrite Hb. unfold get. rewrite lookup_app_l by (subst i; lia).
      destruct (lookup_lt_is_Some_2 line (i - 1) ltac:(subst i; lia)) as [x Hx].
      rewrite Hx. cbn. rewrite Forall_forall in Hclean.
      by destruct (Hclean x (list_elem_of_lookup_2 _ _ _ Hx)). }
    by destruct (Z.eqb_spec (get b (i - 1)) 13).
Qed.

(** The connection flag after a complete line, with or without a CR
    before the newline. *)
Lemma uart_line (st : ble_uart_state) (line : list Z) (cr : bool) :
  ble_rx_idx st = 0%nat ->
  length (ble_rx_buffer st) = BLE_CMD_BUFFER_SIZE ->
  Forall (fun c => c <> 0 /\ c <> 10 /\ c <> 13) line ->
  (length line <= BLE_CMD_BUFFER_SIZE - 2)%nat ->
  let st' := ble_uart_feed st (line ++ (if cr then [13; 10] else [10])) in
  ble_connected st'
  = (if bool_decide (is_Some (strstr line (bytes "CONNECT"))) then true
     else ble_connected st)
  /\ ble_rx_idx st' = 0%nat.
Proof.
  unfold BLE_CMD_BUFFER_SIZE. intros Hidx Hlen Hclean Hl.
  set (body := if cr then line ++ [13] else line).
  assert (line ++ (if cr then [13; 10] else [10]) = body ++ [10]) as ->.
  { subst body. destruct cr; [|done]. by rewrite <- app_assoc. }
  assert (10 ∉ body) as H10.
  { assert (10 ∉ line) as H.
    { intros H. rewrite Forall_forall in Hclean.
      by destruct (Hclean 10 H) as (_ & ? & _). }
    subst body. destruct cr; [|done].
    intros [?|Hin]%elem_of_app; [done|].
    apply elem_of_cons in Hin as [?|?%elem_of_nil]; done. }
  assert (length body <= 127)%nat as Hbl.
  { subst body. destruct cr; rewrite ?length_app; cbn [length]; lia. }
  cbn zeta. rewrite uart_feed_app, (uart_feed_body body st);
    rewrite ?Hidx, ?Hlen;
    unfold BLE_CMD_BUFFER_SIZE; try done; try lia.
  cbn [ble_uart_feed fold_left]. unfold ble_uart_process_char.
  change (10 =? 10) with true. cbv iota.
  cbn [ble_rx_idx ble_rx_buffer ble_connected Nat.add].
  split; [|done]. subst body.
  rewrite (examined_string (ble_rx_buffer st) line cr); [..|lia].
  - destruct (bool_decide_reflect (is_Some (strstr line (bytes "CONNECT"))))
      as [E|E]; [done|].
    rewrite bool_decide_eq_false_2; [done|].
    intros H. by apply E, disconnect_holds_connect.
  - eapply Forall_impl; [exact Hclean|]. by intros c (? & _ & ?).
Qed.

(** X23.  The brain module never registers a disconnection.  Whatever
    bytes arrive, [ble_uart_is_connected] does not go back from true to
    false: the branch that clears the flag cannot be taken, because a line
    that holds DISCONNECT holds CONNECT, which is tested first.  A line
    that reports DISCONNECT therefore sets the flag. *)
Theorem disconnect_never_registered (st : ble_uart_state) :
  (forall stream,
     ble_uart_is_connected st = true ->
     ble_uart_is_connected (ble_uart_feed st stream) = true)
  /\ (forall (line : list Z) (cr : bool),
        ble_rx_idx st = 0%nat ->
        length (ble_rx_buffer st) = BLE_CMD_BUFFER_SIZE ->
        Forall (fun c => c <> 0 /\ c <> 10 /\ c <> 13) line ->
        (length line <= BLE_CMD_BUFFER_SIZE - 2)%nat ->
        is_Some (strstr line (bytes "DISCONNECT")) ->
        ble_uart_is_connected
          (ble_uart_feed st (line ++ (if cr then [13; 10] else [10]))) = true).
Proof.
  unfold ble_uart_is_connected. split.
  - intros stream. revert st.
    induction stream as [|c stream IH]; intros st Hst; [done|].
    rewrite uart_feed_cons. apply IH.
    unfold ble_uart_process_char.
    destruct (c =? 10); [|by destruct (_ <? _)%nat].
    cbn [ble_connected].
    match goal with |- context [cstr ?b] => generalize (cstr b); intros s end.
    destruct (bool_decide_reflect (is_Some (strstr s (bytes "CONNECT"))))
      as [E|E]; [done|].
    rewrite bool_decide_eq_false_2; [done|].
    intros H. by apply E, disconnect_holds_connect.
  - intros line cr Hidx Hlen Hclean Hl Hdis.
    destruct (uart_line st line cr Hidx Hlen Hclean Hl) as [-> _].
    rewrite bool_decide_eq_true_2; [done|].
    by apply disconnect_holds_connect.
Qed.

(** X24.  No store of [ble_uart_process_char] leaves its line buffer:
    from program start the fill index stays at or below 127 in the buffer
    of 128 bytes, whatever bytes arrive. *)
Theorem uart_line_within_bounds (stream : list Z) :
  let st := ble_uart_feed ble_uart_start stream in
  length (ble_rx_buffer st) = BLE_CMD_BUFFER_SIZE
  /\ (ble_rx_idx st <= BLE_CMD_BUFFER_SIZE - 1)%nat.
Proof.
  cbn zeta. unfold BLE_CMD_BUFFER_SIZE.
  induction stream as [|c stream IH] using rev_ind.
  - split; [reflexivity|cbn; lia].
  - rewrite uart_feed_app. destruct IH as [H1 H2].
    set (st := ble_uart_feed ble_uart_start stream) in *. clearbody st.
    cbn [ble_uart_feed fold_left]. unfold ble_uart_process_char.
    destruct (c =? 10).
    + cbn [ble_rx_buffer ble_rx_idx].
      destruct (_ && _); rewrite ?length_insert; split; (done || lia).
    + unfold BLE_CMD_BUFFER_SIZE.
      destruct (Nat.ltb_spec (ble_rx_idx st) (128 - 1)); cbn;
        rewrite ?length_insert; split; (done || lia).
Qed.

Lemma disconnect_never_registered_witness :
  ble_rx_idx ble_uart_start = 0%nat
  /\ length (ble_rx_buffer ble_uart_start) = BLE_CMD_BUFFER_SIZE
  /\ Forall (fun c => c <> 0 /\ c <> 10 /\ c <> 13) (bytes "+DISCONNECT")
  /\ (length (bytes "+DISCONNECT") <= BLE_CMD_BUFFER_SIZE - 2)%nat
  /\ is_Some (strstr (bytes "+DISCONNECT") (bytes "DISCONNECT"))
  /\ ble_uart_is_connected ble_uart_start = false
  /\ ble_uart_is_connected
       (ble_uart_feed ble_uart_start (bytes "+DISCONNECT" ++ [13; 10])) = true.
Proof.
  assert (ble_rx_idx ble_uart_start = 0%nat) as H1 by reflexivity.
  assert (length (ble_rx_buffer ble_uart_start) = BLE_CMD_BUFFER_SIZE) as H2
    by reflexivity.
  assert (Forall (fun c => c <> 0 /\ c <> 10 /\ c <> 13) (bytes "+DISCONNECT"))
    as H3 by (apply (bool_decide_unpack _); vm_compute; exact I).
  assert (length (bytes "+DISCONNECT") <= BLE_CMD_BUFFER_SIZE - 2)%nat as H4
    by (apply Nat.leb_le; reflexivity).
  assert (is_Some (strstr (bytes "+DISCONNECT") (bytes "DISCONNECT"))) as H5
    by (apply (bool_decide_unpack _); vm_compute; exact I).
  split; [exact H1|]. split; [exact H2|]. split; [exact H3|].
  split; [exact H4|]. split; [exact H5|]. split; [reflexivity|].
  exact (proj2 (disconnect_never_registered ble_uart_start)
           (bytes "+DISCONNECT") true H1 H2 H3 H4 H5).
Defined.

End BleUartProofs.

(** ** The UART layer and the polling loops *)

Module UartProofs.

Import RingBuffer.

Section Capacity.

Variable rb_bits : Z.
Variable N : Z.
Hypothesis N_pos : 0 < N.
Hypothesis N_fits : N < rb_modulus rb_bits.

(** One single read, by the queue. *)
Lemma read_queue (r : ring_buffer_t) (x : Z) :
  rb_inv N r ->
  match contents r with
  | [] => ring_buffer_is_empty (Some r) = true
          /\ ring_buffer_read rb_bits (Some r) (Some x) = (false, Some x, Some r)
  | c :: q =>
      ring_buffer_is_empty (Some r) = false
      /\ exists r', ring_buffer_read rb_bits (Some r) (Some x)
                    = (true, Some c, Some r')
                    /\ rb_inv N r' /\ contents r' = q
  end.
Proof.
  intros Hr. pose proof (RingBufferProofs.count_contents N r Hr) as Hn.
  destruct (contents r) as [|c q] eqn:E.
  - cbn in Hn. split.
    + cbn. by apply Z.eqb_eq.
    + apply (RingBufferBulk.read_empty rb_bits N); [done|lia].
  - cbn [length] in Hn.
    destruct (RingBufferProofs.read_contents rb_bits N N_pos N_fits r x Hr
                ltac:(lia)) as (v & r' & Er & Hr' & Hc).
    rewrite E in Hc. injection Hc as Hv Hq. subst v.
    split; [cbn; apply Z.eqb_neq; lia|]. by exists r'.
Qed.

(** The loop of [hal_uart_read] is the loop of the display module's
    [ring_buffer_read_multi]. *)
Lemma uart_read_loop_multi (fuel : nat) (rb : option ring_buffer_t)
    (out : list Z) (len br : Z) :
  0 <= br -> len < rb_modulus rb_bits ->
  Uart.uart_read_loop rb_bits fuel rb out len br
  = read_multi_loop_display rb_bits fuel rb out len br.
Proof.
  revert rb out br. induction fuel as [|fuel IH]; intros rb out br Hbr Hlen;
    cbn [Uart.uart_read_loop read_multi_loop_display]; [done|].
  destruct (Z.ltb_spec br len); [|done].
  destruct (ring_buffer_read rb_bits rb (Some (CStr.get out (Z.to_nat br))))
    as [[ok slot] rb'].
  destruct ok; [|done].
  assert (rb_wrap rb_bits (br + 1) = br + 1) as ->
    by (apply Z.mod_small; lia).
  apply IH; lia.
Qed.

(** X25.  [hal_uart_get_char] (brain module) hands out the oldest queued
    byte and returns -1 exactly when there is none.  On a UART whose
    receive ring buffer holds bytes (values 0 to 255),
    [hal_uart_data_available] tells whether the queue is non-empty, and
    [hal_uart_get_char] returns the head of the queue and leaves the rest
    queued, or returns -1 and changes nothing on an empty queue; after
    [hal_uart_flush_rx_buffer] nothing is available.  For an identifier
    that names no UART both report that there is nothing. *)
Theorem get_char_oldest_byte (uart_id : Uart.uart_id_t) (u : Uart.uart_state) :
  (Uart.get_rx_rb uart_id u = None ->
   Uart.hal_uart_get_char rb_bits uart_id u = (-1, u)
   /\ Uart.hal_uart_data_available uart_id u = false)
  /\ (forall r,
        Uart.get_rx_rb uart_id u = Some r ->
        rb_inv N r ->
        Forall (fun c => 0 <= c < 256) (contents r) ->
        match contents r with
        | [] =>
            Uart.hal_uart_data_available uart_id u = false
            /\ (Uart.hal_uart_get_char rb_bits uart_id u).1 = -1
            /\ Uart.get_rx_rb uart_id
                 (Uart.hal_uart_get_char rb_bits uart_id u).2 = Some r
        | c :: q =>
            Uart.hal_uart_data_available uart_id u = true
            /\ (Uart.hal_uart_get_char rb_bits uart_id u).1 = c
            /\ c <> -1
            /\ exists r',
                 Uart.get_rx_rb uart_id
                   (Uart.hal_uart_get_char rb_bits uart_id u).2 = Some r'
                 /\ rb_inv N r' /\ contents r' = q
        end
        /\ Uart.hal_uart_data_available uart_id
             (Uart.hal_uart_flush_rx_buffer uart_id u) = false).
Proof.
  split.
  - intros E. unfold Uart.hal_uart_get_char, Uart.hal_uart_data_available.
    by rewrite E.
  - intros r E Hr Hbytes.
    unfold Uart.hal_uart_get_char, Uart.hal_uart_data_available,
      Uart.hal_uart_flush_rx_buffer.
    rewrite E. split.
    + pose proof (read_queue r 0 Hr) as Hq.
      destruct (contents r) as [|c q].
      * destruct Hq as [He ->]. rewrite He. cbn [negb fst snd].
        split; [done|]. split; [done|].
        destruct uart_id; cbn in *; congruence.
      * destruct Hq as [He (r' & -> & Hr' & Hc)]. rewrite He.
        cbn [negb fst snd default]. split; [done|]. split; [done|].
        apply Forall_cons in Hbytes as [Hc0 _]. split; [lia|].
        exists r'. split; [|done]. by destruct uart_id.
    + destruct uart_id; cbn in *; try done.
Qed.

(** X28.  [hal_uart_read] (brain module) delivers the oldest bytes in
    order: with [len] within the range of the size type it returns the
    smaller of [len] and the number of queued bytes, the destination
    array starts with that many bytes from the front of the queue and is
    unchanged behind them, and the rest stays queued.  The loop ends
    within [len] + 1 iterations. *)
Theorem hal_uart_read_takes (fuel : nat) (uart_id : Uart.uart_id_t)
    (u : Uart.uart_state) (r : ring_buffer_t) (out : list Z) (len : Z) :
  Uart.get_rx_rb uart_id u = Some r ->
  rb_inv N r -> 0 <= len < rb_modulus rb_bits ->
  (Z.to_nat len <= length out)%nat -> (Z.to_nat len < fuel)%nat ->
  let n := Z.min len (count r) in
  exists u' r',
    Uart.hal_uart_read rb_bits fuel uart_id u out len
    = Some (n, take (Z.to_nat n) (contents r) ++ drop (Z.to_nat n) out, u')
    /\ Uart.get_rx_rb uart_id u' = Some r'
    /\ rb_inv N r'
    /\ contents r' = drop (Z.to_nat n) (contents r).
Proof.
  intros E Hr Hlen Hout Hfuel n. pose proof Hr as [_ Hc _ _ _].
  unfold Uart.hal_uart_read. rewrite E.
  rewrite uart_read_loop_multi by lia.
  destruct fuel as [|fuel]; [lia|].
  destruct (RingBufferBulk.read_multi_loop_spec rb_bits N N_pos N_fits
              fuel r out len 0 Hr ltac:(lia) ltac:(lia) Hout)
    as (r' & E' & Hr' & Hc').
  { lia. }
  rewrite (RingBufferBulk.read_loop_brain_display _ _ _ _ _ _ _ E').
  rewrite Z.sub_0_r in *. fold n. fold n in Hc'.
  exists (Uart.set_rx_rb uart_id (Some r') u), r'.
  split; [|split; [by destruct uart_id|done]].
  do 3 f_equal. unfold CStr.store_at. cbn [Z.to_nat]. rewrite take_0.
  cbn [app Nat.add]. rewrite length_take, RingBufferProofs.contents_length.
  rewrite Nat.min_l by (subst n; lia). done.
Qed.

End Capacity.

Section Polling.

Variable rb_bits : Z.

Lemma byte_passes (c : Z) :
  0 <= c < 256 -> (c =? -1) = false /\ c mod 256 = c.
Proof.
  intros H. split; [apply Z.eqb_neq; lia|apply Z.mod_small; lia].
Qed.

Lemma gps_poll_drains (N : Z) (fuel : nat) (u : Uart.uart_state)
    (g : Gps.gps_state) :
  0 < N -> N < rb_modulus rb_bits ->
  rb_inv N (Uart.hw_uart0_rx_rb u) ->
  Forall (fun c => 0 <= c < 256) (contents (Uart.hw_uart0_rx_rb u)) ->
  (length (contents (Uart.hw_uart0_rx_rb u)) <= fuel)%nat ->
  exists r',
    Uart.gps_poll_loop rb_bits fuel u g
    = Some (Uart.mkUart r' (Uart.hw_uart0_tx_rb u) (Uart.sw_uart1_rx_rb u)
              (Uart.sw_uart1_tx_rb u),
            Gps.gps_feed g (contents (Uart.hw_uart0_rx_rb u)))
    /\ rb_inv N r' /\ contents r' = [].
Proof.
  intros N_pos N_fits. revert u g.
  induction fuel as [|fuel IH]; intros u g Hr Hbytes Hfuel;
    cbn [Uart.gps_poll_loop];
    unfold Uart.hal_uart_data_available, Uart.hal_uart_get_char,
      Uart.GPS_UART_ID; cbn [Uart.get_rx_rb];
    pose proof (read_queue rb_bits N N_pos N_fits _ 0 Hr) as Hq;
    destruct (contents (Uart.hw_uart0_rx_rb u)) as [|c q] eqn:E.
  - destruct Hq as [-> _]. cbn [negb]. exists (Uart.hw_uart0_rx_rb u).
    split; [by destruct u|done].
  - cbn [length] in Hfuel. lia.
  - destruct Hq as [-> _]. cbn [negb]. exists (Uart.hw_uart0_rx_rb u).
    split; [by destruct u|done].
  - destruct Hq as [-> (r1 & -> & Hr1 & Hc1)]. cbn [negb].
    cbv beta iota zeta. change (default 0 (Some c)) with c.
    apply Forall_cons in Hbytes as [Hc Hbytes].
    destruct (byte_passes c Hc) as [-> ->].
    cbn [Uart.set_rx_rb].
    destruct (IH (Uart.mkUart r1 (Uart.hw_uart0_tx_rb u) (Uart.sw_uart1_rx_rb u)
                    (Uart.sw_uart1_tx_rb u)) (Gps.gps_process_char g c))
      as (r' & -> & Hr' & Hc'); cbn [Uart.hw_uart0_rx_rb]; rewrite ?Hc1;
      try done.
    { cbn [length] in Hfuel. lia. }
    by exists r'.
Qed.

Lemma ble_poll_drains (N : Z) (fuel : nat) (u : Uart.uart_state)
    (b : BleUart.ble_uart_state) :
  0 < N -> N < rb_modulus rb_bits ->
  rb_inv N (Uart.sw_uart1_rx_rb u) ->
  Forall (fun c => 0 <= c < 256) (contents (Uart.sw_uart1_rx_rb u)) ->
  (length (contents (Uart.sw_uart1_rx_rb u)) <= fuel)%nat ->
  exists r',
    Uart.ble_poll_loop rb_bits fuel u b
    = Some (Uart.mkUart (Uart.hw_uart0_rx_rb u) (Uart.hw_uart0_tx_rb u) r'
              (Uart.sw_uart1_tx_rb u),
            BleUart.ble_uart_feed b (contents (Uart.sw_uart1_rx_rb u)))
    /\ rb_inv N r' /\ contents r' = [].
Proof.
  intros N_pos N_fits. revert u b.
  induction fuel as [|fuel IH]; intros u b Hr Hbytes Hfuel;
    cbn [Uart.ble_poll_loop];
    unfold Uart.hal_uart_data_available, Uart.hal_uart_get_char,
      Uart.BLE_UART_ID; cbn [Uart.get_rx_rb];
    pose proof (read_queue rb_bits N N_pos N_fits _ 0 Hr) as Hq;
    destruct (contents (Uart.sw_uart1_rx_rb u)) as [|c q] eqn:E.
  - destruct Hq as [-> _]. cbn [negb]. exists (Uart.sw_uart1_rx_rb u).
    split; [by destruct u|done].
  - cbn [length] in Hfuel. lia.
  - destruct Hq as [-> _]. cbn [negb]. exists (Uart.sw_uart1_rx_rb u).
    split; [by destruct u|done].
  - destruct Hq as [-> (r1 & -> & Hr1 & Hc1)]. cbn [negb].
    cbv beta iota zeta. change (default 0 (Some c)) with c.
    apply Forall_cons in Hbytes as [Hc Hbytes].
    destruct (byte_passes c Hc) as [-> ->].
    cbn [Uart.set_rx_rb].
    destruct (IH (Uart.mkUart (Uart.hw_uart0_rx_rb u) (Uart.hw_uart0_tx_rb u) r1
                    (Uart.sw_uart1_tx_rb u)) (BleUart.ble_uart_process_char b c))
      as (r' & -> & Hr' & Hc'); cbn [Uart.sw_uart1_rx_rb]; rewrite ?Hc1;
      try done.
    { cbn [length] in Hfuel. lia. }
    by exists r'.
Qed.


(** X26.  [process_communication] (brain [main.c]) empties both receive
    queues into their consumers, in order and without loss: the GPS
    driver is fed exactly the bytes queued on the GPS UART, oldest first,
    the BLE line reader exactly those queued on the BLE UART; afterwards
    neither UART has data available and the transmit buffers are as they
    were.  Each loop ends within as many iterations as bytes are
    queued. *)
Theorem process_communication_drains (N0 N1 : Z) (fuel : nat)
    (u : Uart.uart_state) (g : Gps.gps_state) (b : BleUart.ble_uart_state) :
  0 < N0 < rb_modulus rb_bits -> 0 < N1 < rb_modulus rb_bits ->
  rb_inv N0 (Uart.hw_uart0_rx_rb u) ->
  rb_inv N1 (Uart.sw_uart1_rx_rb u) ->
  Forall (fun c => 0 <= c < 256) (contents (Uart.hw_uart0_rx_rb u)) ->
  Forall (fun c => 0 <= c < 256) (contents (Uart.sw_uart1_rx_rb u)) ->
  (length (contents (Uart.hw_uart0_rx_rb u)) <= fuel)%nat ->
  (length (contents (Uart.sw_uart1_rx_rb u)) <= fuel)%nat ->
  exists u',
    Uart.process_communication rb_bits fuel u g b
    = Some (u',
            Gps.gps_feed g (contents (Uart.hw_uart0_rx_rb u)),
            BleUart.ble_uart_feed b (contents (Uart.sw_uart1_rx_rb u)))
    /\ Uart.hal_uart_data_available Uart.GPS_UART_ID u' = false
    /\ Uart.hal_uart_data_available Uart.BLE_UART_ID u' = false
    /\ Uart.hw_uart0_tx_rb u' = Uart.hw_uart0_tx_rb u
    /\ Uart.sw_uart1_tx_rb u' = Uart.sw_uart1_tx_rb u.
Proof.
  intros [P0 F0] [P1 F1] Hr0 Hr1 Hb0 Hb1 Hf0 Hf1.
  unfold Uart.process_communication.
  destruct (gps_poll_drains N0 fuel u g P0 F0 Hr0 Hb0 Hf0)
    as (r0' & -> & Hr0' & Hc0').
  destruct (ble_poll_drains N1 fuel
              (Uart.mkUart r0' (Uart.hw_uart0_tx_rb u) (Uart.sw_uart1_rx_rb u)
                 (Uart.sw_uart1_tx_rb u)) b P1 F1 Hr1 Hb1 Hf1)
    as (r1' & -> & Hr1' & Hc1').
  cbn [Uart.hw_uart0_rx_rb Uart.hw_uart0_tx_rb Uart.sw_uart1_rx_rb
       Uart.sw_uart1_tx_rb].
  eexists. split; [reflexivity|].
  unfold Uart.hal_uart_data_available. cbn.
  rewrite (RingBufferProofs.count_contents N0 r0' Hr0'), Hc0'.
  rewrite (RingBufferProofs.count_contents N1 r1' Hr1'), Hc1'. done.
Qed.



End Polling.

Lemma example_wrapped_bytes :
  Forall (fun c => 0 <= c < 256) (contents example_wrapped).
Proof. apply (bool_decide_unpack _); vm_compute; exact I. Qed.


Lemma get_char_oldest_byte_witness :
  0 < 4 /\ 4 < rb_modulus 8
  /\ Uart.get_rx_rb Uart.UART_ID_0 Uart.example_uart = Some example_wrapped
  /\ rb_inv 4 example_wrapped
  /\ Forall (fun c => 0 <= c < 256) (contents example_wrapped)
  /\ contents example_wrapped = [40; 10]
  /\ Uart.hal_uart_data_available Uart.UART_ID_0 Uart.example_uart = true
  /\ (Uart.hal_uart_get_char 8 Uart.UART_ID_0 Uart.example_uart).1 = 40.
Proof.
  assert (0 < 4) as H0 by lia.
  assert (4 < rb_modulus 8) as H1 by reflexivity.
  assert (Uart.get_rx_rb Uart.UART_ID_0 Uart.example_uart = Some example_wrapped)
    as H2 by reflexivity.
  split; [exact H0|]. split; [exact H1|]. split; [exact H2|].
  split; [exact RingBufferBulk.example_wrapped_inv|].
  split; [exact example_wrapped_bytes|]. split; [reflexivity|].
  pose proof (proj1 (proj2 (get_char_oldest_byte 8 4 H0 H1 Uart.UART_ID_0
                              Uart.example_uart)
                       example_wrapped H2 RingBufferBulk.example_wrapped_inv
                       example_wrapped_bytes)) as H.
  exact (conj (proj1 H) (proj1 (proj2 H))).
Defined.

Lemma hal_uart_read_takes_witness :
  0 < 4 /\ 4 < rb_modulus 8
  /\ Uart.get_rx_rb Uart.UART_ID_0 Uart.example_uart = Some example_wrapped
  /\ rb_inv 4 example_wrapped /\ 0 <= 3 < rb_modulus 8
  /\ (Z.to_nat 3 <= length [7; 7; 7])%nat /\ (Z.to_nat 3 < 4)%nat
  /\ (let n := Z.min 3 (count example_wrapped) in
      exists u' r',
        Uart.hal_uart_read 8 4 Uart.UART_ID_0 Uart.example_uart [7; 7; 7] 3
        = Some (n, take (Z.to_nat n) (contents example_wrapped)
                     ++ drop (Z.to_nat n) [7; 7; 7], u')
        /\ Uart.get_rx_rb Uart.UART_ID_0 u' = Some r'
        /\ rb_inv 4 r'
        /\ contents r' = drop (Z.to_nat n) (contents example_wrapped)).
Proof.
  assert (0 < 4) as H0 by lia.
  assert (4 < rb_modulus 8) as H1 by reflexivity.
  assert (Uart.get_rx_rb Uart.UART_ID_0 Uart.example_uart = Some example_wrapped)
    as H2 by reflexivity.
  assert (0 <= 3 < rb_modulus 8) as H3 by (split; [lia|reflexivity]).
  assert (Z.to_nat 3 <= length [7; 7; 7])%nat as H4
    by (apply Nat.leb_le; reflexivity).
  assert (Z.to_nat 3 < 4)%nat as H5 by (apply Nat.ltb_lt; reflexivity).
  split; [exact H0|]. split; [exact H1|]. split; [exact H2|].
  split; [exact RingBufferBulk.example_wrapped_inv|]. split; [exact H3|].
  split; [exact H4|]. split; [exact H5|].
  exact (hal_uart_read_takes 8 4 H0 H1 4 Uart.UART_ID_0 Uart.example_uart
           example_wrapped [7; 7; 7] 3 H2 RingBufferBulk.example_wrapped_inv
           H3 H4 H5).
Defined.

Lemma process_communication_drains_witness :
  0 < 4 < rb_modulus 8
  /\ rb_inv 4 (Uart.hw_uart0_rx_rb Uart.example_uart)
  /\ rb_inv 4 (Uart.sw_uart1_rx_rb Uart.example_uart)
  /\ Forall (fun c => 0 <= c < 256)
       (contents (Uart.hw_uart0_rx_rb Uart.example_uart))
  /\ Forall (fun c => 0 <= c < 256)
       (contents (Uart.sw_uart1_rx_rb Uart.example_uart))
  /\ (length (contents (Uart.hw_uart0_rx_rb Uart.example_uart)) <= 2)%nat
  /\ (length (contents (Uart.sw_uart1_rx_rb Uart.example_uart)) <= 2)%nat
  /\ exists u',
       Uart.process_communication 8 2 Uart.example_uart Gps.gps_init
         BleUart.ble_uart_start
       = Some (u',
               Gps.gps_feed Gps.gps_init
                 (contents (Uart.hw_uart0_rx_rb Uart.example_uart)),
               BleUart.ble_uart_feed BleUart.ble_uart_start
                 (contents (Uart.sw_uart1_rx_rb Uart.example_uart)))
       /\ Uart.hal_uart_data_available Uart.GPS_UART_ID u' = false
       /\ Uart.hal_uart_data_available Uart.BLE_UART_ID u' = false
       /\ Uart.hw_uart0_tx_rb u' = Uart.hw_uart0_tx_rb Uart.example_uart
       /\ Uart.sw_uart1_tx_rb u' = Uart.sw_uart1_tx_rb Uart.example_uart.
Proof.
  assert (0 < 4 < rb_modulus 8) as H0 by (split; [lia|reflexivity]).
  assert (length (contents example_wrapped) <= 2)%nat as H1
    by (apply Nat.leb_le; reflexivity).
  split; [exact H0|]. split; [exact RingBufferBulk.example_wrapped_inv|].
  split; [exact RingBufferBulk.example_wrapped_inv|].
  split; [exact example_wrapped_bytes|]. split; [exact example_wrapped_bytes|].
  split; [exact H1|]. split; [exact H1|].
  exact (process_communication_drains 8 4 4 2 Uart.example_uart Gps.gps_init
           BleUart.ble_uart_start H0 H0 RingBufferBulk.example_wrapped_inv
           RingBufferBulk.example_wrapped_inv example_wrapped_bytes
           example_wrapped_bytes H1 H1).
Defined.






End UartProofs.
